(** * Sales pipeline (airflow_data/dags/sales_pipeline.py)

    A shallow embedding of the Airflow DAG [sales_pipeline]: the bronze
    extractors, the silver reconciler [etl_sales], the seven gold aggregators
    and the task graph declared at the end of the script.

    Modelling conventions.
    - The MySQL database is a [store]: one optional table per table name
      ([None] = the table does not exist).  A table is the list of its rows.
    - A pandas DataFrame is a [DataFrame]: either a frame without any column
      (what [pd.json_normalize] returns on an empty list) or a list of typed
      rows.  Index columns are ordinary columns of the row record: the script
      always writes them out ([index=True]) or resets them.
    - Text columns are [string]; [order_date], a text column that may hold
      SQL [NULL], is [option string].  The order file is taken to give
      [quantity] as an [int64] column and [price] as a [float64] column.
      An [int64] is a [Z], and the sums over it wrap around at 64 bits as
      the C loops of pandas do.  A [float64] is an IEEE 754 binary64 number
      ([spec_float] at precision 53), with [NaN] for a missing value; [sum]
      and [mean] over a group are the loops of [pandas/_libs/groupby.pyx]
      ([group_sum], [group_mean]): missing values are skipped and the
      additions are Kahan-compensated.  The measurements of the weather
      table, which the script only copies, are kept as the decimal numbers
      [Q] of the response.
    - A Python exception is an [Err] result; a task fails when its callable
      raises.
    - The outside world (the two HTTP APIs and the CSV file) is a [sources]
      record; the behaviour of pandas that the script relies on but does not
      fix itself (the sorting algorithm, the date parser) is the interface
      [PandasLib].  [pd.to_datetime] turns a missing value into [NaT], and
      [groupby] leaves out the rows whose key is missing. *)

From Stdlib Require Import List ZArith QArith String Ascii Bool Lia.
From Stdlib Require Import Permutation Sorted SpecFloat.
Import ListNotations.

Local Open Scope string_scope.
Local Open Scope list_scope.
Local Open Scope Z_scope.

(* ------------------------------------------------------------------ *)
(** ** Exceptions *)

Inductive error : Type :=
| KeyError (columns : list string)
| IndexError
| ProgrammingError (table : string)
| ValueError (msg : string).

Inductive result (A : Type) : Type :=
| Ok (a : A)
| Err (e : error).

Arguments Ok {A} a.
Arguments Err {A} e.

Definition bind {A B : Type} (m : result A) (k : A -> result B) : result B :=
  match m with
  | Ok a => k a
  | Err e => Err e
  end.

Notation "x <- m ;; k" := (bind m (fun x => k))
  (at level 61, m at next level, right associativity).

Fixpoint mapM {A B : Type} (f : A -> result B) (l : list A) : result (list B) :=
  match l with
  | [] => Ok []
  | a :: l' => b <- f a ;; bs <- mapM f l' ;; Ok (b :: bs)
  end.

(* ------------------------------------------------------------------ *)
(** ** Numbers *)

(** The value that 64 bits in two's complement hold after an addition whose
    exact result is [z]. *)
Definition wrap64 (z : Z) : Z := (z + 2 ^ 63) mod 2 ^ 64 - 2 ^ 63.

(** IEEE 754 binary64, rounding to nearest, ties to even. *)
Definition float64 : Type := spec_float.

Definition float64_add : float64 -> float64 -> float64 := SFadd 53 1024.
Definition float64_sub : float64 -> float64 -> float64 := SFsub 53 1024.
Definition float64_mul : float64 -> float64 -> float64 := SFmul 53 1024.
Definition float64_div : float64 -> float64 -> float64 := SFdiv 53 1024.

(** The conversion of an [int64] to [float64] (exact up to 2^53 in absolute
    value, rounded beyond). *)
Definition float64_of_int64 (z : Z) : float64 :=
  binary_normalize 53 1024 z 0 false.

Definition isnan (x : float64) : bool :=
  match x with
  | S754_nan => true
  | _ => false
  end.

Definition zero64 : float64 := S754_zero false.

(** The [float64] that a short decimal literal denotes (one whose digits,
    without the point, make a number below 2^53): [dec 10] is [10.0] and
    [dec 0.1] is the [0.1] of Python. *)
Definition dec (q : Q) : float64 :=
  float64_div (float64_of_int64 (Qnum q)) (float64_of_int64 (Zpos (Qden q))).

(* ------------------------------------------------------------------ *)
(** ** Rows of the tables *)

(** [bronze_customers]: the flattened user objects; only the columns the
    script reads later are kept. *)
Record customer : Type := mk_customer {
  c_id : Z;
  c_name : string;
  c_address_geo_lat : string;
  c_address_geo_lng : string
}.

(** [bronze_orders]: the rows of [sales_data.csv].  A blank [order_date]
    is [None] ([NULL] in the database). *)
Record order : Type := mk_order {
  o_customer_id : Z;
  o_product_id : string;
  o_quantity : Z;
  o_price : float64;
  o_order_date : option string
}.

(** [bronze_weather]: the flattened weather responses. *)
Record weather_obs : Type := mk_weather_obs {
  w_customer_id : Z;
  w_weather_description : string;
  w_main_temp : Q;
  w_main_feels_like : Q;
  w_main_humidity : Q;
  w_wind_speed : Q;
  w_clouds_all : Q
}.

(** [silver_sales]: the columns selected by the query of [etl_sales]. *)
Record sales : Type := mk_sales {
  customer_id : Z;
  product_id : string;
  quantity : Z;
  price : float64;
  order_date : option string;
  customer_name : string;
  address_geo_lat : string;
  address_geo_lng : string;
  weather_description : string;
  main_temp : Q;
  main_feels_like : Q;
  main_humidity : Q;
  wind_speed : Q;
  clouds_all : Q
}.

(** Rows of the two trend tables: the two grouping columns, then
    [sum(quantity)] and [sum(total_sales)]. *)
Record trend : Type := mk_trend {
  t_year : Z;
  t_period : Z;
  t_quantity : Z;
  t_total_sales : float64
}.

(* ------------------------------------------------------------------ *)
(** ** The database *)

Record store : Type := mk_store {
  bronze_customers : option (list customer);
  bronze_orders : option (list order);
  bronze_weather : option (list weather_obs);
  silver_sales : option (list sales);
  gold_total_sales_by_customer : option (list (Z * float64));
  gold_avg_order_quantity_per_product : option (list (string * float64));
  gold_top_selling_products : option (list (string * Z));
  gold_top_selling_customers : option (list (Z * Z));
  gold_sales_trends_monthly : option (list trend);
  gold_sales_trends_quarterly : option (list trend);
  gold_sales_per_weather_condition : option (list (string * float64))
}.

Definition empty_store : store :=
  mk_store None None None None None None None None None None None.

(** A table name together with the way the store holds that table. *)
Record table (A : Type) : Type := mk_table {
  table_name : string;
  table_get : store -> option (list A);
  table_set : option (list A) -> store -> store
}.

Arguments table_name {A} t.
Arguments table_get {A} t s.
Arguments table_set {A} t v s.

Definition T_bronze_customers : table customer :=
  mk_table _ "bronze_customers" bronze_customers
    (fun v s => mk_store v (bronze_orders s) (bronze_weather s) (silver_sales s)
       (gold_total_sales_by_customer s) (gold_avg_order_quantity_per_product s)
       (gold_top_selling_products s) (gold_top_selling_customers s)
       (gold_sales_trends_monthly s) (gold_sales_trends_quarterly s)
       (gold_sales_per_weather_condition s)).

Definition T_bronze_orders : table order :=
  mk_table _ "bronze_orders" bronze_orders
    (fun v s => mk_store (bronze_customers s) v (bronze_weather s) (silver_sales s)
       (gold_total_sales_by_customer s) (gold_avg_order_quantity_per_product s)
       (gold_top_selling_products s) (gold_top_selling_customers s)
       (gold_sales_trends_monthly s) (gold_sales_trends_quarterly s)
       (gold_sales_per_weather_condition s)).

Definition T_bronze_weather : table weather_obs :=
  mk_table _ "bronze_weather" bronze_weather
    (fun v s => mk_store (bronze_customers s) (bronze_orders s) v (silver_sales s)
       (gold_total_sales_by_customer s) (gold_avg_order_quantity_per_product s)
       (gold_top_selling_products s) (gold_top_selling_customers s)
       (gold_sales_trends_monthly s) (gold_sales_trends_quarterly s)
       (gold_sales_per_weather_condition s)).

Definition T_silver_sales : table sales :=
  mk_table _ "silver_sales" silver_sales
    (fun v s => mk_store (bronze_customers s) (bronze_orders s) (bronze_weather s) v
       (gold_total_sales_by_customer s) (gold_avg_order_quantity_per_product s)
       (gold_top_selling_products s) (gold_top_selling_customers s)
       (gold_sales_trends_monthly s) (gold_sales_trends_quarterly s)
       (gold_sales_per_weather_condition s)).

Definition T_gold_total_sales_by_customer : table (Z * float64) :=
  mk_table _ "gold_total_sales_by_customer" gold_total_sales_by_customer
    (fun v s => mk_store (bronze_customers s) (bronze_orders s) (bronze_weather s)
       (silver_sales s)
       v (gold_avg_order_quantity_per_product s)
       (gold_top_selling_products s) (gold_top_selling_customers s)
       (gold_sales_trends_monthly s) (gold_sales_trends_quarterly s)
       (gold_sales_per_weather_condition s)).

Definition T_gold_avg_order_quantity_per_product : table (string * float64) :=
  mk_table _ "gold_avg_order_quantity_per_product"
    gold_avg_order_quantity_per_product
    (fun v s => mk_store (bronze_customers s) (bronze_orders s) (bronze_weather s)
       (silver_sales s)
       (gold_total_sales_by_customer s) v
       (gold_top_selling_products s) (gold_top_selling_customers s)
       (gold_sales_trends_monthly s) (gold_sales_trends_quarterly s)
       (gold_sales_per_weather_condition s)).

Definition T_gold_top_selling_products : table (string * Z) :=
  mk_table _ "gold_top_selling_products" gold_top_selling_products
    (fun v s => mk_store (bronze_customers s) (bronze_orders s) (bronze_weather s)
       (silver_sales s)
       (gold_total_sales_by_customer s) (gold_avg_order_quantity_per_product s)
       v (gold_top_selling_customers s)
       (gold_sales_trends_monthly s) (gold_sales_trends_quarterly s)
       (gold_sales_per_weather_condition s)).

Definition T_gold_top_selling_customers : table (Z * Z) :=
  mk_table _ "gold_top_selling_customers" gold_top_selling_customers
    (fun v s => mk_store (bronze_customers s) (bronze_orders s) (bronze_weather s)
       (silver_sales s)
       (gold_total_sales_by_customer s) (gold_avg_order_quantity_per_product s)
       (gold_top_selling_products s) v
       (gold_sales_trends_monthly s) (gold_sales_trends_quarterly s)
       (gold_sales_per_weather_condition s)).

Definition T_gold_sales_trends_monthly : table trend :=
  mk_table _ "gold_sales_trends_monthly" gold_sales_trends_monthly
    (fun v s => mk_store (bronze_customers s) (bronze_orders s) (bronze_weather s)
       (silver_sales s)
       (gold_total_sales_by_customer s) (gold_avg_order_quantity_per_product s)
       (gold_top_selling_products s) (gold_top_selling_customers s)
       v (gold_sales_trends_quarterly s)
       (gold_sales_per_weather_condition s)).

Definition T_gold_sales_trends_quarterly : table trend :=
  mk_table _ "gold_sales_trends_quarterly" gold_sales_trends_quarterly
    (fun v s => mk_store (bronze_customers s) (bronze_orders s) (bronze_weather s)
       (silver_sales s)
       (gold_total_sales_by_customer s) (gold_avg_order_quantity_per_product s)
       (gold_top_selling_products s) (gold_top_selling_customers s)
       (gold_sales_trends_monthly s) v
       (gold_sales_per_weather_condition s)).

Definition T_gold_sales_per_weather_condition : table (string * float64) :=
  mk_table _ "gold_sales_per_weather_condition" gold_sales_per_weather_condition
    (fun v s => mk_store (bronze_customers s) (bronze_orders s) (bronze_weather s)
       (silver_sales s)
       (gold_total_sales_by_customer s) (gold_avg_order_quantity_per_product s)
       (gold_top_selling_products s) (gold_top_selling_customers s)
       (gold_sales_trends_monthly s) (gold_sales_trends_quarterly s)
       v).

(* ------------------------------------------------------------------ *)
(** ** Data frames and the storage helpers *)

(** [NoColumns] is the frame [pd.DataFrame()]: no column and no row.
    [Frame rows] has the columns of the row type, and possibly no row. *)
Inductive DataFrame (A : Type) : Type :=
| NoColumns
| Frame (rows : list A).

Arguments NoColumns {A}.
Arguments Frame {A} rows.

(** [pd.json_normalize(records)]: an empty list gives the frame without
    columns, otherwise one row per record. *)
Definition json_normalize {A : Type} (records : list A) : DataFrame A :=
  match records with
  | [] => NoColumns
  | _ :: _ => Frame records
  end.

(** [normalize_columns] renames the columns ([.] becomes [_]); the rows are
    unchanged.  The renaming of one column name: *)
Fixpoint replace_dot (c : string) : string :=
  match c with
  | EmptyString => EmptyString
  | String a c' =>
      String (if Ascii.eqb a "."%char then "_"%char else a) (replace_dot c')
  end.

Definition normalize_columns {A : Type} (df : DataFrame A) : DataFrame A := df.

(** [df.set_index(keys)]: raises [KeyError] when a key is not a column, which
    in this script happens exactly on the frame without columns.  No
    uniqueness is checked ([verify_integrity] is left at [False]). *)
Definition set_index {A : Type} (keys : list string) (df : DataFrame A)
  : result (DataFrame A) :=
  match df with
  | NoColumns => Err (KeyError keys)
  | Frame rows => Ok (Frame rows)
  end.

Inductive if_exists_mode : Type := replace | append | fail.

(** The table after the insertion of [rows], from its current content
    [old]. *)
Definition insert_rows {A : Type} (rows : list A) (name : string)
    (old : option (list A)) (if_exists : if_exists_mode)
  : result (option (list A)) :=
  match if_exists, old with
  | replace, _ => Ok (Some rows)
  | append, Some old_rows => Ok (Some (old_rows ++ rows))
  | append, None => Ok (Some rows)
  | fail, Some _ => Err (ValueError name)
  | fail, None => Ok (Some rows)
  end.

(** [df.to_sql(table, engine, if_exists=..., index=...)] on the current
    content [old] of the table.  The [index] flag decides whether the index
    columns are written; they are columns of the row type here, so it does
    not change the rows of a frame that has columns.  The frame without
    columns has no row: with its index it is written as a table without
    rows, and without its index there is no column to create a table
    from. *)
Definition to_sql {A : Type} (df : DataFrame A) (name : string)
    (old : option (list A)) (if_exists : if_exists_mode) (index : bool)
  : result (option (list A)) :=
  match df with
  | NoColumns =>
      if index then insert_rows [] name old if_exists
      else Err (ProgrammingError name)
  | Frame rows => insert_rows rows name old if_exists
  end.

(** [write_to_db(df, table, if_exists='replace', index=False)]. *)
Definition write_to_db {A : Type} (df : DataFrame A) (t : table A)
    (if_exists : if_exists_mode) (index : bool) (s : store) : result store :=
  v <- to_sql df (table_name t) (table_get t s) if_exists index ;;
  Ok (table_set t v s).

(** [load_from_db("SELECT * FROM <table>")]. *)
Definition load_from_db {A : Type} (t : table A) (s : store) : result (list A) :=
  match table_get t s with
  | Some rows => Ok rows
  | None => Err (ProgrammingError (table_name t))
  end.

(** [test_connection]: [SELECT 1] needs no table. *)
Definition test_connection (s : store) : result store := Ok s.

(* ------------------------------------------------------------------ *)
(** ** Silver layer: [etl_sales] *)

(** The row projected by the [select] clause from one matching triple. *)
Definition select_row (o : order) (c : customer) (w : weather_obs) : sales :=
  mk_sales (o_customer_id o) (o_product_id o) (o_quantity o) (o_price o)
    (o_order_date o) (c_name c) (c_address_geo_lat c) (c_address_geo_lng c)
    (w_weather_description w) (w_main_temp w) (w_main_feels_like w)
    (w_main_humidity w) (w_wind_speed w) (w_clouds_all w).

(** [bronze_orders o inner join bronze_customers c on c.id=o.customer_id
    inner join bronze_weather w on w.customer_id=o.customer_id].  The query
    asks for no order of the rows: the list below holds the rows of the
    result in one of the orders the engine may return them in (that of the
    nested loops of the join), and the properties of the reconciled table
    are stated for its rows as a bag. *)
Definition etl_sales_query (orders : list order) (customers : list customer)
    (weather : list weather_obs) : list sales :=
  flat_map (fun o =>
    flat_map (fun c =>
      if c_id c =? o_customer_id o then
        flat_map (fun w =>
          if w_customer_id w =? o_customer_id o then [select_row o c w] else [])
          weather
      else [])
      customers)
    orders.

Definition etl_sales (s : store) : result store :=
  o <- load_from_db T_bronze_orders s ;;
  c <- load_from_db T_bronze_customers s ;;
  w <- load_from_db T_bronze_weather s ;;
  df <- set_index ["customer_id"; "product_id"] (Frame (etl_sales_query o c w)) ;;
  write_to_db df T_silver_sales replace true s.

(* ------------------------------------------------------------------ *)
(** ** The outside world *)

(** One entry of the [weather] list of a weather response. *)
Record weather_entry : Type := mk_weather_entry {
  description : string
}.

(** The JSON body of a weather response, with the blocks the query of
    [etl_sales] reads ([main], [wind], [clouds]). *)
Record weather_json : Type := mk_weather_json {
  weather : list weather_entry;
  temp : Q;
  feels_like : Q;
  humidity : Q;
  speed : Q;
  all : Q
}.

Record response : Type := mk_response {
  status_code : Z;
  json : weather_json
}.

(** What the pipeline reads from outside the database during one run: the
    user objects of the customer API (already flattened), the weather API as
    a function of latitude and longitude, and the rows of [sales_data.csv].
    An [Err] is an unreachable API or a missing file. *)
Record sources : Type := mk_sources {
  users_api : result (list customer);
  weather_api : string -> string -> response;
  sales_data_csv : result (list order)
}.

(* ------------------------------------------------------------------ *)
(** ** Bronze layer *)

Definition fetch_users (src : sources) : result (DataFrame customer) :=
  users <- users_api src ;;
  Ok (json_normalize users).

Definition fetch_transform_write (src : sources) (s : store) : result store :=
  df <- fetch_users src ;;
  let df := normalize_columns df in
  df <- set_index ["id"] df ;;
  write_to_db df T_bronze_customers replace true s.

(** [get_weather(id, lat, lon)]: the response body tagged with the customer
    id on status 200, [None] otherwise. *)
Definition get_weather (src : sources) (id : Z) (lat lon : string)
  : option (Z * weather_json) :=
  let response := weather_api src lat lon in
  if status_code response =? 200 then Some (id, json response) else None.

(** [filter(None, l)]: a tagged body is a non-empty dict, hence truthy; only
    the [None] entries go. *)
Fixpoint filter_None {A : Type} (l : list (option A)) : list A :=
  match l with
  | [] => []
  | Some a :: l' => a :: filter_None l'
  | None :: l' => filter_None l'
  end.

(** The body of the loop of [fetch_weather], [d["weather"] = d["weather"][0]],
    followed by the flattening of [d] into a row. *)
Definition unwrap_weather (d : Z * weather_json) : result weather_obs :=
  match weather (snd d) with
  | [] => Err IndexError
  | w :: _ =>
      Ok (mk_weather_obs (fst d) (description w) (temp (snd d))
            (feels_like (snd d)) (humidity (snd d)) (speed (snd d))
            (all (snd d)))
  end.

(** The list [weather_list1] built from the rows of [bronze_customers]. *)
Definition weather_list1 (src : sources) (df : list customer)
  : result (list weather_obs) :=
  let weather :=
    map (fun row => get_weather src (c_id row) (c_address_geo_lat row)
                      (c_address_geo_lng row)) df in
  let weather_list := filter_None weather in
  mapM unwrap_weather weather_list.

Definition fetch_weather (src : sources) (s : store) : result store :=
  df <- load_from_db T_bronze_customers s ;;
  weather_list1 <- weather_list1 src df ;;
  let weather_df := json_normalize weather_list1 in
  let weather_df := normalize_columns weather_df in
  weather_df <- set_index ["customer_id"] weather_df ;;
  write_to_db weather_df T_bronze_weather replace true s.

Definition load_csv (src : sources) (s : store) : result store :=
  rows <- sales_data_csv src ;;
  df <- set_index ["customer_id"] (Frame rows) ;;
  write_to_db df T_bronze_orders replace true s.

(* ------------------------------------------------------------------ *)
(** ** [groupby(...).agg(...).reset_index()] *)

Section GroupBy.
Context {A K : Type}.
Variable eqb : K -> K -> bool.
Variable leb : K -> K -> bool.

Fixpoint insert_key (k : K) (l : list K) : list K :=
  match l with
  | [] => [k]
  | h :: t => if leb k h then k :: l else h :: insert_key k t
  end.

Definition sort_keys (l : list K) : list K := fold_right insert_key [] l.

(** The distinct keys, each kept at its last occurrence. *)
Fixpoint unique (l : list K) : list K :=
  match l with
  | [] => []
  | k :: t => if existsb (eqb k) t then unique t else k :: unique t
  end.

(** The group keys of a frame: the distinct values of the key column in
    ascending order ([sort=True] is the default of [groupby]). *)
Definition group_keys (key : A -> K) (rows : list A) : list K :=
  sort_keys (unique (map key rows)).

(** The rows of one group, in the order of the frame. *)
Definition group_rows (key : A -> K) (rows : list A) (k : K) : list A :=
  filter (fun r => eqb (key r) k) rows.

(** One output row per group: the key and the aggregate of its rows. *)
Definition groupby_agg {B : Type} (key : A -> K) (agg : list A -> B)
    (rows : list A) : list (K * B) :=
  map (fun k => (k, agg (group_rows key rows k))) (group_keys key rows).
End GroupBy.

(** [agg "sum"] on an [int64] column: the loop of [group_sum] adds the
    values of the group one after the other in 64 bits. *)
Definition sum_int64 (l : list Z) : Z :=
  fold_left (fun sumx val => wrap64 (sumx + val)) l 0.

(** One round of the loops of [group_sum] and [group_mean] on a [float64]
    column, on the running sum and its compensation:
    [y = val - compensation; t = sumx + y;
     compensation = t - sumx - y; sumx = t],
    the compensation being reset when it is [NaN]. *)
Definition kahan_step (st : float64 * float64) (val : float64)
  : float64 * float64 :=
  let y := float64_sub val (snd st) in
  let t := float64_add (fst st) y in
  let compensation := float64_sub (float64_sub t (fst st)) y in
  (t, if isnan compensation then zero64 else compensation).

(** The entries of a column that the loops take: those that are not
    missing. *)
Definition notna (l : list float64) : list float64 :=
  filter (fun val => negb (isnan val)) l.

(** [agg "sum"] on a [float64] column ([min_count] is 0: a group without
    any value sums to 0). *)
Definition sum_float64 (l : list float64) : float64 :=
  fst (fold_left kahan_step (notna l) (zero64, zero64)).

(** [agg "mean"] on a [float64] column: the compensated sum divided by the
    number of values, [NaN] for a group without any value. *)
Definition mean_float64 (l : list float64) : float64 :=
  match notna l with
  | [] => S754_nan
  | _ :: _ =>
      float64_div (fst (fold_left kahan_step (notna l) (zero64, zero64)))
        (float64_of_int64 (Z.of_nat (List.length (notna l))))
  end.

Definition pair_eqb (a b : Z * Z) : bool :=
  (fst a =? fst b) && (snd a =? snd b).
Definition pair_leb (a b : Z * Z) : bool :=
  (fst a <? fst b) || ((fst a =? fst b) && (snd a <=? snd b)).

(* ------------------------------------------------------------------ *)
(** ** The part of pandas the script leaves open *)

Record date : Type := mk_date {
  year : Z;
  month : Z;
  day : Z
}.

(** [dt.quarter]. *)
Definition quarter (d : date) : Z := (month d - 1) / 3 + 1.

Inductive sort_kind : Type := quicksort | mergesort | heapsort | stable.

(** [sort_values by ascending kind rows] is [df.sort_values(by=..,
    ascending=.., kind=..)] on an integer column; [to_datetime] is
    [pd.to_datetime] on a column of strings: a missing value becomes [NaT]
    ([None]), and a value that cannot be parsed raises. *)
Class PandasLib : Type := {
  sort_values : forall {A : Type}, (A -> Z) -> bool -> sort_kind -> list A -> list A;
  to_datetime : list (option string) -> result (list (option date))
}.

(** Calendar dates written [YYYY-MM-DD]. *)
Definition digit (c : ascii) : option Z :=
  let n := Z.of_nat (nat_of_ascii c) in
  if (48 <=? n) && (n <=? 57) then Some (n - 48) else None.

Definition is_leap (y : Z) : bool :=
  ((y mod 4 =? 0) && negb (y mod 100 =? 0)) || (y mod 400 =? 0).

Definition days_in_month (y m : Z) : Z :=
  if m =? 2 then (if is_leap y then 29 else 28)
  else if (m =? 4) || (m =? 6) || (m =? 9) || (m =? 11) then 30
  else 31.

(** The years a nanosecond [Timestamp] can hold in full. *)
Definition valid_date (d : date) : bool :=
  (1678 <=? year d) && (year d <=? 2261) &&
  (1 <=? month d) && (month d <=? 12) &&
  (1 <=? day d) && (day d <=? days_in_month (year d) (month d)).

Definition parse_iso (s : string) : option date :=
  match s with
  | String y1 (String y2 (String y3 (String y4 (String "-"
      (String m1 (String m2 (String "-"
      (String d1 (String d2 EmptyString))))))))) =>
      match digit y1, digit y2, digit y3, digit y4,
            digit m1, digit m2, digit d1, digit d2 with
      | Some a, Some b, Some c, Some d, Some e, Some f, Some g, Some h =>
          let r := mk_date (1000 * a + 100 * b + 10 * c + d) (10 * e + f)
                     (10 * g + h) in
          if valid_date r then Some r else None
      | _, _, _, _, _, _, _, _ => None
      end
  | _ => None
  end.

(** An element-wise parser and an insertion sort: one implementation of the
    interface. *)
Fixpoint insert_by {A : Type} (le : A -> A -> bool) (x : A) (l : list A) : list A :=
  match l with
  | [] => [x]
  | h :: t => if le x h then x :: l else h :: insert_by le x t
  end.

Definition isort {A : Type} (le : A -> A -> bool) (l : list A) : list A :=
  fold_right (insert_by le) [] l.

Definition parse_iso_all (l : list (option string))
  : result (list (option date)) :=
  mapM (fun v => match v with
                 | None => Ok None
                 | Some s =>
                     match parse_iso s with
                     | Some d => Ok (Some d)
                     | None => Err (ValueError s)
                     end
                 end) l.

(** Every kind sorts stably. *)
Definition stable_pandas : PandasLib := {|
  sort_values := fun A by_ ascending kind rows =>
    if ascending then isort (fun x y => by_ x <=? by_ y) rows
    else isort (fun x y => by_ y <=? by_ x) rows;
  to_datetime := parse_iso_all
|}.

(* ------------------------------------------------------------------ *)
(** ** Gold layer *)

(** The column [total_sales = quantity * price]: the product of an [int64]
    and a [float64] column is the [float64] product of the converted
    quantity and the price. *)
Definition total_sales (r : sales) : float64 :=
  float64_mul (float64_of_int64 (quantity r)) (price r).

Section Gold.
Context {P : PandasLib}.

Definition process_total_sales (s : store) : result store :=
  df <- load_from_db T_silver_sales s ;;
  let df := groupby_agg Z.eqb Z.leb customer_id
              (fun g => sum_float64 (map total_sales g)) df in
  write_to_db (Frame df) T_gold_total_sales_by_customer replace false s.

(** The query string of this function nests double quotes in an f-string,
    which Python accepts from version 3.12 on; the script is read as that
    version reads it.  The mean of an [int64] column is taken over its
    values converted to [float64]. *)
Definition process_avg_order_quantity (s : store) : result store :=
  df <- load_from_db T_silver_sales s ;;
  let df := groupby_agg String.eqb String.leb product_id
              (fun g => mean_float64
                          (map (fun r => float64_of_int64 (quantity r)) g))
              df in
  write_to_db (Frame df) T_gold_avg_order_quantity_per_product replace false s.

Definition process_top_selling_products (s : store) : result store :=
  df <- load_from_db T_silver_sales s ;;
  let df := groupby_agg String.eqb String.leb product_id
              (fun g => sum_int64 (map quantity g)) df in
  let df := sort_values snd false quicksort df in
  write_to_db (Frame df) T_gold_top_selling_products replace false s.

Definition process_top_selling_customers (s : store) : result store :=
  df <- load_from_db T_silver_sales s ;;
  let df := groupby_agg Z.eqb Z.leb customer_id
              (fun g => sum_int64 (map quantity g)) df in
  let df := sort_values snd false quicksort df in
  df <- set_index ["customer_id"] (Frame df) ;;
  write_to_db df T_gold_top_selling_customers replace true s.

(** The frame of a trend aggregator after its column assignments: each row
    of [silver_sales] with its parsed [order_date], [None] for [NaT]. *)
Definition with_order_date (df : list sales)
  : result (list (sales * option date)) :=
  dates <- to_datetime (map order_date df) ;;
  Ok (combine df dates).

(** The rows that [groupby] takes when the keys are derived from the date
    ([dropna=True] is its default): those whose date is not [NaT]. *)
Fixpoint dropna (df : list (sales * option date)) : list (sales * date) :=
  match df with
  | [] => []
  | (r, Some d) :: df' => (r, d) :: dropna df'
  | (r, None) :: df' => dropna df'
  end.

Definition trend_rows (period : date -> Z) (df : list (sales * option date))
  : list trend :=
  map (fun g => mk_trend (fst (fst g)) (snd (fst g)) (fst (snd g)) (snd (snd g)))
    (groupby_agg pair_eqb pair_leb
       (fun r => (year (snd r), period (snd r)))
       (fun g => (sum_int64 (map (fun r => quantity (fst r)) g),
                  sum_float64 (map (fun r => total_sales (fst r)) g)))
       (dropna df)).

Definition process_sales_trends_monthly (s : store) : result store :=
  df <- load_from_db T_silver_sales s ;;
  df <- with_order_date df ;;
  write_to_db (Frame (trend_rows month df)) T_gold_sales_trends_monthly
    replace false s.

Definition process_sales_trends_quarterly (s : store) : result store :=
  df <- load_from_db T_silver_sales s ;;
  df <- with_order_date df ;;
  write_to_db (Frame (trend_rows quarter df)) T_gold_sales_trends_quarterly
    replace false s.

Definition process_sales_per_weather_condition (s : store) : result store :=
  df <- load_from_db T_silver_sales s ;;
  let df := groupby_agg String.eqb String.leb weather_description
              (fun g => mean_float64 (map total_sales g)) df in
  write_to_db (Frame df) T_gold_sales_per_weather_condition replace false s.
End Gold.

(* ------------------------------------------------------------------ *)
(** ** The task graph *)

(** The [PythonOperator]s of the script, under the names of the variables
    that hold them ([test_connection] is also the name of its callable, so
    the operator is [op_test_connection] here). *)
Inductive task : Type :=
| op_test_connection
| fetch_customer_from_api
| fetch_weather_from_api
| load_order
| po_etl_sales
| po_process_total_sales
| po_process_avg_order_quantity
| po_process_top_selling_products
| po_process_top_selling_customers
| po_process_sales_trends_monthly
| po_process_sales_trends_quarterly
| po_process_sales_per_weather_condition.

Definition task_eqb (a b : task) : bool :=
  match a, b with
  | op_test_connection, op_test_connection
  | fetch_customer_from_api, fetch_customer_from_api
  | fetch_weather_from_api, fetch_weather_from_api
  | load_order, load_order
  | po_etl_sales, po_etl_sales
  | po_process_total_sales, po_process_total_sales
  | po_process_avg_order_quantity, po_process_avg_order_quantity
  | po_process_top_selling_products, po_process_top_selling_products
  | po_process_top_selling_customers, po_process_top_selling_customers
  | po_process_sales_trends_monthly, po_process_sales_trends_monthly
  | po_process_sales_trends_quarterly, po_process_sales_trends_quarterly
  | po_process_sales_per_weather_condition,
    po_process_sales_per_weather_condition => true
  | _, _ => false
  end.

(** The [python_callable] of each operator. *)
Definition python_callable {P : PandasLib} (t : task) (src : sources)
  : store -> result store :=
  match t with
  | op_test_connection => test_connection
  | fetch_customer_from_api => fetch_transform_write src
  | fetch_weather_from_api => fetch_weather src
  | load_order => load_csv src
  | po_etl_sales => etl_sales
  | po_process_total_sales => process_total_sales
  | po_process_avg_order_quantity => process_avg_order_quantity
  | po_process_top_selling_products => process_top_selling_products
  | po_process_top_selling_customers => process_top_selling_customers
  | po_process_sales_trends_monthly => process_sales_trends_monthly
  | po_process_sales_trends_quarterly => process_sales_trends_quarterly
  | po_process_sales_per_weather_condition => process_sales_per_weather_condition
  end.

(** The three layers. *)
Definition bronze_tasks : list task :=
  [fetch_customer_from_api; fetch_weather_from_api; load_order].

Definition gold_tasks : list task :=
  [po_process_total_sales; po_process_avg_order_quantity;
   po_process_top_selling_products; po_process_top_selling_customers;
   po_process_sales_trends_monthly; po_process_sales_trends_quarterly;
   po_process_sales_per_weather_condition].

Definition all_tasks : list task :=
  op_test_connection :: bronze_tasks ++ po_etl_sales :: gold_tasks.

(** The dependency edges [(upstream, downstream)]. *)
Definition graph : Type := list (task * task).

(** [a >> b] makes [b] a downstream task of [a] and evaluates to [b];
    [a >> [b1; ...]] does so for every task of the list. *)
Definition rshift (l : graph * task) (r : task) : graph * task :=
  (fst l ++ [(snd l, r)], r).

Definition rshift_list (l : graph * task) (r : list task) : graph * list task :=
  (fst l ++ map (pair (snd l)) r, r).

(** The two chaining statements that end the script. *)
Definition dag : graph :=
  let g :=
    fst (rshift (rshift (rshift ([], op_test_connection)
                           fetch_customer_from_api)
                   fetch_weather_from_api)
           load_order) in
  fst (rshift_list (rshift (g, load_order) po_etl_sales) gold_tasks).

(** The graph with the bronze-before-silver edges only: the weather
    extraction reads [bronze_customers], the reconciler reads the three
    bronze tables, and nothing orders the order loader against the two
    extractors. *)
Definition sibling_dag : graph :=
  [(op_test_connection, fetch_customer_from_api);
   (op_test_connection, load_order);
   (fetch_customer_from_api, fetch_weather_from_api);
   (fetch_customer_from_api, po_etl_sales);
   (fetch_weather_from_api, po_etl_sales);
   (load_order, po_etl_sales)]
  ++ map (pair po_etl_sales) gold_tasks.

Definition upstream (g : graph) (t : task) : list task :=
  map fst (filter (fun e => task_eqb (snd e) t) g).

Definition downstream (g : graph) (t : task) : list task :=
  map snd (filter (fun e => task_eqb (fst e) t) g).

(** [reaches g n a b]: a path of at least one and at most [n] edges leads
    from [a] to [b]. *)
Fixpoint reaches (g : graph) (n : nat) (a b : task) : bool :=
  match n with
  | O => false
  | S n' =>
      existsb (fun c => task_eqb c b || reaches g n' c b) (downstream g a)
  end.

(* ------------------------------------------------------------------ *)
(** ** Execution of a DAG run *)

(** The state of a task instance. *)
Inductive state : Type := no_status | running | success | failed.

Definition state_eqb (a b : state) : bool :=
  match a, b with
  | no_status, no_status | running, running
  | success, success | failed, failed => true
  | _, _ => false
  end.

(** A DAG run in progress: the state of every task instance and the
    database. *)
Record dagrun : Type := mk_dagrun {
  ti_state : task -> state;
  db : store
}.

Definition set_state (t : task) (v : state) (st : task -> state) : task -> state :=
  fun t' => if task_eqb t' t then v else st t'.

(** A new run: no task instance has a state yet. *)
Definition new_run (s : store) : dagrun := mk_dagrun (fun _ => no_status) s.

(** The default trigger rule [all_success]: every direct upstream task has
    succeeded. *)
Definition all_success (g : graph) (r : dagrun) (t : task) : bool :=
  forallb (fun u => state_eqb (ti_state r u) success) (upstream g t).

(** What the scheduler and the workers do: start a task instance, or finish
    a running one, which is when its callable has read and written the
    database. *)
Inductive event : Type :=
| Start (t : task)
| Finish (t : task).

Section Run.
Context {P : PandasLib}.
Variable g : graph.
Variable src : sources.

Definition fire (e : event) (r : dagrun) : option dagrun :=
  match e with
  | Start t =>
      if state_eqb (ti_state r t) no_status && all_success g r t
      then Some (mk_dagrun (set_state t running (ti_state r)) (db r))
      else None
  | Finish t =>
      if state_eqb (ti_state r t) running then
        match python_callable t src (db r) with
        | Ok s' => Some (mk_dagrun (set_state t success (ti_state r)) s')
        | Err _ => Some (mk_dagrun (set_state t failed (ti_state r)) (db r))
        end
      else None
  end.

Fixpoint fire_all (es : list event) (r : dagrun) : option dagrun :=
  match es with
  | [] => Some r
  | e :: es' =>
      match fire e r with
      | Some r' => fire_all es' r'
      | None => None
      end
  end.

(** The runs that can be observed from a database [s]. *)
Inductive reachable (s : store) : dagrun -> Prop :=
| reachable_new : reachable s (new_run s)
| reachable_fire : forall r e r',
    reachable s r -> fire e r = Some r' -> reachable s r'.

(** One worker taking the tasks of a schedule in turn: a task that may
    start runs to its end, a task that may not is passed over. *)
Definition run_task (r : dagrun) (t : task) : dagrun :=
  match fire (Start t) r with
  | Some r1 =>
      match fire (Finish t) r1 with
      | Some r2 => r2
      | None => r1
      end
  | None => r
  end.

Definition run_schedule (schedule : list task) (r : dagrun) : dagrun :=
  fold_left run_task schedule r.

(** A full run of the pipeline from a database, in the order in which the
    script declares the tasks, and the database it leaves. *)
Definition run_pipeline (s : store) : store :=
  db (run_schedule all_tasks (new_run s)).
End Run.

(** The seven gold tables of a database. *)
Definition gold_tables (s : store) :=
  (gold_total_sales_by_customer s,
   gold_avg_order_quantity_per_product s,
   gold_top_selling_products s,
   gold_top_selling_customers s,
   gold_sales_trends_monthly s,
   gold_sales_trends_quarterly s,
   gold_sales_per_weather_condition s).

(** What the script may rely on, whatever pandas does inside: a sort returns
    the rows of the frame in the requested order of the key, the kinds
    [mergesort] and [stable] keep rows with equal keys in their order in the
    frame, and a column of strings that parses gives one entry per row:
    [NaT] for a missing value, the written date for a string of the form
    [YYYY-MM-DD]. *)
Record PandasLaws (P : PandasLib) : Prop := {
  sort_values_perm :
    forall (A : Type) (by_ : A -> Z) ascending kind rows,
      Permutation rows (sort_values by_ ascending kind rows);
  sort_values_descending :
    forall (A : Type) (by_ : A -> Z) kind rows,
      StronglySorted (fun x y => by_ y <= by_ x)
        (sort_values by_ false kind rows);
  sort_values_ascending :
    forall (A : Type) (by_ : A -> Z) kind rows,
      StronglySorted (fun x y => by_ x <= by_ y)
        (sort_values by_ true kind rows);
  sort_values_stable :
    forall (A : Type) (by_ : A -> Z) ascending kind rows v,
      kind = mergesort \/ kind = stable ->
      filter (fun r => by_ r =? v) (sort_values by_ ascending kind rows)
      = filter (fun r => by_ r =? v) rows;
  to_datetime_rows :
    forall l ds, to_datetime l = Ok ds ->
      Forall2 (fun v d =>
                 match v with
                 | None => d = None
                 | Some s => forall d', parse_iso s = Some d' -> d = Some d'
                 end) l ds;
  to_datetime_iso :
    forall l,
      Forall (fun v => match v with
                       | None => True
                       | Some s => parse_iso s <> None
                       end) l ->
      exists ds, to_datetime l = Ok ds
}.

(* ------------------------------------------------------------------ *)
(** ** Vocabulary of the properties *)

(** [appears col rows C]: some row of [rows] has [C] in the column [col]. *)
Definition appears {A K : Type} (col : A -> K) (rows : list A) (C : K) : Prop :=
  exists r, In r rows /\ col r = C.

(** The number of rows of a frame that satisfy a condition. *)
Definition count {A : Type} (p : A -> bool) (rows : list A) : nat :=
  List.length (filter p rows).

(** The compound key of a silver row and of an order. *)
Definition sales_key (r : sales) : Z * string := (customer_id r, product_id r).
Definition order_key (o : order) : Z * string := (o_customer_id o, o_product_id o).

Definition key_eqb (a b : Z * string) : bool :=
  (fst a =? fst b) && String.eqb (snd a) (snd b).

(** Whether the weather lookup of a customer row answers with status 200. *)
Definition lookup_ok (src : sources) (c : customer) : bool :=
  status_code (weather_api src (c_address_geo_lat c) (c_address_geo_lng c))
  =? 200.

(** The amount of a row, [quantity * price]: the [float64] product of the
    quantity, converted, and the price. *)
Definition quantity_times_price (r : sales) : float64 :=
  float64_mul (float64_of_int64 (quantity r)) (price r).

(** The sum of a list of integers, without any bound. *)
Definition exact_sum (l : list Z) : Z := fold_right Z.add 0 l.

(** The integers that an [int64] holds. *)
Definition int64_range (z : Z) : Prop := - 2 ^ 63 <= z < 2 ^ 63.

(** Whether a date falls into the month [m], or into the quarter [k] (the
    months [3k-2] to [3k]), of the year [y]. *)
Definition in_month (y m : Z) (d : date) : bool :=
  (year d =? y) && (month d =? m).

Definition in_quarter (y k : Z) (d : date) : bool :=
  (year d =? y) && (3 * k - 2 <=? month d) && (month d <=? 3 * k).

(** The rows of a trend frame whose date satisfies a condition; a row
    without a date satisfies none. *)
Definition bucket (p : date -> bool) (df : list (sales * option date))
  : list sales :=
  map fst (filter (fun rd => match snd rd with
                             | Some d => p d
                             | None => false
                             end) df).

(** Every [order_date] of the frame is missing or written [YYYY-MM-DD]. *)
Definition iso_dates (silver : list sales) : Prop :=
  Forall (fun r => match order_date r with
                   | None => True
                   | Some s => parse_iso s <> None
                   end) silver.

(** A trend frame holds the rows of [silver] in their order, each with the
    entry that [pd.to_datetime] owes to its [order_date]: [NaT] for a
    missing value, the written date for a string [YYYY-MM-DD]. *)
Definition dated (silver : list sales) (df : list (sales * option date))
  : Prop :=
  map fst df = silver /\
  forall r d, In (r, d) df ->
    match order_date r with
    | None => d = None
    | Some s => forall d', parse_iso s = Some d' -> d = Some d'
    end.

(** Bronze tables as the run has produced them: the rows the sources give. *)
Definition customers_materialized (src : sources) (s : store) : Prop :=
  exists customers,
    users_api src = Ok customers /\ bronze_customers s = Some customers.

Definition weather_materialized (src : sources) (s : store) : Prop :=
  exists customers rows,
    bronze_customers s = Some customers /\
    weather_list1 src customers = Ok rows /\
    bronze_weather s = Some rows.

Definition orders_materialized (src : sources) (s : store) : Prop :=
  exists orders,
    sales_data_csv src = Ok orders /\ bronze_orders s = Some orders.

(** [depends_on g a b]: [b] is downstream of [a], directly or not.  A path
    without a repeated task has fewer edges than there are tasks. *)
Definition depends_on (g : graph) (a b : task) : bool :=
  reaches g (List.length all_tasks) a b.

(** The events of a worker that runs the tasks of a list one after the
    other. *)
Definition one_by_one (l : list task) : list event :=
  flat_map (fun t => [Start t; Finish t]) l.


(** The order columns of a silver row. *)
Definition order_of (r : sales) : order :=
  mk_order (customer_id r) (product_id r) (quantity r) (price r) (order_date r).

(** Whether an order has a customer row and a weather row. *)
Definition matched (customers : list customer) (weather : list weather_obs)
    (o : order) : bool :=
  existsb (fun c => c_id c =? o_customer_id o) customers
  && existsb (fun w => w_customer_id w =? o_customer_id o) weather.

(** The lexicographic order of the keys of the trend tables. *)
Definition pair_lt (a b : Z * Z) : Prop :=
  fst a < fst b \/ (fst a = fst b /\ snd a < snd b).

(** The database after a task body, whether it succeeded or failed. *)
Definition after_task {P : PandasLib} (src : sources) (s : store) (t : task)
  : store :=
  match python_callable t src s with
  | Ok s' => s'
  | Err _ => s
  end.

(** The rows of the monthly table that fall into the quarter [k] of the
    year [y]: the months [3k-2] to [3k]. *)
Definition months_of_quarter (y k : Z) (monthly : list trend) : list trend :=
  filter (fun t => (t_year t =? y) && (3 * k - 2 <=? t_period t)
                   && (t_period t <=? 3 * k))
    monthly.

(** The key columns of the rows of a trend table. *)
Definition trend_keys (out : list trend) : list (Z * Z) :=
  map (fun t => (t_year t, t_period t)) out.

(** The content of the table that a task writes; [test_connection] writes
    none. *)
Inductive contents : Type :=
| no_table
| customers_table (v : option (list customer))
| orders_table (v : option (list order))
| weather_table (v : option (list weather_obs))
| sales_table (v : option (list sales))
| by_customer_table (v : option (list (Z * float64)))
| by_product_table (v : option (list (string * float64)))
| top_products_table (v : option (list (string * Z)))
| top_customers_table (v : option (list (Z * Z)))
| monthly_table (v : option (list trend))
| quarterly_table (v : option (list trend))
| by_weather_table (v : option (list (string * float64))).

Definition table_of (t : task) (s : store) : contents :=
  match t with
  | op_test_connection => no_table
  | fetch_customer_from_api => customers_table (bronze_customers s)
  | fetch_weather_from_api => weather_table (bronze_weather s)
  | load_order => orders_table (bronze_orders s)
  | po_etl_sales => sales_table (silver_sales s)
  | po_process_total_sales =>
      by_customer_table (gold_total_sales_by_customer s)
  | po_process_avg_order_quantity =>
      by_product_table (gold_avg_order_quantity_per_product s)
  | po_process_top_selling_products =>
      top_products_table (gold_top_selling_products s)
  | po_process_top_selling_customers =>
      top_customers_table (gold_top_selling_customers s)
  | po_process_sales_trends_monthly =>
      monthly_table (gold_sales_trends_monthly s)
  | po_process_sales_trends_quarterly =>
      quarterly_table (gold_sales_trends_quarterly s)
  | po_process_sales_per_weather_condition =>
      by_weather_table (gold_sales_per_weather_condition s)
  end.

(** The assignment to [df.columns] in [normalize_columns]. *)
Definition normalize_column_names (columns : list string) : list string :=
  map replace_dot columns.

(** Whether a column name contains a dot. *)
Definition has_dot (c : string) : Prop :=
  In "."%char (list_ascii_of_string c).

(* ------------------------------------------------------------------ *)
(** ** Sample data *)

Definition store_ex1 : store :=
  table_set T_bronze_weather
    (Some [mk_weather_obs 1 "clear sky" 280 279 80 3 0;
           mk_weather_obs 3 "light rain" 285 284 90 5 75])
    (table_set T_bronze_customers
       (Some [mk_customer 1 "Leanne Graham" "-37.3159" "81.1496";
              mk_customer 2 "Ervin Howell" "-43.9509" "-34.4618";
              mk_customer 3 "Clementine Bauch" "-68.6102" "-47.0653"])
       (table_set T_bronze_orders
          (Some [mk_order 1 "A" 2 (dec 10) (Some "2024-02-15");
                 mk_order 2 "B" 1 (dec 5) (Some "2024-02-15");
                 mk_order 1 "A" 4 (dec 10) (Some "2024-03-01")])
          empty_store)).

Definition body_ex : weather_json :=
  mk_weather_json [mk_weather_entry "clear sky"] 280 279 80 3 0.

(** A weather API that rejects every request, as with a revoked key. *)
Definition src_unauthorized : sources :=
  mk_sources
    (Ok [mk_customer 1 "Leanne Graham" "-37.3159" "81.1496"])
    (fun _ _ => mk_response 401 body_ex)
    (Ok [mk_order 1 "A" 2 (dec 10) (Some "2024-02-15")]).

(** A weather API that answers for every location but one. *)
Definition src_ex : sources :=
  mk_sources
    (Ok [mk_customer 1 "Leanne Graham" "-37.3159" "81.1496";
         mk_customer 2 "Ervin Howell" "-43.9509" "-34.4618";
         mk_customer 3 "Clementine Bauch" "-68.6102" "-47.0653"])
    (fun lat _ => if String.eqb lat "-43.9509" then mk_response 404 body_ex
                  else mk_response 200 body_ex)
    (Ok [mk_order 1 "A" 2 (dec 10) (Some "2024-02-15");
         mk_order 2 "B" 1 (dec 5) (Some "2024-02-15");
         mk_order 3 "B" 3 (dec 5) (Some "2024-04-02");
         mk_order 1 "A" 4 (dec 10) (Some "2024-03-01")]).

Definition silver_row (c : Z) (p : string) (q : Z) (pr : Q) (d w : string)
  : sales :=
  mk_sales c p q (dec pr) (Some d) "Leanne Graham" "-37.3159" "81.1496" w
    280 279 80 3 0.

(** The two rows of the aggregate-correctness example. *)
Definition store_total_sales : store :=
  table_set T_silver_sales
    (Some [silver_row 1 "A" 2 10 "2024-02-15" "clear sky";
           silver_row 1 "B" 1 5 "2024-02-15" "clear sky"])
    empty_store.

(** Two orders under a clear sky, with sales of 100 and 50, and one in the
    rain. *)
Definition store_weather : store :=
  table_set T_silver_sales
    (Some [silver_row 1 "A" 10 10 "2024-02-15" "clear sky";
           silver_row 2 "B" 3 7 "2024-02-16" "light rain";
           silver_row 3 "B" 10 5 "2024-02-15" "clear sky"])
    empty_store.

(** Two products with the same summed quantity. *)
Definition store_tie : store :=
  table_set T_silver_sales
    (Some [silver_row 1 "A" 2 10 "2024-02-15" "clear sky";
           silver_row 1 "B" 2 5 "2024-02-15" "clear sky"])
    empty_store.

(** The database after the reconciler has run on the sources [src_ex]. *)
Definition store_ex_silver : store :=
  table_set T_silver_sales
    (Some [silver_row 1 "A" 2 10 "2024-02-15" "clear sky";
           silver_row 3 "B" 3 5 "2024-04-02" "clear sky";
           silver_row 1 "A" 4 10 "2024-03-01" "clear sky"])
    empty_store.

(** The run on [src_ex], from an empty database, when the reconciler has
    just finished. *)
Definition run_after_etl : dagrun :=
  run_schedule (P := stable_pandas) dag src_ex
    [op_test_connection; fetch_customer_from_api; fetch_weather_from_api;
     load_order; po_etl_sales]
    (new_run empty_store).

(** Three customers; product B sells 1, 3 and 5 units. *)
Definition store_products : store :=
  table_set T_silver_sales
    (Some [silver_row 2 "B" 1 5 "2024-02-15" "clear sky";
           silver_row 1 "A" 2 10 "2024-02-15" "clear sky";
           silver_row 3 "B" 3 5 "2024-04-02" "light rain";
           silver_row 1 "B" 5 5 "2024-03-01" "clear sky"])
    empty_store.

(** A reconciled row whose [order_date] is missing. *)
Definition undated_row (c : Z) (p : string) (q : Z) (pr : Q) (w : string)
  : sales :=
  mk_sales c p q (dec pr) None "Leanne Graham" "-37.3159" "81.1496" w
    280 279 80 3 0.

(** The rows of [store_ex_silver], and one order without a date. *)
Definition store_undated : store :=
  table_set T_silver_sales
    (Some [silver_row 1 "A" 2 10 "2024-02-15" "clear sky";
           undated_row 2 "B" 7 5 "clear sky";
           silver_row 3 "B" 3 5 "2024-04-02" "clear sky";
           silver_row 1 "A" 4 10 "2024-03-01" "clear sky"])
    empty_store.

(** Customer 2 has one order, whose price is missing. *)
Definition store_no_price : store :=
  table_set T_silver_sales
    (Some [silver_row 1 "A" 2 10 "2024-02-15" "clear sky";
           mk_sales 2 "B" 7 S754_nan (Some "2024-02-16") "Ervin Howell"
             "-43.9509" "-34.4618" "clear sky" 280 279 80 3 0;
           silver_row 3 "B" 3 5 "2024-04-02" "clear sky"])
    empty_store.

(** Two orders of product A whose quantities add up to 2^63. *)
Definition store_wrap : store :=
  table_set T_silver_sales
    (Some [silver_row 1 "A" 4611686018427387904 10 "2024-02-15" "clear sky";
           silver_row 2 "B" 1 5 "2024-02-15" "clear sky";
           silver_row 3 "A" 4611686018427387904 10 "2024-02-15" "clear sky"])
    empty_store.

(** Three orders of one product, with the quantities 1, 2 and 2. *)
Definition store_thirds : store :=
  table_set T_silver_sales
    (Some [silver_row 1 "A" 1 10 "2024-02-15" "clear sky";
           silver_row 2 "A" 2 10 "2024-02-15" "clear sky";
           silver_row 3 "A" 2 10 "2024-02-15" "clear sky"])
    empty_store.

(** A database whose reconciled table has no row. *)
Definition store_no_sales : store :=
  table_set T_silver_sales (Some []) empty_store.

(** A weather API that answers every lookup with status 200, but with an
    empty [weather] list at one location. *)
Definition src_no_entry : sources :=
  mk_sources
    (Ok [mk_customer 1 "Leanne Graham" "-37.3159" "81.1496";
         mk_customer 2 "Ervin Howell" "-43.9509" "-34.4618"])
    (fun lat _ =>
       if String.eqb lat "-43.9509"
       then mk_response 200 (mk_weather_json [] 280 279 80 3 0)
       else mk_response 200 body_ex)
    (Ok [mk_order 1 "A" 2 (dec 10) (Some "2024-02-15")]).

(** The database after the customer extraction on [src_ex]. *)
Definition store_ex_customers : store :=
  table_set T_bronze_customers
    (Some [mk_customer 1 "Leanne Graham" "-37.3159" "81.1496";
           mk_customer 2 "Ervin Howell" "-43.9509" "-34.4618";
           mk_customer 3 "Clementine Bauch" "-68.6102" "-47.0653"])
    empty_store.

(** The database after the customer extraction on [src_no_entry]. *)
Definition store_no_entry_customers : store :=
  table_set T_bronze_customers
    (Some [mk_customer 1 "Leanne Graham" "-37.3159" "81.1496";
           mk_customer 2 "Ervin Howell" "-43.9509" "-34.4618"])
    empty_store.

(* ================================================================== *)
(** * Properties *)

(** ** The result monad and the storage helpers *)

(** The column names of the flattened user objects and weather responses. *)
Lemma replace_dot_columns :
  map replace_dot ["id"; "address.geo.lat"; "weather.description"; "main.temp"]
  = ["id"; "address_geo_lat"; "weather_description"; "main_temp"].
Proof. reflexivity. Qed.

Lemma bind_Ok {A B : Type} (m : result A) (k : A -> result B) (b : B) :
  bind m k = Ok b -> exists a, m = Ok a /\ k a = Ok b.
Proof.
  destruct m as [a | e]; simpl; intros H.
  - exists a; split; [reflexivity | exact H].
  - discriminate H.
Qed.

Lemma load_from_db_Some {A : Type} (t : table A) (s : store) (rows : list A) :
  table_get t s = Some rows -> load_from_db t s = Ok rows.
Proof. unfold load_from_db; intros ->; reflexivity. Qed.

Lemma load_from_db_Ok {A : Type} (t : table A) (s : store) (rows : list A) :
  load_from_db t s = Ok rows -> table_get t s = Some rows.
Proof.
  unfold load_from_db; destruct (table_get t s); intros H;
    [injection H as -> | discriminate H]; reflexivity.
Qed.

(** A write with [if_exists='replace'] never looks at the table it replaces. *)
Lemma write_to_db_replace {A : Type} (rows : list A) (t : table A)
    (index : bool) (s : store) :
  write_to_db (Frame rows) t replace index s = Ok (table_set t (Some rows) s).
Proof. reflexivity. Qed.

(** ** The inner join *)

Lemma in_etl_sales_query orders customers weather r :
  In r (etl_sales_query orders customers weather) <->
  exists o c w,
    In o orders /\ In c customers /\ In w weather /\
    c_id c = o_customer_id o /\ w_customer_id w = o_customer_id o /\
    r = select_row o c w.
Proof.
  unfold etl_sales_query; rewrite in_flat_map; split.
  - intros (o & Ho & Hr).
    apply in_flat_map in Hr as (c & Hc & Hr).
    destruct (Z.eqb_spec (c_id c) (o_customer_id o)) as [Ec | Ec];
      [| contradiction Hr].
    apply in_flat_map in Hr as (w & Hw & Hr).
    destruct (Z.eqb_spec (w_customer_id w) (o_customer_id o)) as [Ew | Ew];
      [| contradiction Hr].
    destruct Hr as [<- | []].
    exists o, c, w; repeat split; assumption.
  - intros (o & c & w & Ho & Hc & Hw & Ec & Ew & ->).
    exists o; split; [exact Ho |].
    apply in_flat_map; exists c; split; [exact Hc |].
    rewrite Ec, Z.eqb_refl.
    apply in_flat_map; exists w; split; [exact Hw |].
    rewrite Ew, Z.eqb_refl; left; reflexivity.
Qed.

Lemma etl_sales_tables s orders customers weather :
  bronze_orders s = Some orders ->
  bronze_customers s = Some customers ->
  bronze_weather s = Some weather ->
  etl_sales s =
  Ok (table_set T_silver_sales
        (Some (etl_sales_query orders customers weather)) s).
Proof.
  intros Ho Hc Hw; unfold etl_sales.
  rewrite (load_from_db_Some T_bronze_orders s orders Ho).
  rewrite (load_from_db_Some T_bronze_customers s customers Hc).
  rewrite (load_from_db_Some T_bronze_weather s weather Hw).
  reflexivity.
Qed.

Lemma appears_etl_sales_query orders customers weather C :
  appears customer_id (etl_sales_query orders customers weather) C <->
  appears o_customer_id orders C /\ appears c_id customers C /\
  appears w_customer_id weather C.
Proof.
  unfold appears; split.
  - intros (r & Hr & <-).
    apply in_etl_sales_query in Hr as (o & c & w & Ho & Hc & Hw & Ec & Ew & ->).
    simpl; repeat split; eauto.
  - intros ((o & Ho & Eo) & (c & Hc & Ec) & (w & Hw & Ew)).
    exists (select_row o c w); split; [| exact Eo].
    apply in_etl_sales_query; exists o, c, w.
    repeat split; try assumption; congruence.
Qed.

(** C1, as the code has it: [etl_sales] succeeds on any three bronze tables
    and writes their inner join, orders first.  A row is in [silver_sales]
    exactly when it is projected from an order, a customer row and a weather
    row with the order's customer id; so a customer appears in [silver_sales]
    iff it has a row in [bronze_orders], in [bronze_customers] and in
    [bronze_weather], and an order whose customer is missing from either of
    the two other tables leaves no row, without any error. *)
Theorem etl_sales_inner_join :
  forall s orders customers weather,
    bronze_orders s = Some orders ->
    bronze_customers s = Some customers ->
    bronze_weather s = Some weather ->
    exists silver s',
      etl_sales s = Ok s' /\ silver_sales s' = Some silver /\
      (forall r, In r silver <->
         exists o c w,
           In o orders /\ In c customers /\ In w weather /\
           c_id c = o_customer_id o /\ w_customer_id w = o_customer_id o /\
           r = select_row o c w) /\
      (forall C, appears customer_id silver C <->
         appears o_customer_id orders C /\ appears c_id customers C /\
         appears w_customer_id weather C) /\
      (forall o, In o orders ->
         ~ (appears c_id customers (o_customer_id o) /\
            appears w_customer_id weather (o_customer_id o)) ->
         ~ appears customer_id silver (o_customer_id o)).
Proof.
  intros s orders customers weather Ho Hc Hw.
  exists (etl_sales_query orders customers weather).
  eexists; split; [apply etl_sales_tables; eassumption |].
  split; [reflexivity |].
  split; [intros r; apply in_etl_sales_query |].
  split; [intros C; apply appears_etl_sales_query |].
  intros o _ Hmiss Happ.
  apply appears_etl_sales_query in Happ as (_ & H1 & H2).
  apply Hmiss; split; assumption.
Qed.

Lemma etl_sales_inner_join_witness :
  exists silver s',
    etl_sales store_ex1 = Ok s' /\ silver_sales s' = Some silver /\
    (forall C, appears customer_id silver C <->
       appears o_customer_id
         [mk_order 1 "A" 2 (dec 10) (Some "2024-02-15");
          mk_order 2 "B" 1 (dec 5) (Some "2024-02-15");
          mk_order 1 "A" 4 (dec 10) (Some "2024-03-01")] C /\
       appears c_id
         [mk_customer 1 "Leanne Graham" "-37.3159" "81.1496";
          mk_customer 2 "Ervin Howell" "-43.9509" "-34.4618";
          mk_customer 3 "Clementine Bauch" "-68.6102" "-47.0653"] C /\
       appears w_customer_id
         [mk_weather_obs 1 "clear sky" 280 279 80 3 0;
          mk_weather_obs 3 "light rain" 285 284 90 5 75] C).
Proof.
  destruct (etl_sales_inner_join store_ex1 _ _ _ eq_refl eq_refl eq_refl)
    as (silver & s' & H1 & H2 & _ & H4 & _).
  exists silver, s'.
  split; [exact H1 | split; [exact H2 | exact H4]].
Defined.

(** C1, as the spec words it, fails: a customer with a customer record and a
    weather observation but no order has no row in [silver_sales]. *)
Lemma etl_sales_not_customers_and_weather_only :
  ~ (forall s s' silver customers weather,
       etl_sales s = Ok s' -> silver_sales s' = Some silver ->
       bronze_customers s = Some customers ->
       bronze_weather s = Some weather ->
       forall C, appears customer_id silver C <->
                 appears c_id customers C /\ appears w_customer_id weather C).
Proof.
  intros H.
  pose (s := table_set T_bronze_weather
               (Some [mk_weather_obs 1 "clear sky" 280 279 80 3 0])
               (table_set T_bronze_customers
                  (Some [mk_customer 1 "Leanne Graham" "-37.3159" "81.1496"])
                  (table_set T_bronze_orders (Some []) empty_store))).
  specialize (H s _ [] _ _ eq_refl eq_refl eq_refl eq_refl 1).
  destruct H as [_ H].
  destruct H as (r & [] & _).
  split; eexists; (split; [left; reflexivity | reflexivity]).
Qed.

(** ** Row identity of [silver_sales] *)

Lemma count_app {A : Type} (p : A -> bool) (l1 l2 : list A) :
  count p (l1 ++ l2) = (count p l1 + count p l2)%nat.
Proof. unfold count; rewrite filter_app, length_app; reflexivity. Qed.

Lemma length_flat_map_if {A B : Type} (p : A -> bool) (f : A -> list B)
    (n : nat) (l : list A) :
  (forall a, List.length (f a) = n) ->
  List.length (flat_map (fun a => if p a then f a else []) l)
  = Nat.mul (count p l) n.
Proof.
  intros Hf; unfold count; induction l as [| a l IH]; simpl; [reflexivity |].
  rewrite length_app, IH; destruct (p a); simpl; [rewrite Hf |]; lia.
Qed.

Lemma filter_all {A : Type} (p : A -> bool) (l : list A) :
  (forall a, In a l -> p a = true) -> filter p l = l.
Proof.
  induction l as [| a l IH]; simpl; intros H; [reflexivity |].
  rewrite (H a (or_introl eq_refl)), IH; [reflexivity |].
  intros b Hb; apply H; right; exact Hb.
Qed.

Lemma filter_none {A : Type} (p : A -> bool) (l : list A) :
  (forall a, In a l -> p a = false) -> filter p l = [].
Proof.
  induction l as [| a l IH]; simpl; intros H; [reflexivity |].
  rewrite (H a (or_introl eq_refl)); apply IH.
  intros b Hb; apply H; right; exact Hb.
Qed.

(** The silver rows that one order contributes. *)
Definition order_rows (customers : list customer) (weather : list weather_obs)
    (o : order) : list sales :=
  etl_sales_query [o] customers weather.

Lemma order_rows_key customers weather o r :
  In r (order_rows customers weather o) -> sales_key r = order_key o.
Proof.
  intros H; apply in_etl_sales_query in H
    as (o' & c & w & [<- | []] & _ & _ & _ & _ & ->).
  reflexivity.
Qed.

Lemma length_order_rows customers weather o :
  List.length (order_rows customers weather o)
  = Nat.mul (count (fun c => c_id c =? o_customer_id o) customers)
      (count (fun w => w_customer_id w =? o_customer_id o) weather).
Proof.
  unfold order_rows, etl_sales_query; simpl; rewrite app_nil_r.
  apply length_flat_map_if; intros c.
  rewrite (length_flat_map_if _ (fun w => [select_row o c w]) 1%nat);
    [lia | reflexivity].
Qed.

Lemma etl_sales_query_cons o orders customers weather :
  etl_sales_query (o :: orders) customers weather
  = order_rows customers weather o ++ etl_sales_query orders customers weather.
Proof.
  unfold order_rows, etl_sales_query; simpl; rewrite app_nil_r; reflexivity.
Qed.

Lemma key_eqb_eq a b : key_eqb a b = true <-> a = b.
Proof.
  destruct a as [a1 a2], b as [b1 b2]; unfold key_eqb; simpl.
  rewrite andb_true_iff, Z.eqb_eq, String.eqb_eq.
  split; [intros [-> ->]; reflexivity | intros H; injection H; auto].
Qed.

Lemma count_etl_sales_query orders customers weather k :
  count (fun r => key_eqb (sales_key r) k)
    (etl_sales_query orders customers weather)
  = Nat.mul
      (count (fun o => key_eqb (order_key o) k) orders)
      (Nat.mul (count (fun c => c_id c =? fst k) customers)
         (count (fun w => w_customer_id w =? fst k) weather)).
Proof.
  induction orders as [| o orders IH]; [reflexivity |].
  rewrite etl_sales_query_cons, count_app, IH.
  unfold count; simpl (filter _ (o :: orders)).
  destruct (key_eqb (order_key o) k) eqn:E.
  - apply key_eqb_eq in E; subst k.
    rewrite filter_all.
    + rewrite length_order_rows; unfold count; simpl; lia.
    + intros r Hr; apply key_eqb_eq; eapply order_rows_key; exact Hr.
  - rewrite filter_none; [reflexivity |].
    intros r Hr; rewrite (order_rows_key _ _ _ _ Hr); exact E.
Qed.

(** C9, as the code has it: [set_index] makes [(customer_id, product_id)]
    the index of the frame without asking for unique values, and the index
    is written out as two ordinary columns.  [silver_sales] has one row for
    every order row combined with every customer row and every weather row
    of the order's customer id: the number of its rows that carry a pair
    [(customer_id, product_id)] is the number of order rows with that pair,
    times the number of customer rows, times the number of weather rows of
    that customer id. *)
Theorem etl_sales_key_multiplicity :
  forall s orders customers weather,
    bronze_orders s = Some orders ->
    bronze_customers s = Some customers ->
    bronze_weather s = Some weather ->
    exists silver s',
      etl_sales s = Ok s' /\ silver_sales s' = Some silver /\
      forall k,
        count (fun r => key_eqb (sales_key r) k) silver
        = Nat.mul
            (count (fun o => key_eqb (order_key o) k) orders)
            (Nat.mul (count (fun c => c_id c =? fst k) customers)
               (count (fun w => w_customer_id w =? fst k) weather)).
Proof.
  intros s orders customers weather Ho Hc Hw.
  exists (etl_sales_query orders customers weather).
  eexists; split; [apply etl_sales_tables; eassumption |].
  split; [reflexivity |].
  intros k; apply count_etl_sales_query.
Qed.

Lemma etl_sales_key_multiplicity_witness :
  exists silver s',
    etl_sales store_ex1 = Ok s' /\ silver_sales s' = Some silver /\
    count (fun r => key_eqb (sales_key r) (1, "A")) silver = 2%nat.
Proof.
  destruct (etl_sales_key_multiplicity store_ex1 _ _ _ eq_refl eq_refl eq_refl)
    as (silver & s' & H1 & H2 & H3).
  exists silver, s'.
  split; [exact H1 | split; [exact H2 |]].
  rewrite H3; reflexivity.
Defined.

(** C9, as the spec words it, fails: two order rows with the same customer
    and product give two rows of [silver_sales] with the same pair. *)
Lemma etl_sales_key_not_unique :
  ~ (forall s s' silver,
       etl_sales s = Ok s' -> silver_sales s' = Some silver ->
       NoDup (map sales_key silver)).
Proof.
  intros H.
  specialize (H store_ex1 _ _ eq_refl eq_refl).
  vm_compute in H.
  inversion H as [| k l Hnotin _]; subst.
  apply Hnotin; left; reflexivity.
Qed.

(** ** The weather extractor *)

Lemma filter_None_get_weather src customers :
  filter_None
    (map (fun row => get_weather src (c_id row) (c_address_geo_lat row)
                       (c_address_geo_lng row)) customers)
  = map (fun c => (c_id c,
                   json (weather_api src (c_address_geo_lat c)
                           (c_address_geo_lng c))))
      (filter (lookup_ok src) customers).
Proof.
  induction customers as [| c l IH]; simpl; [reflexivity |].
  unfold get_weather at 1, lookup_ok at 1.
  destruct (status_code _ =? 200); simpl; rewrite IH; reflexivity.
Qed.

Lemma mapM_unwrap_weather ds :
  Forall (fun d => weather (snd d) <> []) ds ->
  exists rows, mapM unwrap_weather ds = Ok rows /\
               map w_customer_id rows = map fst ds.
Proof.
  induction 1 as [| d ds Hd _ (rows & E & Hrows)]; simpl.
  - exists []; split; reflexivity.
  - unfold unwrap_weather at 1.
    destruct (weather (snd d)) as [| w ws]; [contradiction Hd; reflexivity |].
    simpl; rewrite E; simpl.
    eexists; split; [reflexivity |].
    simpl; rewrite Hrows; reflexivity.
Qed.

(** The part of C3 that the code keeps: when at least one lookup succeeds
    (and every successful body has its weather entry), the task succeeds and
    [bronze_weather] holds one row for each customer row whose lookup
    succeeded, tagged with that customer's id, in the order of
    [bronze_customers]; the other customers have no row. *)
Lemma fetch_weather_drops_failed_lookups src s customers :
  bronze_customers s = Some customers ->
  filter (lookup_ok src) customers <> [] ->
  (forall c, In c customers -> lookup_ok src c = true ->
     weather (json (weather_api src (c_address_geo_lat c)
                      (c_address_geo_lng c))) <> []) ->
  exists rows s',
    fetch_weather src s = Ok s' /\ bronze_weather s' = Some rows /\
    map w_customer_id rows = map c_id (filter (lookup_ok src) customers).
Proof.
  intros Hc Hne Hbody; unfold fetch_weather.
  rewrite (load_from_db_Some T_bronze_customers s customers Hc); simpl.
  unfold weather_list1; rewrite filter_None_get_weather.
  destruct (mapM_unwrap_weather
              (map (fun c => (c_id c,
                      json (weather_api src (c_address_geo_lat c)
                              (c_address_geo_lng c))))
                 (filter (lookup_ok src) customers))) as (rows & E & Hrows).
  { apply Forall_forall; intros d Hd.
    apply in_map_iff in Hd as (c & <- & Hin).
    apply filter_In in Hin as [Hin Hok]; simpl; apply Hbody; assumption. }
  rewrite E; simpl.
  rewrite map_map in Hrows; simpl in Hrows.
  destruct rows as [| r rows].
  - destruct (filter (lookup_ok src) customers); [contradiction Hne; reflexivity |].
    discriminate Hrows.
  - simpl; eexists; eexists; split; [reflexivity |].
    split; [reflexivity | exact Hrows].
Qed.

(** C3 at the input where it breaks: when no lookup answers with status 200
    the list of records is empty, [json_normalize] returns a frame without
    columns, and [set_index(["customer_id"])] raises [KeyError]: the task
    fails and [bronze_weather] is not written. *)
Theorem fetch_weather_all_lookups_fail :
  forall src s customers,
    bronze_customers s = Some customers ->
    (forall c, In c customers -> lookup_ok src c = false) ->
    fetch_weather src s = Err (KeyError ["customer_id"]).
Proof.
  intros src s customers Hc Hfail; unfold fetch_weather.
  rewrite (load_from_db_Some T_bronze_customers s customers Hc); simpl.
  unfold weather_list1; rewrite filter_None_get_weather.
  rewrite (filter_none _ _ Hfail); reflexivity.
Qed.

Lemma fetch_weather_all_lookups_fail_witness :
  exists s,
    fetch_transform_write src_unauthorized empty_store = Ok s /\
    fetch_weather src_unauthorized s = Err (KeyError ["customer_id"]).
Proof.
  eexists; split; [reflexivity |].
  apply (fetch_weather_all_lookups_fail src_unauthorized _
           [mk_customer 1 "Leanne Graham" "-37.3159" "81.1496"]).
  - reflexivity.
  - intros c [<- | []]; reflexivity.
Defined.

(** ** Grouping *)

Section GroupByFacts.
Context {A K : Type}.
Variable eqb : K -> K -> bool.
Variable leb : K -> K -> bool.
Hypothesis eqb_eq : forall a b, eqb a b = true <-> a = b.

Lemma insert_key_perm k l : Permutation (insert_key leb k l) (k :: l).
Proof.
  induction l as [| h t IH]; simpl; [reflexivity |].
  destruct (leb k h); [reflexivity |].
  rewrite IH; apply perm_swap.
Qed.

Lemma sort_keys_perm l : Permutation (sort_keys leb l) l.
Proof.
  induction l as [| h t IH]; simpl; [reflexivity |].
  rewrite insert_key_perm, IH; reflexivity.
Qed.

Lemma existsb_eqb k l : existsb (eqb k) l = true <-> In k l.
Proof.
  rewrite existsb_exists; split.
  - intros (x & Hx & E); apply eqb_eq in E; subst; exact Hx.
  - intros H; exists k; split; [exact H | apply eqb_eq; reflexivity].
Qed.

Lemma in_unique k l : In k (unique eqb l) <-> In k l.
Proof.
  induction l as [| h t IH]; simpl; [reflexivity |].
  destruct (existsb (eqb h) t) eqn:E.
  - rewrite IH; split; [auto |].
    intros [<- | H]; [apply existsb_eqb; exact E | exact H].
  - simpl; rewrite IH; reflexivity.
Qed.

Lemma NoDup_unique l : NoDup (unique eqb l).
Proof.
  induction l as [| h t IH]; simpl; [constructor |].
  destruct (existsb (eqb h) t) eqn:E; [exact IH |].
  constructor; [| exact IH].
  rewrite in_unique; intros H; apply existsb_eqb in H; congruence.
Qed.

Variable key : A -> K.

Lemma in_group_keys rows k :
  In k (group_keys eqb leb key rows) <-> appears key rows k.
Proof.
  unfold group_keys, appears; split.
  - intros H; apply (Permutation_in _ (sort_keys_perm _)) in H.
    apply in_unique, in_map_iff in H as (r & E & Hr); eauto.
  - intros (r & Hr & E).
    apply (Permutation_in _ (Permutation_sym (sort_keys_perm _))).
    apply in_unique, in_map_iff; eauto.
Qed.

Lemma NoDup_group_keys rows : NoDup (group_keys eqb leb key rows).
Proof.
  unfold group_keys.
  eapply Permutation_NoDup;
    [symmetry; apply sort_keys_perm | apply NoDup_unique].
Qed.

Lemma map_fst_groupby_agg {B : Type} (agg : list A -> B) rows :
  map fst (groupby_agg eqb leb key agg rows) = group_keys eqb leb key rows.
Proof. unfold groupby_agg; rewrite map_map; apply map_id. Qed.

(** One output row per key that occurs, holding the aggregate of the rows
    with that key. *)
Lemma in_groupby_agg {B : Type} (agg : list A -> B) rows k b :
  In (k, b) (groupby_agg eqb leb key agg rows) <->
  appears key rows k /\ b = agg (group_rows eqb key rows k).
Proof.
  unfold groupby_agg; rewrite in_map_iff; split.
  - intros (k' & E & Hk); injection E as -> ->.
    split; [apply in_group_keys; exact Hk | reflexivity].
  - intros (Hk & ->); exists k; split;
      [reflexivity | apply in_group_keys; exact Hk].
Qed.

Lemma NoDup_groupby_agg {B : Type} (agg : list A -> B) rows :
  NoDup (map fst (groupby_agg eqb leb key agg rows)).
Proof. rewrite map_fst_groupby_agg; apply NoDup_group_keys. Qed.
End GroupByFacts.

(** ** Sums and means *)

Lemma wrap64_range z : int64_range (wrap64 z).
Proof.
  unfold int64_range, wrap64.
  pose proof (Z.mod_pos_bound (z + 2 ^ 63) (2 ^ 64) ltac:(lia)); lia.
Qed.

Lemma wrap64_small z : int64_range z -> wrap64 z = z.
Proof.
  unfold int64_range, wrap64; intros H.
  rewrite Z.mod_small; lia.
Qed.

Lemma wrap64_add_l a b : wrap64 (wrap64 a + b) = wrap64 (a + b).
Proof.
  unfold wrap64; f_equal.
  replace ((a + 2 ^ 63) mod 2 ^ 64 - 2 ^ 63 + b + 2 ^ 63)
    with ((a + 2 ^ 63) mod 2 ^ 64 + b) by lia.
  rewrite Zplus_mod_idemp_l; f_equal; lia.
Qed.

Lemma wrap64_add_r a b : wrap64 (a + wrap64 b) = wrap64 (a + b).
Proof. rewrite (Z.add_comm a), wrap64_add_l; f_equal; lia. Qed.

Lemma wrap64_idem z : wrap64 (wrap64 z) = wrap64 z.
Proof. apply wrap64_small, wrap64_range. Qed.

Lemma exact_sum_cons x l : exact_sum (x :: l) = x + exact_sum l.
Proof. reflexivity. Qed.

Lemma exact_sum_app l1 l2 : exact_sum (l1 ++ l2) = exact_sum l1 + exact_sum l2.
Proof. induction l1 as [| x l1 IH]; simpl; [reflexivity | rewrite IH; lia]. Qed.

Lemma exact_sum_perm l1 l2 : Permutation l1 l2 -> exact_sum l1 = exact_sum l2.
Proof. induction 1; simpl; lia. Qed.

Lemma fold_left_wrap64 l a :
  fold_left (fun sumx val => wrap64 (sumx + val)) l (wrap64 a)
  = wrap64 (a + exact_sum l).
Proof.
  revert a; induction l as [| x l IH]; intros a; simpl.
  - f_equal; lia.
  - rewrite wrap64_add_l, IH; f_equal; lia.
Qed.

(** The running sum on 64 bits is the sum of the integers, wrapped once. *)
Lemma sum_int64_wraps l : sum_int64 l = wrap64 (exact_sum l).
Proof.
  unfold sum_int64.
  change 0 with (wrap64 0) at 1; rewrite fold_left_wrap64; reflexivity.
Qed.

Lemma sum_int64_exact l :
  int64_range (exact_sum l) -> sum_int64 l = exact_sum l.
Proof. intros H; rewrite sum_int64_wraps; apply wrap64_small; exact H. Qed.

(** The sum of values that were wrapped is, once wrapped, the sum of the
    values. *)
Lemma wrap64_exact_sum_map {A : Type} (f : A -> Z) l :
  wrap64 (exact_sum (map (fun a => wrap64 (f a)) l))
  = wrap64 (exact_sum (map f l)).
Proof.
  induction l as [| a l IH]; simpl; [reflexivity |].
  rewrite wrap64_add_l, <- wrap64_add_r, IH, wrap64_add_r; reflexivity.
Qed.

Lemma float64_sub_zero x : float64_sub x zero64 = x.
Proof. destruct x as [[] | [] | | s m e]; reflexivity. Qed.

Lemma float64_sub_diag s m e :
  float64_sub (S754_finite s m e) (S754_finite s m e) = zero64.
Proof. unfold float64_sub, SFsub; rewrite Z.sub_diag; reflexivity. Qed.

(** The first value of a group enters the running sum as it is (a negative
    zero as zero), and leaves no compensation. *)
Lemma kahan_step_first val :
  isnan val = false ->
  kahan_step (zero64, zero64) val = (float64_add zero64 val, zero64).
Proof.
  intros H; unfold kahan_step; cbn [fst snd].
  rewrite float64_sub_zero.
  destruct val as [[] | [] | | s m e]; try reflexivity; try discriminate H.
  change (float64_add zero64 (S754_finite s m e)) with (S754_finite s m e).
  rewrite float64_sub_zero, float64_sub_diag; reflexivity.
Qed.

Lemma kahan_step_uncompensated sumx val :
  fst (kahan_step (sumx, zero64) val) = float64_add sumx val.
Proof.
  unfold kahan_step; cbn [fst snd]; rewrite float64_sub_zero; reflexivity.
Qed.

Lemma notna_one val : isnan val = false -> notna [val] = [val].
Proof. intros H; unfold notna; simpl; rewrite H; reflexivity. Qed.

Lemma notna_two v1 v2 :
  isnan v1 = false -> isnan v2 = false -> notna [v1; v2] = [v1; v2].
Proof. intros H1 H2; unfold notna; simpl; rewrite H1, H2; reflexivity. Qed.

Lemma sum_float64_one val :
  isnan val = false -> sum_float64 [val] = float64_add zero64 val.
Proof.
  intros H; unfold sum_float64; rewrite (notna_one val H).
  cbn [fold_left]; rewrite (kahan_step_first val H); reflexivity.
Qed.

Lemma sum_float64_two v1 v2 :
  isnan v1 = false -> isnan v2 = false ->
  sum_float64 [v1; v2] = float64_add (float64_add zero64 v1) v2.
Proof.
  intros H1 H2; unfold sum_float64; rewrite (notna_two v1 v2 H1 H2).
  cbn [fold_left]; rewrite (kahan_step_first v1 H1).
  apply kahan_step_uncompensated.
Qed.

Lemma mean_float64_one val :
  isnan val = false ->
  mean_float64 [val] = float64_div (float64_add zero64 val) (dec 1).
Proof.
  intros H; unfold mean_float64; rewrite (notna_one val H).
  cbn [fold_left]; rewrite (kahan_step_first val H); reflexivity.
Qed.

Lemma mean_float64_two v1 v2 :
  isnan v1 = false -> isnan v2 = false ->
  mean_float64 [v1; v2]
  = float64_div (float64_add (float64_add zero64 v1) v2) (dec 2).
Proof.
  intros H1 H2; unfold mean_float64; rewrite (notna_two v1 v2 H1 H2).
  cbn [fold_left]; rewrite (kahan_step_first v1 H1).
  rewrite kahan_step_uncompensated; reflexivity.
Qed.

(** A missing value does not count. *)
Lemma sum_float64_missing val l :
  isnan val = true -> sum_float64 (val :: l) = sum_float64 l.
Proof.
  intros H; unfold sum_float64, notna; simpl; rewrite H; reflexivity.
Qed.

Lemma mean_float64_missing val l :
  isnan val = true -> mean_float64 (val :: l) = mean_float64 l.
Proof.
  intros H; unfold mean_float64, notna; simpl; rewrite H; reflexivity.
Qed.

Lemma notna_all_missing l :
  (forall val, In val l -> isnan val = true) -> notna l = [].
Proof.
  induction l as [| val l IH]; intros H; [reflexivity |].
  unfold notna; simpl; rewrite (H val (or_introl eq_refl)); simpl.
  apply IH; intros x Hx; apply H; right; exact Hx.
Qed.

(** The rows whose value is missing can be left out before the loop. *)
Lemma notna_filter {A : Type} (f : A -> float64) (p : A -> bool) l :
  notna (map f (filter p l))
  = notna (map f (filter (fun a => p a && negb (isnan (f a))) l)).
Proof.
  unfold notna; induction l as [| a l IH]; simpl; [reflexivity |].
  destruct (p a); simpl; [| exact IH].
  destruct (isnan (f a)) eqn:E; simpl;
    [exact IH | rewrite E; simpl; rewrite IH; reflexivity].
Qed.

(** A group without any value sums to 0 and has no mean. *)
Lemma sum_float64_all_missing l :
  (forall val, In val l -> isnan val = true) -> sum_float64 l = zero64.
Proof.
  intros H; unfold sum_float64; rewrite (notna_all_missing l H); reflexivity.
Qed.

Lemma mean_float64_all_missing l :
  (forall val, In val l -> isnan val = true) -> mean_float64 l = S754_nan.
Proof.
  intros H; unfold mean_float64; rewrite (notna_all_missing l H); reflexivity.
Qed.

(** The decimal numbers of the examples, bit for bit. *)
Lemma dec_values :
  dec 25 = S754_finite false 7036874417766400 (-48) /\
  dec 75 = S754_finite false 5277655813324800 (-46) /\
  dec 100 = S754_finite false 7036874417766400 (-46) /\
  dec 50 = S754_finite false 7036874417766400 (-47) /\
  dec 0.1 = S754_finite false 7205759403792794 (-56) /\
  dec 0.6 = S754_finite false 5404319552844595 (-53).
Proof. repeat split; vm_compute; reflexivity. Qed.

(** ** Total sales per customer *)

(** C4: [process_total_sales] succeeds on any [silver_sales] and writes to
    [gold_total_sales_by_customer] one row per customer id of
    [silver_sales], holding the sum of [quantity * price] over the rows of
    that customer, as [float64] numbers: for a customer with one row the
    total is the product of that row, for a customer with two rows it is the
    rounded sum of the two products, rows whose product is missing do not
    count (a customer without any product has the total 0), and the sum of
    more rows is compensated (0.1, 0.2 and 0.3 sum to 0.6).  On the two
    rows (customer 1, product A, quantity 2, price 10) and (customer 1,
    product B, quantity 1, price 5) the table is the single row of
    customer 1 with total 25. *)
Theorem process_total_sales_sum :
  forall s silver,
    silver_sales s = Some silver ->
    exists out s',
      process_total_sales s = Ok s' /\
      gold_total_sales_by_customer s' = Some out /\
      NoDup (map fst out) /\
      (forall c t, In (c, t) out <->
         appears customer_id silver c /\
         t = sum_float64 (map quantity_times_price
                            (filter (fun r => customer_id r =? c) silver))) /\
      (forall c t r,
         In (c, t) out ->
         filter (fun r => customer_id r =? c) silver = [r] ->
         isnan (quantity_times_price r) = false ->
         t = float64_add zero64 (quantity_times_price r)) /\
      (forall c t r1 r2,
         In (c, t) out ->
         filter (fun r => customer_id r =? c) silver = [r1; r2] ->
         isnan (quantity_times_price r1) = false ->
         isnan (quantity_times_price r2) = false ->
         t = float64_add (float64_add zero64 (quantity_times_price r1))
               (quantity_times_price r2)) /\
      (forall c t,
         In (c, t) out ->
         t = sum_float64
               (map quantity_times_price
                  (filter (fun r => (customer_id r =? c)
                                    && negb (isnan (quantity_times_price r)))
                     silver))) /\
      (forall c t,
         In (c, t) out ->
         (forall r, In r silver -> customer_id r = c ->
                    isnan (quantity_times_price r) = true) ->
         t = zero64) /\
      (forall r1 r2,
         silver = [r1; r2] ->
         customer_id r1 = 1 -> product_id r1 = "A" ->
         quantity r1 = 2 -> price r1 = dec 10 ->
         customer_id r2 = 1 -> product_id r2 = "B" ->
         quantity r2 = 1 -> price r2 = dec 5 ->
         out = [(1, dec 25)]) /\
      (forall c r1 r2 r3,
         silver = [r1; r2; r3] ->
         customer_id r1 = c -> customer_id r2 = c -> customer_id r3 = c ->
         quantity r1 = 1 -> quantity r2 = 1 -> quantity r3 = 1 ->
         price r1 = dec 0.1 -> price r2 = dec 0.2 -> price r3 = dec 0.3 ->
         out = [(c, dec 0.6)]).
Proof.
  intros s silver Hs; unfold process_total_sales.
  rewrite (load_from_db_Some T_silver_sales s silver Hs); simpl.
  eexists; eexists; split; [reflexivity |].
  split; [reflexivity |].
  split; [apply NoDup_groupby_agg; apply Z.eqb_eq |].
  pose proof (in_groupby_agg Z.eqb Z.leb Z.eqb_eq customer_id
                (fun g => sum_float64 (map total_sales g)) silver) as Hin.
  split; [exact Hin |].
  split; [| split; [| split; [| split; [| split]]]].
  - intros c t r Ht Hg Hr.
    apply Hin in Ht as [_ ->]; unfold group_rows; rewrite Hg.
    apply sum_float64_one; exact Hr.
  - intros c t r1 r2 Ht Hg H1 H2.
    apply Hin in Ht as [_ ->]; unfold group_rows; rewrite Hg.
    apply sum_float64_two; assumption.
  - intros c t Ht.
    apply Hin in Ht as [_ ->]; unfold group_rows.
    unfold sum_float64; f_equal; f_equal.
    apply (notna_filter quantity_times_price).
  - intros c t Ht Hnan.
    apply Hin in Ht as [_ ->].
    apply sum_float64_all_missing.
    intros val Hval; apply in_map_iff in Hval as (r & <- & Hr).
    apply filter_In in Hr as [Hr E]; apply Z.eqb_eq in E.
    apply (Hnan r Hr E).
  - intros r1 r2 -> Hc1 _ Hq1 Hp1 Hc2 _ Hq2 Hp2.
    unfold groupby_agg, group_keys, group_rows; simpl.
    rewrite Hc1, Hc2; simpl.
    unfold total_sales; rewrite Hq1, Hq2, Hp1, Hp2.
    vm_compute; reflexivity.
  - intros c r1 r2 r3 -> Hc1 Hc2 Hc3 Hq1 Hq2 Hq3 Hp1 Hp2 Hp3.
    unfold groupby_agg, group_keys, group_rows; simpl.
    rewrite Hc1, Hc2, Hc3, !Z.eqb_refl; simpl.
    rewrite !Z.eqb_refl; simpl.
    unfold total_sales; rewrite Hq1, Hq2, Hq3, Hp1, Hp2, Hp3.
    f_equal; f_equal; vm_compute; reflexivity.
Qed.

Lemma process_total_sales_sum_witness :
  exists s',
    process_total_sales store_total_sales = Ok s' /\
    gold_total_sales_by_customer s'
    = Some [(1, S754_finite false 7036874417766400 (-48))].
Proof.
  destruct (process_total_sales_sum store_total_sales _ eq_refl)
    as (out & s' & H1 & H2 & _ & _ & _ & _ & _ & _ & H5 & _).
  exists s'; split; [exact H1 |].
  rewrite H2; f_equal.
  apply (H5 _ _ eq_refl); reflexivity.
Defined.

(** ** Average sales per weather condition *)

(** C7: [process_sales_per_weather_condition] succeeds on any
    [silver_sales] and writes to [gold_sales_per_weather_condition] one row
    per weather description of [silver_sales], holding the mean of
    [quantity * price] over the rows with that description, as a [float64]
    number: the product of the row for a description with one row, the
    rounded half of the rounded sum of the two products for a description
    with two rows; rows whose product is missing count neither in the sum
    nor in the number of rows (a description without any product has [NaN]),
    and the sum of more rows is compensated (0.1, 0.2 and 0.3 have the mean
    0.6 / 3).  When exactly two rows are under "clear sky", with sales of
    100 and 50, the table holds the mean 75 for "clear sky". *)
Theorem process_sales_per_weather_condition_mean :
  forall s silver,
    silver_sales s = Some silver ->
    exists out s',
      process_sales_per_weather_condition s = Ok s' /\
      gold_sales_per_weather_condition s' = Some out /\
      NoDup (map fst out) /\
      (forall d m, In (d, m) out <->
         appears weather_description silver d /\
         m = mean_float64
               (map quantity_times_price
                  (filter (fun r => String.eqb (weather_description r) d)
                     silver))) /\
      (forall d m r,
         In (d, m) out ->
         filter (fun r => String.eqb (weather_description r) d) silver = [r] ->
         isnan (quantity_times_price r) = false ->
         m = float64_div (float64_add zero64 (quantity_times_price r))
               (dec 1)) /\
      (forall d m r1 r2,
         In (d, m) out ->
         filter (fun r => String.eqb (weather_description r) d) silver
         = [r1; r2] ->
         isnan (quantity_times_price r1) = false ->
         isnan (quantity_times_price r2) = false ->
         m = float64_div
               (float64_add (float64_add zero64 (quantity_times_price r1))
                  (quantity_times_price r2))
               (dec 2)) /\
      (forall d m r1 r2,
         In (d, m) out ->
         filter (fun r => String.eqb (weather_description r) d) silver
         = [r1; r2] ->
         isnan (quantity_times_price r1) = true ->
         isnan (quantity_times_price r2) = false ->
         m = float64_div (float64_add zero64 (quantity_times_price r2))
               (dec 1)) /\
      (forall d m,
         In (d, m) out ->
         (forall r, In r silver -> weather_description r = d ->
                    isnan (quantity_times_price r) = true) ->
         m = S754_nan) /\
      (forall r1 r2,
         filter (fun r => String.eqb (weather_description r) "clear sky") silver
         = [r1; r2] ->
         quantity_times_price r1 = dec 100 ->
         quantity_times_price r2 = dec 50 ->
         In ("clear sky", dec 75) out /\
         forall m, In ("clear sky", m) out -> m = dec 75) /\
      (forall d r1 r2 r3,
         filter (fun r => String.eqb (weather_description r) d) silver
         = [r1; r2; r3] ->
         quantity_times_price r1 = dec 0.1 ->
         quantity_times_price r2 = dec 0.2 ->
         quantity_times_price r3 = dec 0.3 ->
         In (d, float64_div (dec 0.6) (dec 3)) out).
Proof.
  intros s silver Hs; unfold process_sales_per_weather_condition.
  rewrite (load_from_db_Some T_silver_sales s silver Hs); simpl.
  eexists; eexists; split; [reflexivity |].
  split; [reflexivity |].
  split; [apply NoDup_groupby_agg; apply String.eqb_eq |].
  pose proof (in_groupby_agg String.eqb String.leb String.eqb_eq
                weather_description
                (fun g => mean_float64 (map total_sales g)) silver) as Hin.
  assert (Hfirst : forall d r l,
            filter (fun r => String.eqb (weather_description r) d) silver
            = r :: l ->
            appears weather_description silver d).
  { intros d r l Hf.
    assert (Hr : In r (filter (fun r => String.eqb (weather_description r) d)
                         silver)) by (rewrite Hf; left; reflexivity).
    apply filter_In in Hr as [Hr E]; apply String.eqb_eq in E.
    exists r; split; assumption. }
  split; [exact Hin |].
  split; [| split; [| split; [| split; [| split]]]].
  - intros d m r Hm Hg Hr.
    apply Hin in Hm as [_ ->]; unfold group_rows; rewrite Hg.
    apply mean_float64_one; exact Hr.
  - intros d m r1 r2 Hm Hg H1 H2.
    apply Hin in Hm as [_ ->]; unfold group_rows; rewrite Hg.
    apply mean_float64_two; assumption.
  - intros d m r1 r2 Hm Hg H1 H2.
    apply Hin in Hm as [_ ->]; unfold group_rows; rewrite Hg; cbn [map].
    rewrite (mean_float64_missing (total_sales r1) _ H1).
    apply mean_float64_one; exact H2.
  - intros d m Hm Hnan.
    apply Hin in Hm as [_ ->].
    apply mean_float64_all_missing.
    intros val Hval; apply in_map_iff in Hval as (r & <- & Hr).
    apply filter_In in Hr as [Hr E]; apply String.eqb_eq in E.
    apply (Hnan r Hr E).
  - intros r1 r2 Hf H1 H2.
    assert (E : mean_float64
                  (map total_sales
                     (group_rows String.eqb weather_description silver
                        "clear sky")) = dec 75).
    { unfold group_rows; rewrite Hf; cbn [map].
      change (total_sales r1) with (quantity_times_price r1).
      change (total_sales r2) with (quantity_times_price r2).
      rewrite H1, H2; vm_compute; reflexivity. }
    split.
    + apply Hin; split; [| symmetry; exact E].
      apply (Hfirst _ _ _ Hf).
    + intros m Hm; apply Hin in Hm as [_ ->]; exact E.
  - intros d r1 r2 r3 Hf H1 H2 H3.
    apply Hin; split; [apply (Hfirst _ _ _ Hf) |].
    unfold group_rows; rewrite Hf; cbn [map].
    change (total_sales r1) with (quantity_times_price r1).
    change (total_sales r2) with (quantity_times_price r2).
    change (total_sales r3) with (quantity_times_price r3).
    rewrite H1, H2, H3; vm_compute; reflexivity.
Qed.

Lemma process_sales_per_weather_condition_mean_witness :
  exists s',
    process_sales_per_weather_condition store_weather = Ok s' /\
    gold_sales_per_weather_condition s'
    = Some [("clear sky", S754_finite false 5277655813324800 (-46));
            ("light rain", S754_finite false 5910974510923776 (-48))].
Proof.
  destruct (process_sales_per_weather_condition_mean store_weather _ eq_refl)
    as (out & s' & H1 & H2 & _ & _ & _ & _ & _ & _ & H5 & _).
  destruct (H5 (silver_row 1 "A" 10 10 "2024-02-15" "clear sky")
               (silver_row 3 "B" 10 5 "2024-02-15" "clear sky") eq_refl)
    as [_ _]; [vm_compute; reflexivity | vm_compute; reflexivity |].
  exists s'; split; [exact H1 |].
  vm_compute in H1; injection H1 as <-; vm_compute; reflexivity.
Defined.

(** ** An implementation of the pandas interface *)

Section InsertionSort.
Context {A : Type}.
Variable by_ : A -> Z.
Variable le : A -> A -> bool.

Lemma insert_by_perm x l : Permutation (insert_by le x l) (x :: l).
Proof.
  induction l as [| h t IH]; simpl; [reflexivity |].
  destruct (le x h); [reflexivity |].
  rewrite IH; apply perm_swap.
Qed.

Lemma isort_perm l : Permutation l (isort le l).
Proof.
  induction l as [| h t IH]; simpl; [reflexivity |].
  rewrite insert_by_perm; constructor; exact IH.
Qed.

Variable R : A -> A -> Prop.
Hypothesis le_R : forall x y, le x y = true -> R x y.
Hypothesis le_total : forall x y, le x y = false -> R y x.
Hypothesis R_trans : forall x y z, R x y -> R y z -> R x z.

Lemma insert_by_sorted x l :
  StronglySorted R l -> StronglySorted R (insert_by le x l).
Proof.
  induction 1 as [| h t Hs IH Hh]; simpl.
  - constructor; constructor.
  - destruct (le x h) eqn:E.
    + constructor; [constructor; assumption |].
      constructor; [apply le_R; exact E |].
      eapply Forall_impl; [| exact Hh].
      intros y Hy; eapply R_trans; [apply le_R; exact E | exact Hy].
    + constructor; [exact IH |].
      eapply Permutation_Forall; [symmetry; apply insert_by_perm |].
      constructor; [apply le_total; exact E | exact Hh].
Qed.

Lemma isort_sorted l : StronglySorted R (isort le l).
Proof.
  induction l as [| h t IH]; simpl; [constructor |].
  apply insert_by_sorted; exact IH.
Qed.

(** Insertion passes over rows with a different key only. *)
Hypothesis le_tie : forall x y, by_ x = by_ y -> le x y = true.

Lemma filter_insert_by v x l :
  filter (fun r => by_ r =? v) (insert_by le x l)
  = filter (fun r => by_ r =? v) (x :: l).
Proof.
  induction l as [| h t IH]; [reflexivity |].
  simpl insert_by; destruct (le x h) eqn:E; [reflexivity |].
  simpl filter in *; rewrite IH.
  destruct (Z.eqb_spec (by_ x) v) as [Ex | Ex];
    destruct (Z.eqb_spec (by_ h) v) as [Eh | Eh]; try reflexivity.
  rewrite le_tie in E by congruence; discriminate E.
Qed.

Lemma filter_isort v l :
  filter (fun r => by_ r =? v) (isort le l) = filter (fun r => by_ r =? v) l.
Proof.
  induction l as [| h t IH]; [reflexivity |].
  simpl isort; rewrite filter_insert_by; simpl; rewrite IH; reflexivity.
Qed.
End InsertionSort.

Lemma isort_descending {A : Type} (by_ : A -> Z) (l : list A) :
  StronglySorted (fun x y => by_ y <= by_ x)
    (isort (fun x y => by_ y <=? by_ x) l).
Proof.
  apply isort_sorted.
  - intros x y H; apply Z.leb_le; exact H.
  - intros x y H; apply Z.leb_gt in H; lia.
  - intros x y z; lia.
Qed.

Lemma isort_ascending {A : Type} (by_ : A -> Z) (l : list A) :
  StronglySorted (fun x y => by_ x <= by_ y)
    (isort (fun x y => by_ x <=? by_ y) l).
Proof.
  apply isort_sorted.
  - intros x y H; apply Z.leb_le; exact H.
  - intros x y H; apply Z.leb_gt in H; lia.
  - intros x y z; lia.
Qed.

Lemma parse_iso_all_cons v l :
  parse_iso_all (v :: l)
  = match v with
    | None =>
        match parse_iso_all l with
        | Ok ds => Ok (None :: ds)
        | Err e => Err e
        end
    | Some s =>
        match parse_iso s with
        | Some d =>
            match parse_iso_all l with
            | Ok ds => Ok (Some d :: ds)
            | Err e => Err e
            end
        | None => Err (ValueError s)
        end
    end.
Proof.
  unfold parse_iso_all; simpl.
  destruct v as [s |]; simpl.
  - destruct (parse_iso s); [simpl | reflexivity].
    destruct (mapM _ l); reflexivity.
  - destruct (mapM _ l); reflexivity.
Qed.

Lemma parse_iso_all_rows l ds :
  parse_iso_all l = Ok ds ->
  Forall2 (fun v d =>
             match v with
             | None => d = None
             | Some s => forall d', parse_iso s = Some d' -> d = Some d'
             end) l ds.
Proof.
  revert ds; induction l as [| v l IH]; intros ds H.
  - injection H as <-; constructor.
  - rewrite parse_iso_all_cons in H.
    destruct v as [s |].
    + destruct (parse_iso s) as [d |] eqn:Ep; [| discriminate H].
      destruct (parse_iso_all l) as [ds' |]; [| discriminate H].
      injection H as <-; constructor; [| apply IH; reflexivity].
      intros d' E; congruence.
    + destruct (parse_iso_all l) as [ds' |]; [| discriminate H].
      injection H as <-; constructor; [reflexivity | apply IH; reflexivity].
Qed.

Lemma parse_iso_all_iso l :
  Forall (fun v => match v with
                   | None => True
                   | Some s => parse_iso s <> None
                   end) l ->
  exists ds, parse_iso_all l = Ok ds.
Proof.
  induction 1 as [| v l Hv _ (ds & E)].
  - exists []; reflexivity.
  - rewrite parse_iso_all_cons, E.
    destruct v as [s |]; [| eauto].
    destruct (parse_iso s) as [d |]; [eauto | contradiction Hv; reflexivity].
Qed.

Lemma stable_pandas_laws : PandasLaws stable_pandas.
Proof.
  constructor; simpl.
  - intros A by_ [] kind rows; apply isort_perm.
  - intros; apply isort_descending.
  - intros; apply isort_ascending.
  - intros A by_ [] kind rows v _; apply filter_isort;
      intros x y E; apply Z.leb_le; lia.
  - apply parse_iso_all_rows.
  - apply parse_iso_all_iso.
Qed.

(** ** Monthly and quarterly trends *)

Lemma pair_eqb_eq a b : pair_eqb a b = true <-> a = b.
Proof.
  destruct a as [a1 a2], b as [b1 b2]; unfold pair_eqb; simpl.
  rewrite andb_true_iff, !Z.eqb_eq.
  split; [intros [-> ->]; reflexivity | intros H; injection H; auto].
Qed.

Lemma combine_Forall2 {A B : Type} (R : A -> B -> Prop) (l : list A)
    (l' : list B) :
  Forall2 R l l' ->
  map fst (combine l l') = l /\
  forall ab, In ab (combine l l') -> R (fst ab) (snd ab).
Proof.
  induction 1 as [| a b l l' Hab _ [IH1 IH2]]; simpl.
  - split; [reflexivity | intros ab []].
  - split; [rewrite IH1; reflexivity |].
    intros ab [<- | Hin]; [exact Hab | apply IH2; exact Hin].
Qed.

(** [dt.quarter] is 1 for January to March, 2 for April to June, and so
    on. *)
Lemma quarter_months d k :
  (quarter d =? k) = (3 * k - 2 <=? month d) && (month d <=? 3 * k).
Proof.
  unfold quarter; apply eq_true_iff_eq.
  rewrite andb_true_iff, Z.eqb_eq, !Z.leb_le.
  pose proof (Z.div_mod (month d - 1) 3 ltac:(lia)).
  pose proof (Z.mod_pos_bound (month d - 1) 3 ltac:(lia)).
  lia.
Qed.

Lemma month_key y m d :
  pair_eqb (year d, month d) (y, m) = in_month y m d.
Proof. reflexivity. Qed.

Lemma quarter_key y k d :
  pair_eqb (year d, quarter d) (y, k) = in_quarter y k d.
Proof.
  unfold pair_eqb, in_quarter; cbn [fst snd].
  rewrite quarter_months, andb_assoc; reflexivity.
Qed.

Lemma in_dropna df r d : In (r, d) (dropna df) <-> In (r, Some d) df.
Proof.
  induction df as [| [r' [d' |]] df IH]; simpl.
  - tauto.
  - rewrite IH; split; (intros [E | H]; [left | right; exact H]);
      congruence.
  - rewrite IH; split; [intros H; right; exact H |].
    intros [E | H]; [discriminate E | exact H].
Qed.

Section Trends.
Context {P : PandasLib}.
Hypothesis L : PandasLaws P.

Lemma with_order_date_Ok silver df :
  with_order_date silver = Ok df -> dated silver df.
Proof.
  unfold with_order_date; intros H.
  apply bind_Ok in H as (dates & Hd & H); injection H as <-.
  apply (to_datetime_rows P L) in Hd.
  assert (H2 : Forall2 (fun r d =>
                          match order_date r with
                          | None => d = None
                          | Some s =>
                              forall d', parse_iso s = Some d' -> d = Some d'
                          end) silver dates).
  { revert Hd; generalize dates; clear.
    induction silver as [| r l IH]; intros ds H; inversion H; subst;
      constructor; auto. }
  apply combine_Forall2 in H2 as [H1 H2]; split; [exact H1 |].
  intros r d Hin; apply (H2 (r, d)); exact Hin.
Qed.

Lemma with_order_date_iso silver :
  iso_dates silver -> exists df, with_order_date silver = Ok df.
Proof.
  intros H; unfold with_order_date.
  destruct (to_datetime_iso P L (map order_date silver)) as (ds & E).
  - apply Forall_map; exact H.
  - rewrite E; simpl; eauto.
Qed.

(** A row in a group is a row of [silver_sales] that has a date. *)
Lemma bucket_dated silver df p r :
  dated silver df -> In r (bucket p df) -> In r silver /\ order_date r <> None.
Proof.
  intros [Hfst Hd] Hr.
  unfold bucket in Hr; apply in_map_iff in Hr as ([r' d] & E & Hin).
  simpl in E; subst r'.
  apply filter_In in Hin as [Hin Hp]; simpl in Hp.
  split; [rewrite <- Hfst; apply (in_map fst _ _ Hin) |].
  intros Hnull; specialize (Hd r d Hin); rewrite Hnull in Hd; subst d.
  discriminate Hp.
Qed.

(** A row with a written date is in the group of that date. *)
Lemma in_bucket silver df p r s d :
  dated silver df ->
  In r silver -> order_date r = Some s -> parse_iso s = Some d ->
  p d = true ->
  In r (bucket p df).
Proof.
  intros [Hfst Hd] Hr Hs Hparse Hp.
  rewrite <- Hfst in Hr; apply in_map_iff in Hr as ([r' d'] & E & Hin).
  simpl in E; subst r'.
  pose proof (Hd r d' Hin) as Hd'; rewrite Hs in Hd'.
  rewrite (Hd' d Hparse) in Hin.
  unfold bucket; apply in_map_iff; exists (r, Some d); split; [reflexivity |].
  apply filter_In; split; [exact Hin | exact Hp].
Qed.

Variable period : date -> Z.
Variable within : Z -> Z -> date -> bool.
Hypothesis within_key :
  forall y p d, pair_eqb (year d, period d) (y, p) = within y p d.

Lemma group_rows_bucket df y p :
  map fst (group_rows pair_eqb
             (fun r : sales * date => (year (snd r), period (snd r)))
             (dropna df) (y, p))
  = bucket (within y p) df.
Proof.
  unfold group_rows, bucket.
  induction df as [| [r [d |]] df IH]; simpl.
  - reflexivity.
  - rewrite within_key.
    destruct (within y p d); simpl; rewrite IH; reflexivity.
  - exact IH.
Qed.

Lemma trend_rows_keys df :
  trend_keys (trend_rows period df)
  = group_keys pair_eqb pair_leb
      (fun r : sales * date => (year (snd r), period (snd r))) (dropna df).
Proof.
  unfold trend_keys, trend_rows, groupby_agg; rewrite !map_map; simpl.
  induction (group_keys pair_eqb pair_leb
               (fun r : sales * date => (year (snd r), period (snd r)))
               (dropna df))
    as [| [y p] l IH]; simpl; [reflexivity | rewrite IH; reflexivity].
Qed.

Lemma NoDup_trend_keys df : NoDup (trend_keys (trend_rows period df)).
Proof. rewrite trend_rows_keys; apply NoDup_group_keys, pair_eqb_eq. Qed.

(** The rows of a trend table: one for each group that has a row, with the
    sum of the quantities on 64 bits and the sum of the amounts. *)
Lemma in_trend_rows df y p q t :
  In (mk_trend y p q t) (trend_rows period df) <->
  bucket (within y p) df <> [] /\
  q = wrap64 (exact_sum (map quantity (bucket (within y p) df))) /\
  t = sum_float64 (map quantity_times_price (bucket (within y p) df)).
Proof.
  set (key := fun r : sales * date => (year (snd r), period (snd r))).
  pose proof (in_groupby_agg pair_eqb pair_leb pair_eqb_eq key
                (fun g => (sum_int64 (map (fun r => quantity (fst r)) g),
                           sum_float64 (map (fun r => total_sales (fst r)) g)))
                (dropna df) (y, p) (q, t)) as Hin.
  rewrite <- (group_rows_bucket df y p); fold key.
  rewrite <- sum_int64_wraps, !map_map.
  assert (Hne : appears key (dropna df) (y, p) <->
                map fst (group_rows pair_eqb key (dropna df) (y, p)) <> []).
  { unfold appears, group_rows; split.
    - intros (rd & Hrd & E) Hnil.
      assert (Hf : In rd (filter (fun r => pair_eqb (key r) (y, p))
                            (dropna df)))
        by (apply filter_In; split;
            [exact Hrd | apply pair_eqb_eq; exact E]).
      apply (in_map fst) in Hf; rewrite Hnil in Hf; exact Hf.
    - intros H.
      destruct (filter (fun r => pair_eqb (key r) (y, p)) (dropna df))
        as [| rd g] eqn:E; [contradiction H; reflexivity |].
      assert (Hf : In rd (filter (fun r => pair_eqb (key r) (y, p))
                            (dropna df)))
        by (rewrite E; left; reflexivity).
      apply filter_In in Hf as [Hrd Hk]; apply pair_eqb_eq in Hk.
      exists rd; split; assumption. }
  unfold trend_rows; fold key; rewrite in_map_iff; split.
  - intros (g & E & Hg); destruct g as [[y' p'] [q' t']]; simpl in E.
    injection E as -> -> -> ->.
    apply Hin in Hg as [Hk E]; injection E as -> ->.
    split; [apply Hne; exact Hk | split; reflexivity].
  - intros (Hk & -> & ->).
    eexists; split; [| apply Hin; split; [apply Hne; exact Hk | reflexivity]].
    reflexivity.
Qed.

(** What a trend aggregator writes, from the frame it has built. *)
Lemma trend_rows_spec silver df :
  dated silver df ->
  NoDup (trend_keys (trend_rows period df)) /\
  (forall y p q t, In (mk_trend y p q t) (trend_rows period df) <->
     bucket (within y p) df <> [] /\
     q = wrap64 (exact_sum (map quantity (bucket (within y p) df))) /\
     t = sum_float64 (map quantity_times_price (bucket (within y p) df))) /\
  (forall y p q t r,
     In (mk_trend y p q t) (trend_rows period df) ->
     bucket (within y p) df = [r] ->
     isnan (quantity_times_price r) = false ->
     t = float64_add zero64 (quantity_times_price r)) /\
  (forall c r, In r (bucket c df) -> In r silver /\ order_date r <> None) /\
  (forall r s d,
     In r silver -> order_date r = Some s -> parse_iso s = Some d ->
     In r (bucket (within (year d) (period d)) df) /\
     exists q t, In (mk_trend (year d) (period d) q t) (trend_rows period df)).
Proof.
  intros Hdf.
  split; [apply NoDup_trend_keys |].
  split; [intros y p q t; apply in_trend_rows |].
  split; [| split].
  - intros y p q t r Hin Hg Hr.
    apply in_trend_rows in Hin as (_ & _ & ->); rewrite Hg.
    apply sum_float64_one; exact Hr.
  - intros c r; apply bucket_dated; exact Hdf.
  - intros r s d Hr Hs Hd.
    assert (Hb : In r (bucket (within (year d) (period d)) df)).
    { apply (in_bucket silver df _ r s d Hdf Hr Hs Hd).
      rewrite <- within_key; apply pair_eqb_eq; reflexivity. }
    split; [exact Hb |].
    eexists; eexists; apply in_trend_rows.
    split; [| split; reflexivity].
    intros Hnil; rewrite Hnil in Hb; exact Hb.
Qed.
End Trends.

(** C6: the monthly aggregator groups the rows of [silver_sales] by the
    year and month of the parsed [order_date], the quarterly aggregator by
    its year and quarter (the months 3k-2 to 3k for the quarter k).  Each
    table has one row per group that has a row, holding [sum(quantity)] on
    64 bits and [sum(quantity * price)] in [float64]; rows without an
    [order_date] are in no group.  A row dated 2024-02-15 is in the group
    (2024, 2) of the monthly table and in the group (2024, 1) of the
    quarterly table, and both tables have a row for that group.  Both tasks
    succeed when every [order_date] is missing or a calendar date
    [YYYY-MM-DD]. *)
Theorem trend_bucketing :
  forall (P : PandasLib), PandasLaws P ->
  forall s silver,
    silver_sales s = Some silver ->
    (iso_dates silver ->
     exists s1 s2, process_sales_trends_monthly s = Ok s1 /\
                   process_sales_trends_quarterly s = Ok s2) /\
    (forall s',
       process_sales_trends_monthly s = Ok s' ->
       exists df out,
         with_order_date silver = Ok df /\ dated silver df /\
         gold_sales_trends_monthly s' = Some out /\
         NoDup (trend_keys out) /\
         (forall y m q t, In (mk_trend y m q t) out <->
            bucket (in_month y m) df <> [] /\
            q = wrap64 (exact_sum (map quantity (bucket (in_month y m) df))) /\
            t = sum_float64
                  (map quantity_times_price (bucket (in_month y m) df))) /\
         (forall y m q t r,
            In (mk_trend y m q t) out ->
            bucket (in_month y m) df = [r] ->
            isnan (quantity_times_price r) = false ->
            t = float64_add zero64 (quantity_times_price r)) /\
         (forall c r, In r (bucket c df) ->
            In r silver /\ order_date r <> None) /\
         (forall r, In r silver -> order_date r = Some "2024-02-15" ->
            In r (bucket (in_month 2024 2) df) /\
            exists q t, In (mk_trend 2024 2 q t) out)) /\
    (forall s',
       process_sales_trends_quarterly s = Ok s' ->
       exists df out,
         with_order_date silver = Ok df /\ dated silver df /\
         gold_sales_trends_quarterly s' = Some out /\
         NoDup (trend_keys out) /\
         (forall y k q t, In (mk_trend y k q t) out <->
            bucket (in_quarter y k) df <> [] /\
            q = wrap64
                  (exact_sum (map quantity (bucket (in_quarter y k) df))) /\
            t = sum_float64
                  (map quantity_times_price (bucket (in_quarter y k) df))) /\
         (forall y k q t r,
            In (mk_trend y k q t) out ->
            bucket (in_quarter y k) df = [r] ->
            isnan (quantity_times_price r) = false ->
            t = float64_add zero64 (quantity_times_price r)) /\
         (forall c r, In r (bucket c df) ->
            In r silver /\ order_date r <> None) /\
         (forall r, In r silver -> order_date r = Some "2024-02-15" ->
            In r (bucket (in_quarter 2024 1) df) /\
            exists q t, In (mk_trend 2024 1 q t) out)).
Proof.
  intros P L s silver Hs.
  unfold process_sales_trends_monthly, process_sales_trends_quarterly.
  rewrite (load_from_db_Some T_silver_sales s silver Hs); simpl.
  split; [| split].
  - intros Hiso; destruct (with_order_date_iso L silver Hiso) as (df & ->).
    simpl; eexists; eexists; split; reflexivity.
  - intros s' H.
    destruct (with_order_date silver) as [df |] eqn:Hdf; [| discriminate H].
    simpl in H; injection H as <-.
    pose proof (with_order_date_Ok L silver df Hdf) as Hd.
    destruct (trend_rows_spec month in_month month_key silver df Hd)
      as (H1 & H2 & H3 & H4 & H5).
    exists df, (trend_rows month df).
    split; [reflexivity |].
    split; [exact Hd |].
    split; [reflexivity |].
    split; [exact H1 |].
    split; [exact H2 |].
    split; [exact H3 |].
    split; [exact H4 |].
    intros r Hr Hdate.
    apply (H5 r "2024-02-15" (mk_date 2024 2 15) Hr Hdate); reflexivity.
  - intros s' H.
    destruct (with_order_date silver) as [df |] eqn:Hdf; [| discriminate H].
    simpl in H; injection H as <-.
    pose proof (with_order_date_Ok L silver df Hdf) as Hd.
    destruct (trend_rows_spec quarter in_quarter quarter_key silver df Hd)
      as (H1 & H2 & H3 & H4 & H5).
    exists df, (trend_rows quarter df).
    split; [reflexivity |].
    split; [exact Hd |].
    split; [reflexivity |].
    split; [exact H1 |].
    split; [exact H2 |].
    split; [exact H3 |].
    split; [exact H4 |].
    intros r Hr Hdate.
    apply (H5 r "2024-02-15" (mk_date 2024 2 15) Hr Hdate); reflexivity.
Qed.

Lemma trend_bucketing_witness :
  exists s1 s2,
    process_sales_trends_monthly (P := stable_pandas) store_undated = Ok s1 /\
    process_sales_trends_quarterly (P := stable_pandas) store_undated = Ok s2 /\
    gold_sales_trends_monthly s1
    = Some [mk_trend 2024 2 2 (dec 20); mk_trend 2024 3 4 (dec 40);
            mk_trend 2024 4 3 (dec 15)] /\
    gold_sales_trends_quarterly s2
    = Some [mk_trend 2024 1 6 (dec 60); mk_trend 2024 2 3 (dec 15)].
Proof.
  destruct (trend_bucketing stable_pandas stable_pandas_laws store_undated
              _ eq_refl) as (H & _ & _).
  assert (Hiso : iso_dates
            [silver_row 1 "A" 2 10 "2024-02-15" "clear sky";
             undated_row 2 "B" 7 5 "clear sky";
             silver_row 3 "B" 3 5 "2024-04-02" "clear sky";
             silver_row 1 "A" 4 10 "2024-03-01" "clear sky"]).
  { unfold iso_dates.
    repeat (constructor; [vm_compute; try exact I; discriminate |]);
      constructor. }
  destruct (H Hiso) as (s1 & s2 & H1 & H2).
  exists s1, s2; split; [exact H1 | split; [exact H2 |]].
  vm_compute in H1, H2.
  injection H1 as <-; injection H2 as <-; split; vm_compute; reflexivity.
Defined.

(** ** The scheduler *)

Lemma task_eqb_eq a b : task_eqb a b = true <-> a = b.
Proof. destruct a, b; simpl; split; intros H; congruence. Qed.

Lemma task_eqb_refl a : task_eqb a a = true.
Proof. apply task_eqb_eq; reflexivity. Qed.

Lemma task_eqb_neq a b : a <> b -> task_eqb a b = false.
Proof.
  intros H; destruct (task_eqb a b) eqn:E; [| reflexivity].
  apply task_eqb_eq in E; contradiction.
Qed.

Lemma state_eqb_eq a b : state_eqb a b = true <-> a = b.
Proof. destruct a, b; simpl; split; intros H; congruence. Qed.

Lemma set_state_same t v st : set_state t v st t = v.
Proof. unfold set_state; rewrite task_eqb_refl; reflexivity. Qed.

Lemma set_state_other t t' v st : t' <> t -> set_state t v st t' = st t'.
Proof. intros H; unfold set_state; rewrite task_eqb_neq by exact H; reflexivity. Qed.

Lemma in_upstream g u t : In u (upstream g t) <-> In (u, t) g.
Proof.
  unfold upstream; rewrite in_map_iff; split.
  - intros ([u' t'] & <- & H); apply filter_In in H as [H E].
    apply task_eqb_eq in E; simpl in *; subst; exact H.
  - intros H; exists (u, t); split; [reflexivity |].
    apply filter_In; split; [exact H | apply task_eqb_refl].
Qed.

Lemma all_success_true g r t :
  all_success g r t = true <->
  forall u, In u (upstream g t) -> ti_state r u = success.
Proof.
  unfold all_success; rewrite forallb_forall; split; intros H u Hu.
  - apply state_eqb_eq, H, Hu.
  - apply state_eqb_eq, H, Hu.
Qed.

Section RunFacts.
Context {P : PandasLib}.
Variable g : graph.
Variable src : sources.

(** What one event does to the task instances and to the database. *)
Lemma fire_Start t r r' :
  fire g src (Start t) r = Some r' ->
  ti_state r t = no_status /\
  (forall u, In u (upstream g t) -> ti_state r u = success) /\
  r' = mk_dagrun (set_state t running (ti_state r)) (db r).
Proof.
  simpl; destruct (state_eqb (ti_state r t) no_status) eqn:E1; [| discriminate].
  destruct (all_success g r t) eqn:E2; [| discriminate].
  simpl; intros H; injection H as <-.
  split; [apply state_eqb_eq; exact E1 |].
  split; [apply all_success_true; exact E2 | reflexivity].
Qed.

Lemma fire_Finish t r r' :
  fire g src (Finish t) r = Some r' ->
  ti_state r t = running /\
  ((exists s', python_callable t src (db r) = Ok s' /\
               r' = mk_dagrun (set_state t success (ti_state r)) s') \/
   (exists e, python_callable t src (db r) = Err e /\
              r' = mk_dagrun (set_state t failed (ti_state r)) (db r))).
Proof.
  simpl; destruct (state_eqb (ti_state r t) running) eqn:E1; [| discriminate].
  apply state_eqb_eq in E1; split; [exact E1 |].
  destruct (python_callable t src (db r)) as [s' | e];
    injection H as <-; [left | right]; eauto.
Qed.

Lemma reachable_fire_all s es r r' :
  reachable g src s r -> fire_all g src es r = Some r' -> reachable g src s r'.
Proof.
  revert r; induction es as [| e es IH]; simpl; intros r Hr H.
  - injection H as <-; exact Hr.
  - destruct (fire g src e r) as [r1 |] eqn:E; [| discriminate H].
    apply (IH r1); [eapply reachable_fire; eassumption | exact H].
Qed.

Lemma reachable_run_task s r t :
  reachable g src s r -> reachable g src s (run_task g src r t).
Proof.
  intros Hr; unfold run_task.
  destruct (fire g src (Start t) r) as [r1 |] eqn:E1; [| exact Hr].
  assert (H1 : reachable g src s r1) by (eapply reachable_fire; eassumption).
  destruct (fire g src (Finish t) r1) as [r2 |] eqn:E2; [| exact H1].
  eapply reachable_fire; eassumption.
Qed.

Lemma reachable_run_schedule s schedule r :
  reachable g src s r -> reachable g src s (run_schedule g src schedule r).
Proof.
  unfold run_schedule; revert r.
  induction schedule as [| t l IH]; simpl; intros r Hr; [exact Hr |].
  apply IH, reachable_run_task, Hr.
Qed.

(** The trigger rule as an invariant of a run: a task instance that has any
    state was started when all its direct upstream tasks had succeeded, and
    a success is final. *)
Lemma started_after_upstream s r :
  reachable g src s r ->
  forall t u, ti_state r t <> no_status -> In u (upstream g t) ->
              ti_state r u = success.
Proof.
  induction 1 as [| r e r' Hr IH Hfire]; intros t u Ht Hu.
  - contradiction Ht; reflexivity.
  - destruct e as [t0 | t0].
    + apply fire_Start in Hfire as (H0 & Hup & ->); simpl in *.
      assert (Hne : u <> t0).
      { intros ->.
        destruct (task_eqb t t0) eqn:E.
        - apply task_eqb_eq in E; subst t.
          rewrite (Hup t0 Hu) in H0; discriminate H0.
        - unfold set_state in Ht; rewrite E in Ht.
          rewrite (IH t t0 Ht Hu) in H0; discriminate H0. }
      rewrite set_state_other by exact Hne.
      unfold set_state in Ht; destruct (task_eqb t t0) eqn:E.
      * apply task_eqb_eq in E; subst t; apply Hup, Hu.
      * apply (IH t u Ht Hu).
    + apply fire_Finish in Hfire as (H0 & Hres).
      assert (Hold : ti_state r t <> no_status).
      { destruct Hres as [(s' & _ & ->) | (e & _ & ->)]; simpl in Ht;
          unfold set_state in Ht; destruct (task_eqb t t0) eqn:E;
          try exact Ht; apply task_eqb_eq in E; subst t;
          rewrite H0; discriminate. }
      pose proof (IH t u Hold Hu) as Hsu.
      assert (Hne : u <> t0) by (intros ->; rewrite H0 in Hsu; discriminate Hsu).
      destruct Hres as [(s' & _ & ->) | (e & _ & ->)]; simpl;
        rewrite set_state_other by exact Hne; exact Hsu.
Qed.
End RunFacts.

(** ** What each bronze and silver task writes *)

Lemma fetch_transform_write_Ok src s s' :
  fetch_transform_write src s = Ok s' ->
  exists customers,
    users_api src = Ok customers /\
    s' = table_set T_bronze_customers (Some customers) s.
Proof.
  unfold fetch_transform_write, fetch_users; intros H.
  destruct (users_api src) as [[| c l] | e]; try discriminate H.
  simpl in H; injection H as <-; eauto.
Qed.

Lemma fetch_weather_Ok src s s' :
  fetch_weather src s = Ok s' ->
  exists customers rows,
    bronze_customers s = Some customers /\
    weather_list1 src customers = Ok rows /\
    s' = table_set T_bronze_weather (Some rows) s.
Proof.
  unfold fetch_weather; intros H.
  apply bind_Ok in H as (customers & Hc & H).
  apply load_from_db_Ok in Hc.
  destruct (weather_list1 src customers) as [[| w l] | e] eqn:Hw;
    simpl in H; try discriminate H.
  injection H as <-; eauto.
Qed.

Lemma load_csv_Ok src s s' :
  load_csv src s = Ok s' ->
  exists orders,
    sales_data_csv src = Ok orders /\
    s' = table_set T_bronze_orders (Some orders) s.
Proof.
  unfold load_csv; intros H.
  destruct (sales_data_csv src) as [orders | e]; [| discriminate H].
  simpl in H; injection H as <-; eauto.
Qed.

Lemma etl_sales_Ok s s' :
  etl_sales s = Ok s' ->
  exists orders customers weather,
    bronze_orders s = Some orders /\
    bronze_customers s = Some customers /\
    bronze_weather s = Some weather /\
    s' = table_set T_silver_sales
           (Some (etl_sales_query orders customers weather)) s.
Proof.
  unfold etl_sales; intros H.
  apply bind_Ok in H as (o & Ho & H); apply load_from_db_Ok in Ho.
  apply bind_Ok in H as (c & Hc & H); apply load_from_db_Ok in Hc.
  apply bind_Ok in H as (w & Hw & H); apply load_from_db_Ok in Hw.
  simpl in H; injection H as <-.
  exists o, c, w; repeat split; assumption.
Qed.

(** A gold task reads [silver_sales] and writes nothing but its own gold
    table. *)
Ltac gold_inv :=
  repeat match goal with
         | H : bind _ _ = Ok _ |- _ => apply bind_Ok in H as (? & ? & H)
         | H : set_index _ (Frame _) = Ok _ |- _ =>
             simpl in H; injection H as <-
         | H : write_to_db (Frame _) _ replace _ _ = Ok _ |- _ =>
             rewrite write_to_db_replace in H; injection H as <-
         end.

Lemma gold_task_frame {P : PandasLib} t src s s' :
  In t gold_tasks ->
  python_callable t src s = Ok s' ->
  bronze_customers s' = bronze_customers s /\
  bronze_orders s' = bronze_orders s /\
  bronze_weather s' = bronze_weather s /\
  silver_sales s' = silver_sales s.
Proof.
  intros Ht H.
  repeat (destruct Ht as [<- | Ht]); try contradiction Ht; simpl in H;
    unfold process_total_sales, process_avg_order_quantity,
      process_top_selling_products, process_top_selling_customers,
      process_sales_trends_monthly, process_sales_trends_quarterly,
      process_sales_per_weather_condition in H;
    gold_inv; repeat split; reflexivity.
Qed.

Ltac in_list := simpl; repeat (try (left; reflexivity); right).

Lemma task_frame {P : PandasLib} t src s s' :
  python_callable t src s = Ok s' ->
  (t <> fetch_customer_from_api -> bronze_customers s' = bronze_customers s) /\
  (t <> fetch_weather_from_api -> bronze_weather s' = bronze_weather s) /\
  (t <> load_order -> bronze_orders s' = bronze_orders s).
Proof.
  intros H.
  destruct t;
    try (match type of H with
         | python_callable ?t _ _ = _ =>
             assert (Hg : In t gold_tasks) by in_list
         end;
         destruct (gold_task_frame _ src s s' Hg H) as (-> & -> & -> & _);
         repeat split; reflexivity);
    simpl in H.
  - injection H as <-; repeat split; reflexivity.
  - apply fetch_transform_write_Ok in H as (c & _ & ->).
    repeat split; try reflexivity; intros E; contradiction E; reflexivity.
  - apply fetch_weather_Ok in H as (c & w & _ & _ & ->).
    repeat split; try reflexivity; intros E; contradiction E; reflexivity.
  - apply load_csv_Ok in H as (o & _ & ->).
    repeat split; try reflexivity; intros E; contradiction E; reflexivity.
  - apply etl_sales_Ok in H as (o & c & w & _ & _ & _ & ->).
    repeat split; reflexivity.
Qed.

(** ** The declared graph *)

Section DeclaredGraph.
Context {P : PandasLib}.
Variable src : sources.
Variable s : store.

(** A bronze task that has succeeded has materialized its table, and the
    table stays as it was written for the rest of the run. *)
Lemma bronze_materialized r :
  reachable dag src s r ->
  (ti_state r fetch_customer_from_api = success ->
   customers_materialized src (db r)) /\
  (ti_state r fetch_weather_from_api = success ->
   weather_materialized src (db r)) /\
  (ti_state r load_order = success -> orders_materialized src (db r)).
Proof.
  induction 1 as [| r e r' Hr IH Hfire].
  - repeat split; intros H; discriminate H.
  - pose proof (started_after_upstream dag src s r Hr) as Hgate.
    destruct IH as (IHc & IHw & IHo).
    destruct e as [t0 | t0].
    + apply fire_Start in Hfire as (_ & _ & ->); simpl.
      unfold set_state; repeat split; intros H;
        [apply IHc | apply IHw | apply IHo];
        destruct (task_eqb _ t0); congruence.
    + apply fire_Finish in Hfire as (H0 & [(s' & Hok & ->) | (e & _ & ->)]);
        simpl.
      * pose proof (task_frame t0 src (db r) s' Hok) as (Fc & Fw & Fo).
        unfold set_state; repeat split; intros H.
        -- destruct (task_eqb fetch_customer_from_api t0) eqn:E.
           ++ apply task_eqb_eq in E; subst t0; simpl in Hok.
              apply fetch_transform_write_Ok in Hok as (c & Hc & ->).
              exists c; split; [exact Hc | reflexivity].
           ++ destruct (IHc H) as (c & Hc & Hb); exists c.
              split; [exact Hc |]; rewrite Fc; [exact Hb |].
              intros ->; rewrite task_eqb_refl in E; discriminate E.
        -- destruct (task_eqb fetch_weather_from_api t0) eqn:E.
           ++ apply task_eqb_eq in E; subst t0; simpl in Hok.
              apply fetch_weather_Ok in Hok as (c & w & Hc & Hw & ->).
              exists c, w; repeat split; assumption.
           ++ destruct (IHw H) as (c & w & Hc & Hw & Hb); exists c, w.
              assert (Hne : t0 <> fetch_customer_from_api).
              { intros ->.
                rewrite (Hgate fetch_weather_from_api fetch_customer_from_api)
                  in H0; [discriminate H0 | congruence |].
                in_list. }
              rewrite Fc, Fw; [repeat split; assumption | | exact Hne].
              intros ->; rewrite task_eqb_refl in E; discriminate E.
        -- destruct (task_eqb load_order t0) eqn:E.
           ++ apply task_eqb_eq in E; subst t0; simpl in Hok.
              apply load_csv_Ok in Hok as (o & Ho & ->).
              exists o; split; [exact Ho | reflexivity].
           ++ destruct (IHo H) as (o & Ho & Hb); exists o.
              split; [exact Ho |]; rewrite Fo; [exact Hb |].
              intros ->; rewrite task_eqb_refl in E; discriminate E.
      * unfold set_state; repeat split; intros H;
          [apply IHc | apply IHw | apply IHo];
          destruct (task_eqb _ t0); congruence.
Qed.

(** The reconciler is started only when the whole bronze chain has
    succeeded. *)
Lemma etl_sales_after_bronze r :
  reachable dag src s r ->
  ti_state r po_etl_sales <> no_status ->
  forall b, In b bronze_tasks -> ti_state r b = success.
Proof.
  intros Hr H.
  pose proof (started_after_upstream dag src s r Hr) as Hgate.
  assert (Ho : ti_state r load_order = success)
    by (apply (Hgate po_etl_sales); [exact H | in_list]).
  assert (Hw : ti_state r fetch_weather_from_api = success)
    by (apply (Hgate load_order); [congruence | in_list]).
  assert (Hc : ti_state r fetch_customer_from_api = success)
    by (apply (Hgate fetch_weather_from_api); [congruence | in_list]).
  intros b [<- | [<- | [<- | []]]]; assumption.
Qed.
End DeclaredGraph.

Lemma upstream_gold t :
  In t gold_tasks -> upstream dag t = [po_etl_sales].
Proof.
  intros H; repeat (destruct H as [<- | H]); try contradiction H; reflexivity.
Qed.

Lemma gold_not_etl t : In t gold_tasks -> t <> po_etl_sales.
Proof.
  intros H ->; repeat (destruct H as [H | H]); try discriminate H; exact H.
Qed.

Section GoldFanOut.
Context {P : PandasLib}.
Variable src : sources.

Lemma fire_all_cons e es r :
  fire_all dag src (e :: es) r
  = match fire dag src e r with
    | Some r' => fire_all dag src es r'
    | None => None
    end.
Proof. reflexivity. Qed.

Lemma fire_Finish_running t r :
  ti_state r t = running ->
  fire dag src (Finish t) r
  = Some (mk_dagrun
            (set_state t
               (match python_callable t src (db r) with
                | Ok _ => success
                | Err _ => failed
                end) (ti_state r))
            (match python_callable t src (db r) with
             | Ok s' => s'
             | Err _ => db r
             end)).
Proof.
  intros H; simpl; rewrite H; simpl.
  destruct (python_callable t src (db r)); reflexivity.
Qed.

Lemma fire_Start_gold t r :
  In t gold_tasks ->
  ti_state r po_etl_sales = success -> ti_state r t = no_status ->
  fire dag src (Start t) r
  = Some (mk_dagrun (set_state t running (ti_state r)) (db r)).
Proof.
  intros Ht He H0; simpl; unfold all_success.
  rewrite (upstream_gold t Ht), H0; simpl; rewrite He; reflexivity.
Qed.

(** Any gold tasks that have not started can all be started, in any order,
    once the reconciler has succeeded: they then run at the same time. *)
Lemma start_gold_tasks l :
  NoDup l -> incl l gold_tasks ->
  forall r,
    ti_state r po_etl_sales = success ->
    (forall t, In t l -> ti_state r t = no_status) ->
    exists r',
      fire_all dag src (map Start l) r = Some r' /\
      (forall t, In t l -> ti_state r' t = running) /\
      (forall t, ~ In t l -> ti_state r' t = ti_state r t).
Proof.
  induction 1 as [| a l Ha Hl IH]; intros Hincl r He H0.
  - exists r; split; [reflexivity | split; [intros t [] | reflexivity]].
  - assert (Hg : In a gold_tasks) by (apply Hincl; left; reflexivity).
    simpl map; rewrite fire_all_cons.
    rewrite (fire_Start_gold a r Hg He (H0 a (or_introl eq_refl))).
    destruct (IH (fun t Ht => Hincl t (or_intror Ht))
                (mk_dagrun (set_state a running (ti_state r)) (db r)))
      as (r' & Hfire & Hrun & Hrest).
    + simpl; rewrite set_state_other; [exact He |].
      apply not_eq_sym, gold_not_etl, Hg.
    + intros t Ht; simpl; rewrite set_state_other;
        [apply H0; right; exact Ht | intros ->; contradiction].
    + exists r'; split; [exact Hfire |]; split.
      * intros t [<- | Ht]; [| apply Hrun; exact Ht].
        rewrite (Hrest a Ha); simpl; apply set_state_same.
      * intros t Ht; rewrite Hrest by (intros Hin; apply Ht; right; exact Hin).
        simpl; apply set_state_other.
        intros ->; apply Ht; left; reflexivity.
Qed.

(** They can as well run one after the other, in any order: that one of them
    fails does not keep the next from starting. *)
Lemma run_gold_tasks_one_by_one l :
  NoDup l -> incl l gold_tasks ->
  forall r,
    ti_state r po_etl_sales = success ->
    (forall t, In t l -> ti_state r t = no_status) ->
    exists r',
      fire_all dag src (one_by_one l) r = Some r' /\
      (forall t, In t l -> ti_state r' t = success \/ ti_state r' t = failed) /\
      (forall t, ~ In t l -> ti_state r' t = ti_state r t).
Proof.
  induction 1 as [| a l Ha Hl IH]; intros Hincl r He H0.
  - exists r; split; [reflexivity | split; [intros t [] | reflexivity]].
  - assert (Hg : In a gold_tasks) by (apply Hincl; left; reflexivity).
    unfold one_by_one; simpl flat_map; fold (one_by_one l).
    rewrite fire_all_cons.
    rewrite (fire_Start_gold a r Hg He (H0 a (or_introl eq_refl))).
    rewrite fire_all_cons.
    rewrite fire_Finish_running by (simpl; apply set_state_same).
    simpl db; simpl ti_state.
    set (v := match python_callable a src (db r) with
              | Ok _ => success | Err _ => failed end).
    set (s1 := match python_callable a src (db r) with
               | Ok s' => s' | Err _ => db r end).
    assert (Hv : v = success \/ v = failed)
      by (unfold v; destruct (python_callable a src (db r)); auto).
    destruct (IH (fun t Ht => Hincl t (or_intror Ht))
                (mk_dagrun (set_state a v (set_state a running (ti_state r)))
                   s1))
      as (r' & Hfire & Hrun & Hrest).
    + simpl; rewrite !set_state_other; [exact He | |];
        apply not_eq_sym, gold_not_etl, Hg.
    + intros t Ht; simpl.
      assert (t <> a) by (intros ->; contradiction).
      rewrite !set_state_other by assumption.
      apply H0; right; exact Ht.
    + exists r'; split; [exact Hfire |]; split.
      * intros t [<- | Ht]; [| apply Hrun; exact Ht].
        rewrite (Hrest a Ha); simpl; rewrite set_state_same; exact Hv.
      * intros t Ht; rewrite Hrest by (intros Hin; apply Ht; right; exact Hin).
        assert (t <> a) by (intros ->; apply Ht; left; reflexivity).
        simpl; rewrite !set_state_other by assumption; reflexivity.
Qed.
End GoldFanOut.

(** C2: in every state a run of the declared graph can reach, a gold task
    that has started (or finished) finds the reconciler succeeded; the
    reconciler has started only if the three bronze tasks have succeeded and
    their tables hold the rows the sources gave; no gold task is upstream of
    another one, and once the reconciler has succeeded the seven gold tasks
    can start in any order and run all at once, or run one after the other
    in any order. *)
Theorem task_graph_ordering :
  forall (P : PandasLib) src s r,
    reachable dag src s r ->
    (forall t, In t gold_tasks -> ti_state r t <> no_status ->
       ti_state r po_etl_sales = success) /\
    (ti_state r po_etl_sales <> no_status ->
       (forall b, In b bronze_tasks -> ti_state r b = success) /\
       customers_materialized src (db r) /\
       weather_materialized src (db r) /\
       orders_materialized src (db r)) /\
    (forall a b, In a gold_tasks -> In b gold_tasks ->
       depends_on dag a b = false) /\
    (ti_state r po_etl_sales = success ->
     (forall t, In t gold_tasks -> ti_state r t = no_status) ->
     forall order, Permutation order gold_tasks ->
       (exists r', fire_all dag src (map Start order) r = Some r' /\
                   forall t, In t gold_tasks -> ti_state r' t = running) /\
       (exists r', fire_all dag src (one_by_one order) r = Some r' /\
                   forall t, In t gold_tasks ->
                     ti_state r' t = success \/ ti_state r' t = failed)).
Proof.
  intros P src s r Hr.
  split; [| split; [| split]].
  - intros t Ht Hs.
    apply (started_after_upstream dag src s r Hr t); [exact Hs |].
    rewrite (upstream_gold t Ht); left; reflexivity.
  - intros He.
    pose proof (etl_sales_after_bronze src s r Hr He) as Hb.
    destruct (bronze_materialized src s r Hr) as (Hc & Hw & Ho).
    split; [exact Hb |].
    split; [apply Hc, Hb; in_list |].
    split; [apply Hw, Hb; in_list | apply Ho, Hb; in_list].
  - intros a b Ha Hb.
    repeat (destruct Ha as [<- | Ha]); try contradiction Ha;
      repeat (destruct Hb as [<- | Hb]); try contradiction Hb; reflexivity.
  - intros He H0 order Hperm.
    assert (Hnd : NoDup order).
    { apply (Permutation_NoDup (Permutation_sym Hperm)).
      repeat constructor; simpl; intuition discriminate. }
    assert (Hincl : incl order gold_tasks)
      by (intros t Ht; apply (Permutation_in _ Hperm), Ht).
    assert (H0' : forall t, In t order -> ti_state r t = no_status)
      by (intros t Ht; apply H0, Hincl, Ht).
    split.
    + destruct (start_gold_tasks src order Hnd Hincl r He H0')
        as (r' & Hfire & Hrun & _).
      exists r'; split; [exact Hfire |].
      intros t Ht; apply Hrun, (Permutation_in _ (Permutation_sym Hperm)), Ht.
    + destruct (run_gold_tasks_one_by_one src order Hnd Hincl r He H0')
        as (r' & Hfire & Hrun & _).
      exists r'; split; [exact Hfire |].
      intros t Ht; apply Hrun, (Permutation_in _ (Permutation_sym Hperm)), Ht.
Qed.

Lemma task_graph_ordering_witness :
  reachable (P := stable_pandas) dag src_ex empty_store run_after_etl /\
  ti_state run_after_etl po_etl_sales = success /\
  customers_materialized src_ex (db run_after_etl) /\
  weather_materialized src_ex (db run_after_etl) /\
  orders_materialized src_ex (db run_after_etl) /\
  exists r',
    fire_all (P := stable_pandas) dag src_ex (map Start (rev gold_tasks))
      run_after_etl = Some r' /\
    forall t, In t gold_tasks -> ti_state r' t = running.
Proof.
  assert (Hr : reachable (P := stable_pandas) dag src_ex empty_store
                 run_after_etl)
    by (apply reachable_run_schedule, reachable_new).
  destruct (task_graph_ordering stable_pandas src_ex empty_store
              run_after_etl Hr) as (_ & H2 & _ & H4).
  assert (He : ti_state run_after_etl po_etl_sales = success) by reflexivity.
  destruct H2 as (_ & Hc & Hw & Ho); [rewrite He; discriminate |].
  split; [exact Hr |].
  split; [exact He |].
  split; [exact Hc |].
  split; [exact Hw |].
  split; [exact Ho |].
  apply (H4 He).
  - intros t Ht; repeat (destruct Ht as [<- | Ht]); try contradiction Ht;
      reflexivity.
  - symmetry; apply Permutation_rev.
Defined.

(** ** The bronze chain *)

Lemma sibling_dag_weaker a b :
  depends_on sibling_dag a b = true -> depends_on dag a b = true.
Proof. destruct a, b; vm_compute; intros H; congruence. Qed.

(** C10: the declared graph chains the three bronze tasks, customer
    extraction, then weather extraction, then order loading.  In every
    reachable state of a run the weather extraction has started only after
    the customer extraction succeeded, the order loading only after the
    weather extraction succeeded, and at most one bronze task is running.
    This is strictly more than bronze-before-silver asks for: the graph
    [sibling_dag], whose dependencies are all dependencies of the declared
    graph, still starts the reconciler only after the three bronze tasks
    succeeded and the weather extraction only after the customer extraction,
    but it does not order the order loading against the two extractors, and
    it has a run in which the customer extraction and the order loading are
    running at the same time. *)
Theorem bronze_tasks_chained :
  forall (P : PandasLib) src s,
    (upstream dag fetch_customer_from_api = [op_test_connection] /\
     upstream dag fetch_weather_from_api = [fetch_customer_from_api] /\
     upstream dag load_order = [fetch_weather_from_api]) /\
    (forall r, reachable dag src s r ->
       (ti_state r fetch_weather_from_api <> no_status ->
        ti_state r fetch_customer_from_api = success) /\
       (ti_state r load_order <> no_status ->
        ti_state r fetch_weather_from_api = success) /\
       (forall a b, In a bronze_tasks -> In b bronze_tasks ->
          ti_state r a = running -> ti_state r b = running -> a = b)) /\
    ((forall a b, depends_on sibling_dag a b = true ->
                  depends_on dag a b = true) /\
     depends_on dag fetch_weather_from_api load_order = true /\
     depends_on sibling_dag fetch_weather_from_api load_order = false /\
     depends_on sibling_dag fetch_customer_from_api load_order = false /\
     depends_on sibling_dag load_order fetch_customer_from_api = false) /\
    ((forall r, reachable sibling_dag src s r ->
        (ti_state r po_etl_sales <> no_status ->
         forall b, In b bronze_tasks -> ti_state r b = success) /\
        (ti_state r fetch_weather_from_api <> no_status ->
         ti_state r fetch_customer_from_api = success)) /\
     exists r, reachable sibling_dag src s r /\
               ti_state r fetch_customer_from_api = running /\
               ti_state r load_order = running).
Proof.
  intros P src s.
  split; [repeat split; reflexivity |].
  split; [| split].
  - intros r Hr.
    pose proof (started_after_upstream dag src s r Hr) as Hgate.
    assert (Hw : ti_state r fetch_weather_from_api <> no_status ->
                 ti_state r fetch_customer_from_api = success)
      by (intros H; apply (Hgate fetch_weather_from_api); [exact H | in_list]).
    assert (Ho : ti_state r load_order <> no_status ->
                 ti_state r fetch_weather_from_api = success)
      by (intros H; apply (Hgate load_order); [exact H | in_list]).
    split; [exact Hw | split; [exact Ho |]].
    intros a b Ha Hb Ra Rb.
    destruct Ha as [<- | [<- | [<- | []]]];
      destruct Hb as [<- | [<- | [<- | []]]]; try reflexivity; exfalso.
    + rewrite Hw in Ra; [discriminate Ra | congruence].
    + rewrite Hw in Ra; [discriminate Ra |].
      rewrite Ho; [discriminate | congruence].
    + rewrite Hw in Rb; [discriminate Rb | congruence].
    + rewrite Ho in Ra; [discriminate Ra | congruence].
    + rewrite Hw in Rb; [discriminate Rb |].
      rewrite Ho; [discriminate | congruence].
    + rewrite Ho in Rb; [discriminate Rb | congruence].
  - split; [exact sibling_dag_weaker | repeat split; reflexivity].
  - split.
    + intros r Hr.
      pose proof (started_after_upstream sibling_dag src s r Hr) as Hgate.
      split.
      * intros H b [<- | [<- | [<- | []]]];
          apply (Hgate po_etl_sales); try exact H; in_list.
      * intros H; apply (Hgate fetch_weather_from_api); [exact H | in_list].
    + eexists; split.
      * apply (reachable_fire_all sibling_dag src s
                 [Start op_test_connection; Finish op_test_connection;
                  Start fetch_customer_from_api; Start load_order]
                 (new_run s)); [apply reachable_new | reflexivity].
      * split; reflexivity.
Qed.

Lemma bronze_tasks_chained_witness :
  ti_state run_after_etl fetch_customer_from_api = success /\
  ti_state run_after_etl fetch_weather_from_api = success /\
  ti_state run_after_etl load_order = success.
Proof.
  destruct (bronze_tasks_chained stable_pandas src_ex empty_store)
    as (_ & H & _).
  assert (Hr : reachable (P := stable_pandas) dag src_ex empty_store
                 run_after_etl)
    by (apply reachable_run_schedule, reachable_new).
  destruct (H run_after_etl Hr) as (Hw & Ho & _).
  assert (E : ti_state run_after_etl load_order = success) by reflexivity.
  split; [apply Hw; rewrite Ho; [discriminate | rewrite E; discriminate] |].
  split; [apply Ho; rewrite E; discriminate | exact E].
Defined.

(** ** A full run of the pipeline *)

Create HintDb callables.
#[local] Hint Unfold test_connection fetch_transform_write fetch_users
  fetch_weather load_csv etl_sales process_total_sales
  process_avg_order_quantity process_top_selling_products
  process_top_selling_customers process_sales_trends_monthly
  process_sales_trends_quarterly process_sales_per_weather_condition
  load_from_db write_to_db : callables.

Section FullRun.
Context {P : PandasLib}.
Variable src : sources.

Lemma run_task_eq g r t :
  run_task g src r t =
  if state_eqb (ti_state r t) no_status && all_success g r t then
    match python_callable t src (db r) with
    | Ok s' =>
        mk_dagrun (set_state t success (set_state t running (ti_state r))) s'
    | Err _ =>
        mk_dagrun (set_state t failed (set_state t running (ti_state r))) (db r)
    end
  else r.
Proof.
  unfold run_task; simpl fire at 1.
  destruct (state_eqb (ti_state r t) no_status && all_success g r t);
    [| reflexivity].
  simpl; rewrite set_state_same; simpl.
  destruct (python_callable t src (db r)); reflexivity.
Qed.

Lemma run_schedule_cons g t l r :
  run_schedule g src (t :: l) r = run_schedule g src l (run_task g src r t).
Proof. reflexivity. Qed.

Lemma run_schedule_nil g r : run_schedule g src [] r = r.
Proof. reflexivity. Qed.








End FullRun.





(* ================================================================== *)
(** * Further properties of the code *)

(** ** Sums over groups *)

Section GroupSums.
Context {A K : Type}.
Variable eqb : K -> K -> bool.
Variable leb : K -> K -> bool.
Hypothesis eqb_eq : forall a b, eqb a b = true <-> a = b.
Variable key : A -> K.

Lemma eqb_refl_key k : eqb k k = true.
Proof. apply eqb_eq; reflexivity. Qed.

Lemma exact_sum_no_key (x : Z) (k0 : K) keys :
  ~ In k0 keys ->
  exact_sum (map (fun k => if eqb k0 k then x else 0) keys) = 0.
Proof.
  induction keys as [| k keys IH]; intros Hk; [reflexivity |].
  cbn [map]; rewrite exact_sum_cons.
  destruct (eqb k0 k) eqn:E.
  - apply eqb_eq in E; subst k; contradiction Hk; left; reflexivity.
  - rewrite IH; [reflexivity |].
    intros H; apply Hk; right; exact H.
Qed.

(** Among keys without repetition one row falls into exactly one group. *)
Lemma exact_sum_one_key (x : Z) (k0 : K) keys :
  NoDup keys -> In k0 keys ->
  exact_sum (map (fun k => if eqb k0 k then x else 0) keys) = x.
Proof.
  induction 1 as [| k keys Hk Hnd IH]; intros Hin; [contradiction Hin |].
  cbn [map]; rewrite exact_sum_cons; destruct Hin as [-> | Hin].
  - rewrite eqb_refl_key, exact_sum_no_key by exact Hk; lia.
  - destruct (eqb k0 k) eqn:E.
    + apply eqb_eq in E; subst k; contradiction.
    + rewrite IH by exact Hin; lia.
Qed.

(** Adding one row to the frame adds it to the group of its key. *)
Lemma exact_sum_groups_cons (f : A -> Z) keys r rows :
  exact_sum (map (fun k => exact_sum (map f (group_rows eqb key (r :: rows) k)))
               keys)
  = exact_sum (map (fun k => if eqb (key r) k then f r else 0) keys)
    + exact_sum (map (fun k => exact_sum (map f (group_rows eqb key rows k)))
                   keys).
Proof.
  induction keys as [| k keys IHk]; [reflexivity |].
  cbn [map]; rewrite !exact_sum_cons, IHk.
  unfold group_rows; cbn [filter].
  destruct (eqb (key r) k); cbn [map]; rewrite ?exact_sum_cons; lia.
Qed.

Lemma exact_sum_groups (f : A -> Z) keys rows :
  NoDup keys -> (forall r, In r rows -> In (key r) keys) ->
  exact_sum (map (fun k => exact_sum (map f (group_rows eqb key rows k))) keys)
  = exact_sum (map f rows).
Proof.
  intros Hnd; induction rows as [| r rows IH]; intros Hin.
  - clear; induction keys as [| k keys IHk]; [reflexivity |].
    cbn [map]; rewrite exact_sum_cons, IHk; reflexivity.
  - rewrite exact_sum_groups_cons, IH
      by (intros x Hx; apply Hin; right; exact Hx).
    rewrite exact_sum_one_key; [reflexivity | exact Hnd |].
    apply Hin; left; reflexivity.
Qed.

Lemma in_key_group_keys rows r :
  In r rows -> In (key r) (group_keys eqb leb key rows).
Proof. intros H; apply (in_group_keys eqb leb eqb_eq); exists r; auto. Qed.

(** The sums of the groups, each on 64 bits, add up on 64 bits to the sum of
    the column. *)
Lemma sum_int64_groups (f : A -> Z) rows :
  wrap64 (exact_sum (map (fun k => sum_int64 (map f (group_rows eqb key rows k)))
                       (group_keys eqb leb key rows)))
  = wrap64 (exact_sum (map f rows)).
Proof.
  rewrite (map_ext _ (fun k => wrap64 (exact_sum
                                         (map f (group_rows eqb key rows k)))))
    by (intros k; apply sum_int64_wraps).
  rewrite (wrap64_exact_sum_map
             (fun k => exact_sum (map f (group_rows eqb key rows k)))).
  rewrite exact_sum_groups; [reflexivity | |].
  - apply NoDup_group_keys, eqb_eq.
  - intros r Hr; apply in_key_group_keys; exact Hr.
Qed.
End GroupSums.

(** A part of a column of non-negative integers sums to at most the sum of
    the column. *)
Lemma exact_sum_filter_bounds {A : Type} (f : A -> Z) (p : A -> bool) l :
  (forall a, In a l -> 0 <= f a) ->
  0 <= exact_sum (map f (filter p l)) <= exact_sum (map f l).
Proof.
  induction l as [| a l IH]; intros H; simpl; [lia |].
  pose proof (H a (or_introl eq_refl)).
  assert (IH' := IH (fun x Hx => H x (or_intror Hx))).
  destruct (p a); simpl; lia.
Qed.

(** ** The order of the groups *)

Lemma sort_keys_isort {K : Type} (leb : K -> K -> bool) l :
  sort_keys leb l = isort leb l.
Proof.
  unfold sort_keys, isort; induction l as [| k l IH]; simpl; [reflexivity |].
  rewrite IH; generalize (fold_right (insert_by leb) [] l); intros l'.
  induction l' as [| h t IHt]; simpl; [reflexivity |].
  rewrite IHt; reflexivity.
Qed.

Lemma StronglySorted_weaken {K : Type} (R R' : K -> K -> Prop) l :
  (forall a b, In a l -> In b l -> R a b -> R' a b) ->
  StronglySorted R l -> StronglySorted R' l.
Proof.
  intros HR H; induction H as [| a l Hs IH Ha]; constructor.
  - apply IH; intros x y Hx Hy; apply HR; right; assumption.
  - apply Forall_forall; intros b Hb.
    apply HR; [left; reflexivity | right; exact Hb |].
    apply (proj1 (Forall_forall _ _) Ha b Hb).
Qed.

Lemma StronglySorted_NoDup_strict {K : Type} (R : K -> K -> Prop) l :
  StronglySorted R l -> NoDup l ->
  StronglySorted (fun a b => R a b /\ a <> b) l.
Proof.
  induction 1 as [| a l Hs IH Ha]; intros Hnd; constructor;
    inversion Hnd as [| a' l' Hnotin Hnd']; subst.
  - apply IH; exact Hnd'.
  - apply Forall_forall; intros b Hb; split.
    + apply (proj1 (Forall_forall _ _) Ha b Hb).
    + intros ->; contradiction.
Qed.

(** Grouping by an integer column lists the groups by strictly increasing
    key. *)
Lemma group_keys_Z_increasing {A : Type} (key : A -> Z) rows :
  StronglySorted Z.lt (group_keys Z.eqb Z.leb key rows).
Proof.
  assert (Hs : StronglySorted Z.le (group_keys Z.eqb Z.leb key rows)).
  { unfold group_keys; rewrite sort_keys_isort.
    apply (isort_sorted Z.leb Z.le).
    - intros x y H; apply Z.leb_le; exact H.
    - intros x y H; apply Z.leb_gt in H; lia.
    - intros x y z; lia. }
  apply (StronglySorted_weaken (fun a b => a <= b /\ a <> b)).
  - intros a b _ _ [H1 H2]; lia.
  - apply StronglySorted_NoDup_strict; [exact Hs |].
    apply NoDup_group_keys, Z.eqb_eq.
Qed.

Lemma pair_leb_le a b :
  pair_leb a b = true <-> pair_lt a b \/ a = b.
Proof.
  destruct a as [a1 a2], b as [b1 b2]; unfold pair_leb, pair_lt; simpl.
  rewrite orb_true_iff, andb_true_iff, Z.ltb_lt, Z.eqb_eq, Z.leb_le.
  split.
  - intros [H | [-> H]]; [left; left; exact H |].
    destruct (Z.eq_dec a2 b2) as [-> | Hne]; [right; reflexivity |].
    left; right; split; [reflexivity | lia].
  - intros [[H | [-> H]] | E]; [left; exact H | right; split; lia |].
    injection E as -> ->; right; split; lia.
Qed.

(** Grouping by (year, period) lists the groups in chronological order. *)
Lemma group_keys_pair_increasing {A : Type} (key : A -> Z * Z) rows :
  StronglySorted pair_lt (group_keys pair_eqb pair_leb key rows).
Proof.
  assert (Hs : StronglySorted (fun a b => pair_lt a b \/ a = b)
                 (group_keys pair_eqb pair_leb key rows)).
  { unfold group_keys; rewrite sort_keys_isort.
    apply (isort_sorted pair_leb).
    - intros x y H; apply pair_leb_le; exact H.
    - intros [x1 x2] [y1 y2] H; unfold pair_leb, pair_lt in *; simpl in *.
      apply orb_false_iff in H as [H1 H2]; apply Z.ltb_ge in H1.
      apply andb_false_iff in H2.
      destruct (Z.eq_dec x1 y1) as [-> | Hne]; [| left; left; lia].
      destruct H2 as [H2 | H2];
        [rewrite Z.eqb_refl in H2; discriminate H2 |].
      apply Z.leb_gt in H2; left; right; split; [reflexivity | lia].
    - intros [x1 x2] [y1 y2] [z1 z2]; unfold pair_lt; simpl.
      intros [[H | [-> H]] | E] [[H' | [-> H']] | E'];
        try (injection E as -> ->); try (injection E' as -> ->);
        try (left; left; lia); try (left; right; split; lia);
        try (left; left; assumption); try (left; right; split; assumption);
        right; reflexivity. }
  apply (StronglySorted_weaken (fun a b => (pair_lt a b \/ a = b) /\ a <> b)).
  - intros a b _ _ [[H | H] Hne]; [exact H | contradiction].
  - apply StronglySorted_NoDup_strict; [exact Hs |].
    apply NoDup_group_keys, pair_eqb_eq.
Qed.

(** ** More on the aggregators *)

Lemma map_snd_groupby_agg {A K B : Type} (eqb leb : K -> K -> bool)
    (key : A -> K) (agg : list A -> B) rows :
  map snd (groupby_agg eqb leb key agg rows)
  = map (fun k => agg (group_rows eqb key rows k))
      (group_keys eqb leb key rows).
Proof. unfold groupby_agg; rewrite map_map; reflexivity. Qed.

(** X1: the customers of [gold_total_sales_by_customer] are the customer
    ids of [silver_sales], each once, by strictly increasing id: a customer
    has a row even when the price of each of its orders is missing. *)
Theorem process_total_sales_rows :
  forall s silver,
    silver_sales s = Some silver ->
    exists out s',
      process_total_sales s = Ok s' /\
      gold_total_sales_by_customer s' = Some out /\
      StronglySorted Z.lt (map fst out) /\
      (forall c, In c (map fst out) <-> appears customer_id silver c).
Proof.
  intros s silver Hs; unfold process_total_sales.
  rewrite (load_from_db_Some T_silver_sales s silver Hs); simpl.
  eexists; eexists; split; [reflexivity |].
  split; [reflexivity |].
  rewrite map_fst_groupby_agg; split.
  - apply group_keys_Z_increasing.
  - intros c; apply in_group_keys, Z.eqb_eq.
Qed.

Lemma process_total_sales_rows_witness :
  exists s',
    process_total_sales store_no_price = Ok s' /\
    gold_total_sales_by_customer s'
    = Some [(1, dec 20); (2, zero64); (3, dec 15)].
Proof.
  destruct (process_total_sales_rows store_no_price _ eq_refl)
    as (out & s' & H1 & H2 & _ & _).
  exists s'; split; [exact H1 |].
  vm_compute in H1; injection H1 as <-; vm_compute; reflexivity.
Defined.

Section Ranking.
Context {P : PandasLib}.
Hypothesis L : PandasLaws P.
Context {K : Type}.
Variable eqb : K -> K -> bool.
Variable leb : K -> K -> bool.
Hypothesis eqb_eq : forall a b, eqb a b = true <-> a = b.
Variable key : sales -> K.

(** A ranking: the groups of a key with the sum of their quantities, sorted
    by that sum from the largest to the smallest. *)
Lemma ranking_spec silver :
  let out := sort_values snd false quicksort
               (groupby_agg eqb leb key
                  (fun g => sum_int64 (map quantity g)) silver) in
  StronglySorted (fun x y => snd y <= snd x) out /\
  NoDup (map fst out) /\
  (forall k q, In (k, q) out <->
     appears key silver k /\
     q = wrap64 (exact_sum (map quantity
                              (filter (fun r => eqb (key r) k) silver)))) /\
  wrap64 (exact_sum (map snd out)) = wrap64 (exact_sum (map quantity silver)) /\
  ((forall r, In r silver -> 0 <= quantity r) ->
   exact_sum (map quantity silver) < 2 ^ 63 ->
   (forall k q, In (k, q) out ->
      q = exact_sum (map quantity (filter (fun r => eqb (key r) k) silver))) /\
   exact_sum (map snd out) = exact_sum (map quantity silver)).
Proof.
  intros out.
  pose proof (sort_values_perm P L _ snd false quicksort
                (groupby_agg eqb leb key
                   (fun g => sum_int64 (map quantity g)) silver)) as Hperm.
  fold out in Hperm.
  assert (Hin : forall k q, In (k, q) out <->
                  appears key silver k /\
                  q = wrap64 (exact_sum
                                (map quantity
                                   (filter (fun r => eqb (key r) k) silver)))).
  { intros k q.
    rewrite <- sum_int64_wraps.
    rewrite <- (in_groupby_agg eqb leb eqb_eq key
                  (fun g => sum_int64 (map quantity g)) silver k q).
    split; apply Permutation_in; [symmetry |]; exact Hperm. }
  split; [apply (sort_values_descending P L) |].
  split.
  { eapply Permutation_NoDup; [apply Permutation_map; exact Hperm |].
    apply NoDup_groupby_agg; exact eqb_eq. }
  split; [exact Hin |].
  split.
  { rewrite <- (exact_sum_perm _ _ (Permutation_map snd Hperm)).
    rewrite map_snd_groupby_agg.
    apply (sum_int64_groups eqb leb eqb_eq key quantity). }
  intros Hpos Hmax.
  assert (Hexact : forall k,
            wrap64 (exact_sum (map quantity
                                 (filter (fun r => eqb (key r) k) silver)))
            = exact_sum (map quantity
                           (filter (fun r => eqb (key r) k) silver))).
  { intros k; apply wrap64_small; unfold int64_range.
    pose proof (exact_sum_filter_bounds quantity
                  (fun r => eqb (key r) k) silver Hpos); lia. }
  split.
  - intros k q Hq; apply Hin in Hq as [_ ->]; apply Hexact.
  - rewrite <- (exact_sum_perm _ _ (Permutation_map snd Hperm)).
    rewrite map_snd_groupby_agg.
    rewrite (map_ext _ (fun k => exact_sum
                                   (map quantity
                                      (group_rows eqb key silver k)))).
    + apply (exact_sum_groups eqb eqb_eq key quantity).
      * apply NoDup_group_keys, eqb_eq.
      * intros r Hr; apply in_key_group_keys; [exact eqb_eq | exact Hr].
    + intros k; rewrite sum_int64_wraps; apply Hexact.
Qed.
End Ranking.

(** X2: [process_top_selling_customers] succeeds on any [silver_sales] and
    writes one row per customer id, holding the sum of [quantity] over the
    rows of that customer as 64 bits hold it, by non-increasing sum; on
    64 bits the sums of the table add up to the quantity of all rows of
    [silver_sales].  When no quantity is negative and their sum is below
    2^63, nothing wraps: every row holds the sum of its customer, and the
    table adds up to the quantity of all rows. *)
Theorem process_top_selling_customers_ranking :
  forall (P : PandasLib), PandasLaws P ->
  forall s silver,
    silver_sales s = Some silver ->
    exists out s',
      process_top_selling_customers s = Ok s' /\
      gold_top_selling_customers s' = Some out /\
      StronglySorted (fun x y => snd y <= snd x) out /\
      NoDup (map fst out) /\
      (forall c q, In (c, q) out <->
         appears customer_id silver c /\
         q = wrap64 (exact_sum
                       (map quantity
                          (filter (fun r => customer_id r =? c) silver)))) /\
      wrap64 (exact_sum (map snd out))
      = wrap64 (exact_sum (map quantity silver)) /\
      ((forall r, In r silver -> 0 <= quantity r) ->
       exact_sum (map quantity silver) < 2 ^ 63 ->
       (forall c q, In (c, q) out ->
          q = exact_sum (map quantity
                           (filter (fun r => customer_id r =? c) silver))) /\
       exact_sum (map snd out) = exact_sum (map quantity silver)).
Proof.
  intros P L s silver Hs; unfold process_top_selling_customers.
  rewrite (load_from_db_Some T_silver_sales s silver Hs); simpl.
  eexists; eexists; split; [reflexivity |].
  split; [reflexivity |].
  apply (ranking_spec L Z.eqb Z.leb Z.eqb_eq customer_id silver).
Qed.

Lemma process_top_selling_customers_ranking_witness :
  exists s',
    process_top_selling_customers (P := stable_pandas) store_products = Ok s' /\
    gold_top_selling_customers s' = Some [(1, 7); (3, 3); (2, 1)].
Proof.
  destruct (process_top_selling_customers_ranking stable_pandas
              stable_pandas_laws store_products _ eq_refl)
    as (out & s' & H1 & H2 & _).
  exists s'; split; [exact H1 |].
  vm_compute in H1; injection H1 as <-; reflexivity.
Defined.

(** X20: [process_top_selling_products] succeeds on any [silver_sales] and
    writes one row per product id, holding the sum of [quantity] over the
    rows of that product as 64 bits hold it, the rows being non-increasing
    in that sum from the first to the last; on 64 bits the sums of the table
    add up to the quantity of all rows of [silver_sales].  When no quantity
    is negative and their sum is below 2^63, nothing wraps. *)
Theorem process_top_selling_products_sorted :
  forall (P : PandasLib), PandasLaws P ->
  forall s silver,
    silver_sales s = Some silver ->
    exists out s',
      process_top_selling_products s = Ok s' /\
      gold_top_selling_products s' = Some out /\
      StronglySorted (fun x y => snd y <= snd x) out /\
      NoDup (map fst out) /\
      (forall p q, In (p, q) out <->
         appears product_id silver p /\
         q = wrap64 (exact_sum
                       (map quantity
                          (filter (fun r => String.eqb (product_id r) p)
                             silver)))) /\
      wrap64 (exact_sum (map snd out))
      = wrap64 (exact_sum (map quantity silver)) /\
      ((forall r, In r silver -> 0 <= quantity r) ->
       exact_sum (map quantity silver) < 2 ^ 63 ->
       (forall p q, In (p, q) out ->
          q = exact_sum (map quantity
                           (filter (fun r => String.eqb (product_id r) p)
                              silver))) /\
       exact_sum (map snd out) = exact_sum (map quantity silver)).
Proof.
  intros P L s silver Hs; unfold process_top_selling_products.
  rewrite (load_from_db_Some T_silver_sales s silver Hs); simpl.
  eexists; eexists; split; [reflexivity |].
  split; [reflexivity |].
  apply (ranking_spec L String.eqb String.leb String.eqb_eq product_id silver).
Qed.

Lemma process_top_selling_products_sorted_witness :
  exists s',
    process_top_selling_products (P := stable_pandas) store_wrap = Ok s' /\
    gold_top_selling_products s'
    = Some [("B", 1); ("A", - 9223372036854775808)].
Proof.
  destruct (process_top_selling_products_sorted stable_pandas
              stable_pandas_laws store_wrap _ eq_refl)
    as (out & s' & H1 & H2 & _).
  exists s'; split; [exact H1 |].
  vm_compute in H1; injection H1 as <-; reflexivity.
Defined.

(** The conversion of an integer never gives [NaN]. *)
Lemma shr_1_nonneg mrs : 0 <= shr_m mrs -> 0 <= shr_m (shr_1 mrs).
Proof.
  destruct mrs as [m r s]; destruct m as [| [p | p |] | p]; simpl; lia.
Qed.

Lemma iter_pos_shr_1_nonneg p mrs :
  0 <= shr_m mrs -> 0 <= shr_m (iter_pos shr_1 p mrs).
Proof.
  revert mrs; induction p as [p IH | p IH |]; intros mrs H; simpl.
  - apply IH, IH, shr_1_nonneg, H.
  - apply IH, IH, H.
  - apply shr_1_nonneg, H.
Qed.

Lemma shr_fexp_nonneg m e l :
  0 <= m -> 0 <= shr_m (fst (shr_fexp 53 1024 m e l)).
Proof.
  intros H; unfold shr_fexp, shr.
  assert (H0 : 0 <= shr_m (shr_record_of_loc m l))
    by (destruct l as [| []]; exact H).
  destruct (fexp 53 1024 (Zdigits2 m + e) - e); simpl;
    [exact H0 | apply iter_pos_shr_1_nonneg; exact H0 | exact H0].
Qed.

Lemma round_nearest_even_nonneg m l : 0 <= m -> 0 <= round_nearest_even m l.
Proof.
  intros H; destruct l as [| []]; simpl; try lia.
  destruct (Z.even m); lia.
Qed.

Lemma binary_round_aux_notnan sx mx ex lx :
  0 <= mx -> isnan (binary_round_aux 53 1024 sx mx ex lx) = false.
Proof.
  intros H; unfold binary_round_aux.
  pose proof (shr_fexp_nonneg mx ex lx H) as H1.
  destruct (shr_fexp 53 1024 mx ex lx) as [mrs' e']; simpl in H1.
  pose proof (shr_fexp_nonneg
                (round_nearest_even (shr_m mrs') (loc_of_shr_record mrs'))
                e' loc_Exact
                (round_nearest_even_nonneg _ _ H1)) as H2.
  destruct (shr_fexp 53 1024 _ e' loc_Exact) as [mrs'' e'']; simpl in H2.
  destruct (shr_m mrs'') as [| m | m]; [reflexivity | | lia].
  destruct (e'' <=? 1024 - 53); reflexivity.
Qed.

Lemma float64_of_int64_notnan z : isnan (float64_of_int64 z) = false.
Proof.
  unfold float64_of_int64, binary_normalize, binary_round.
  destruct z as [| m | m]; [reflexivity | |];
    destruct (shl_align m 0 _) as [mz ez]; apply binary_round_aux_notnan; lia.
Qed.

(** X3: [process_avg_order_quantity] succeeds on any [silver_sales] and
    writes one row per product id, holding the mean of [quantity] over the
    rows of that product as a [float64] number: the quantity itself for a
    product with one row, the rounded half of the rounded sum for a product
    with two rows.  The quantities 1, 2 and 2 of one product have the mean
    1.6666666666666667, the [float64] nearest to 5/3. *)
Theorem process_avg_order_quantity_mean :
  forall s silver,
    silver_sales s = Some silver ->
    exists out s',
      process_avg_order_quantity s = Ok s' /\
      gold_avg_order_quantity_per_product s' = Some out /\
      NoDup (map fst out) /\
      (forall p m, In (p, m) out <->
         appears product_id silver p /\
         m = mean_float64
               (map (fun r => float64_of_int64 (quantity r))
                  (filter (fun r => String.eqb (product_id r) p) silver))) /\
      (forall p m r,
         In (p, m) out ->
         filter (fun r => String.eqb (product_id r) p) silver = [r] ->
         m = float64_div (float64_add zero64 (float64_of_int64 (quantity r)))
               (dec 1)) /\
      (forall p m r1 r2,
         In (p, m) out ->
         filter (fun r => String.eqb (product_id r) p) silver = [r1; r2] ->
         m = float64_div
               (float64_add
                  (float64_add zero64 (float64_of_int64 (quantity r1)))
                  (float64_of_int64 (quantity r2)))
               (dec 2)) /\
      (forall p r1 r2 r3,
         silver = [r1; r2; r3] ->
         product_id r1 = p -> product_id r2 = p -> product_id r3 = p ->
         quantity r1 = 1 -> quantity r2 = 2 -> quantity r3 = 2 ->
         out = [(p, S754_finite false 7505999378950827 (-52))]).
Proof.
  intros s silver Hs; unfold process_avg_order_quantity.
  rewrite (load_from_db_Some T_silver_sales s silver Hs); simpl.
  eexists; eexists; split; [reflexivity |].
  split; [reflexivity |].
  split; [apply NoDup_groupby_agg; apply String.eqb_eq |].
  pose proof (in_groupby_agg String.eqb String.leb String.eqb_eq product_id
                (fun g => mean_float64
                            (map (fun r => float64_of_int64 (quantity r)) g))
                silver) as Hin.
  split; [exact Hin |].
  split; [| split].
  - intros p m r Hm Hg.
    apply Hin in Hm as [_ ->]; unfold group_rows; rewrite Hg.
    apply mean_float64_one, float64_of_int64_notnan.
  - intros p m r1 r2 Hm Hg.
    apply Hin in Hm as [_ ->]; unfold group_rows; rewrite Hg.
    apply mean_float64_two; apply float64_of_int64_notnan.
  - intros p r1 r2 r3 -> Hp1 Hp2 Hp3 Hq1 Hq2 Hq3.
    unfold groupby_agg, group_keys, group_rows; simpl.
    rewrite Hp1, Hp2, Hp3, !String.eqb_refl; simpl.
    rewrite !String.eqb_refl; simpl.
    rewrite Hq1, Hq2, Hq3.
    f_equal; f_equal; vm_compute; reflexivity.
Qed.

Lemma process_avg_order_quantity_mean_witness :
  exists s',
    process_avg_order_quantity store_thirds = Ok s' /\
    gold_avg_order_quantity_per_product s'
    = Some [("A", S754_finite false 7505999378950827 (-52))].
Proof.
  destruct (process_avg_order_quantity_mean store_thirds _ eq_refl)
    as (out & s' & H1 & H2 & _ & _ & _ & _ & H5).
  exists s'; split; [exact H1 |].
  rewrite H2; f_equal.
  apply (H5 "A" _ _ _ eq_refl); reflexivity.
Defined.

(** ** More on the trend tables *)

Lemma filter_map_comm {A B : Type} (p : B -> bool) (h : A -> B) l :
  filter p (map h l) = map h (filter (fun x => p (h x)) l).
Proof.
  induction l as [| a l IH]; simpl; [reflexivity |].
  destruct (p (h a)); simpl; rewrite IH; reflexivity.
Qed.

(** The rows that the groups are made of: those that have a date. *)
Lemma map_fst_dropna df : map fst (dropna df) = bucket (fun _ => true) df.
Proof.
  unfold bucket; induction df as [| [r [d |]] df IH]; simpl;
    [reflexivity | rewrite IH; reflexivity | exact IH].
Qed.

Lemma map_fst_filter_dropna (p : date -> bool) df :
  map fst (filter (fun rd => p (snd rd)) (dropna df)) = bucket p df.
Proof.
  unfold bucket; induction df as [| [r [d |]] df IH]; simpl.
  - reflexivity.
  - destruct (p d); simpl; rewrite IH; reflexivity.
  - exact IH.
Qed.

(** When every row has a written date the frame keeps every row. *)
Lemma bucket_all silver df :
  dated silver df ->
  (forall r, In r silver ->
     exists s d, order_date r = Some s /\ parse_iso s = Some d) ->
  bucket (fun _ => true) df = silver.
Proof.
  intros [Hfst Hd] Hall; rewrite <- Hfst; unfold bucket.
  f_equal; apply filter_all.
  intros [r d] Hin; simpl.
  destruct (Hall r) as (s & d' & Hs & Hp);
    [rewrite <- Hfst; apply (in_map fst _ _ Hin) |].
  specialize (Hd r d Hin); rewrite Hs in Hd.
  rewrite (Hd d' Hp); reflexivity.
Qed.

Lemma trend_rows_quantity period df :
  map t_quantity (trend_rows period df)
  = map (fun k => sum_int64
                    (map (fun rd => quantity (fst rd))
                       (group_rows pair_eqb
                          (fun r : sales * date =>
                             (year (snd r), period (snd r)))
                          (dropna df) k)))
      (group_keys pair_eqb pair_leb
         (fun r : sales * date => (year (snd r), period (snd r)))
         (dropna df)).
Proof. unfold trend_rows, groupby_agg; rewrite !map_map; reflexivity. Qed.

Lemma trend_rows_conserve period df :
  StronglySorted pair_lt (trend_keys (trend_rows period df)) /\
  wrap64 (exact_sum (map t_quantity (trend_rows period df)))
  = wrap64 (exact_sum (map quantity (bucket (fun _ => true) df))).
Proof.
  split; [rewrite trend_rows_keys; apply group_keys_pair_increasing |].
  rewrite trend_rows_quantity, <- map_fst_dropna, map_map.
  apply (sum_int64_groups pair_eqb pair_leb pair_eqb_eq
           (fun r : sales * date => (year (snd r), period (snd r)))
           (fun rd => quantity (fst rd))).
Qed.

(** X4: the rows of [gold_sales_trends_monthly] and of
    [gold_sales_trends_quarterly] come in chronological order, one per
    period, and in each table the quantities add up, on 64 bits, to the
    quantity of the rows of [silver_sales] that have a date: to the
    quantity of all rows when every [order_date] is a written date. *)
Theorem trend_tables_conserve :
  forall (P : PandasLib), PandasLaws P ->
  forall s silver,
    silver_sales s = Some silver ->
    (forall s',
       process_sales_trends_monthly s = Ok s' ->
       exists df out,
         with_order_date silver = Ok df /\
         gold_sales_trends_monthly s' = Some out /\
         StronglySorted pair_lt (trend_keys out) /\
         wrap64 (exact_sum (map t_quantity out))
         = wrap64 (exact_sum (map quantity (bucket (fun _ => true) df))) /\
         ((forall r, In r silver ->
             exists st d, order_date r = Some st /\ parse_iso st = Some d) ->
          wrap64 (exact_sum (map t_quantity out))
          = wrap64 (exact_sum (map quantity silver)))) /\
    (forall s',
       process_sales_trends_quarterly s = Ok s' ->
       exists df out,
         with_order_date silver = Ok df /\
         gold_sales_trends_quarterly s' = Some out /\
         StronglySorted pair_lt (trend_keys out) /\
         wrap64 (exact_sum (map t_quantity out))
         = wrap64 (exact_sum (map quantity (bucket (fun _ => true) df))) /\
         ((forall r, In r silver ->
             exists st d, order_date r = Some st /\ parse_iso st = Some d) ->
          wrap64 (exact_sum (map t_quantity out))
          = wrap64 (exact_sum (map quantity silver)))).
Proof.
  intros P L s silver Hs.
  unfold process_sales_trends_monthly, process_sales_trends_quarterly.
  rewrite (load_from_db_Some T_silver_sales s silver Hs); simpl.
  split; intros s' H;
    destruct (with_order_date silver) as [df |] eqn:Hdf;
    try discriminate H; simpl in H; injection H as <-;
    pose proof (with_order_date_Ok L silver df Hdf) as Hd;
    eexists; eexists; (split; [reflexivity |]); (split; [reflexivity |]);
    (split; [apply trend_rows_conserve |]);
    (split; [apply trend_rows_conserve |]);
    intros Hall;
    rewrite <- (bucket_all silver df Hd Hall);
    apply trend_rows_conserve.
Qed.

Lemma trend_tables_conserve_witness :
  exists s' out,
    process_sales_trends_monthly (P := stable_pandas) store_undated = Ok s' /\
    gold_sales_trends_monthly s' = Some out /\
    trend_keys out = [(2024, 2); (2024, 3); (2024, 4)] /\
    exact_sum (map t_quantity out) = 9.
Proof.
  destruct (trend_tables_conserve stable_pandas stable_pandas_laws
              store_undated _ eq_refl) as [H _].
  eexists; destruct (H _ eq_refl) as (df & out & _ & H1 & _).
  exists out; split; [reflexivity |].
  split; [exact H1 |].
  vm_compute in H1; injection H1 as <-; split; reflexivity.
Defined.

Section RestrictedSums.
Context {A K : Type}.
Variable eqb : K -> K -> bool.
Variable leb : K -> K -> bool.
Hypothesis eqb_eq : forall a b, eqb a b = true <-> a = b.
Variable key : A -> K.
Variable p : K -> bool.

(** The rows of a group all pass a condition on the key that the key of the
    group passes. *)
Lemma group_rows_restrict rows k :
  p k = true ->
  group_rows eqb key (filter (fun r => p (key r)) rows) k
  = group_rows eqb key rows k.
Proof.
  intros Hk; unfold group_rows; induction rows as [| r rows IH];
    simpl; [reflexivity |].
  destruct (p (key r)) eqn:Ep; simpl; destruct (eqb (key r) k) eqn:E;
    rewrite ?IH; try reflexivity.
  apply eqb_eq in E; rewrite E, Hk in Ep; discriminate Ep.
Qed.

Lemma restricted_keys rows :
  NoDup (filter p (group_keys eqb leb key rows)) /\
  forall r, In r (filter (fun r => p (key r)) rows) ->
            In (key r) (filter p (group_keys eqb leb key rows)).
Proof.
  split; [apply NoDup_filter, NoDup_group_keys, eqb_eq |].
  intros r Hr; apply filter_In in Hr as [Hr Hp].
  apply filter_In; split; [| exact Hp].
  apply in_key_group_keys; assumption.
Qed.

Lemma exact_sum_groups_restrict (f : A -> Z) rows :
  exact_sum (map (fun k => exact_sum (map f (group_rows eqb key rows k)))
               (filter p (group_keys eqb leb key rows)))
  = exact_sum (map f (filter (fun r => p (key r)) rows)).
Proof.
  destruct (restricted_keys rows) as [Hnd Hin].
  rewrite <- (exact_sum_groups eqb eqb_eq key f _ _ Hnd Hin).
  f_equal; apply map_ext_in; intros k Hk.
  apply filter_In in Hk as [_ Hk].
  rewrite group_rows_restrict by exact Hk; reflexivity.
Qed.

Lemma sum_int64_groups_restrict (f : A -> Z) rows :
  wrap64 (exact_sum (map (fun k => sum_int64
                                     (map f (group_rows eqb key rows k)))
                       (filter p (group_keys eqb leb key rows))))
  = wrap64 (exact_sum (map f (filter (fun r => p (key r)) rows))).
Proof.
  rewrite (map_ext _ (fun k => wrap64 (exact_sum
                                         (map f (group_rows eqb key rows k)))))
    by (intros k; apply sum_int64_wraps).
  rewrite (wrap64_exact_sum_map
             (fun k => exact_sum (map f (group_rows eqb key rows k)))).
  rewrite exact_sum_groups_restrict; reflexivity.
Qed.
End RestrictedSums.

Lemma months_of_quarter_quantity y k df :
  wrap64 (exact_sum (map t_quantity
                       (months_of_quarter y k (trend_rows month df))))
  = wrap64 (exact_sum (map quantity (bucket (in_quarter y k) df))).
Proof.
  unfold months_of_quarter, trend_rows, groupby_agg.
  rewrite map_map, filter_map_comm, map_map; cbn [t_quantity t_year t_period].
  rewrite <- (map_fst_filter_dropna (in_quarter y k) df), map_map.
  apply (sum_int64_groups_restrict pair_eqb pair_leb pair_eqb_eq
           (fun r : sales * date => (year (snd r), month (snd r)))
           (fun key => (fst key =? y) && (3 * k - 2 <=? snd key)
                       && (snd key <=? 3 * k))
           (fun rd => quantity (fst rd))).
Qed.

(** X5: the quarterly table is the monthly table summed by quarter: on
    64 bits, the quantity of every row of [gold_sales_trends_quarterly] is
    the sum of the quantities of the rows of [gold_sales_trends_monthly] of
    the same year whose month is one of the three months of that quarter. *)
Theorem quarterly_sums_monthly :
  forall (P : PandasLib), PandasLaws P ->
  forall s silver s1 s2 monthly quarterly,
    silver_sales s = Some silver ->
    process_sales_trends_monthly s = Ok s1 ->
    process_sales_trends_quarterly s = Ok s2 ->
    gold_sales_trends_monthly s1 = Some monthly ->
    gold_sales_trends_quarterly s2 = Some quarterly ->
    forall row, In row quarterly ->
      t_quantity row
      = wrap64 (exact_sum
                  (map t_quantity
                     (months_of_quarter (t_year row) (t_period row) monthly))).
Proof.
  intros P L s silver s1 s2 monthly quarterly Hs H1 H2 Hm Hq row Hrow.
  unfold process_sales_trends_monthly, process_sales_trends_quarterly in *.
  rewrite (load_from_db_Some T_silver_sales s silver Hs) in H1, H2.
  simpl in H1, H2.
  destruct (with_order_date silver) as [df |]; [| discriminate H1].
  simpl in H1, H2; injection H1 as <-; injection H2 as <-.
  simpl in Hm, Hq; injection Hm as <-; injection Hq as <-.
  destruct row as [y k q t].
  apply (in_trend_rows quarter in_quarter quarter_key) in Hrow
    as (_ & -> & _); simpl.
  symmetry; apply months_of_quarter_quantity.
Qed.

Lemma quarterly_sums_monthly_witness :
  8 = wrap64 (exact_sum
                (map t_quantity
                   (months_of_quarter 2024 1
                      [mk_trend 2024 2 3 (dec 25); mk_trend 2024 3 5 (dec 25);
                       mk_trend 2024 4 3 (dec 15)]))).
Proof.
  apply (quarterly_sums_monthly stable_pandas stable_pandas_laws
           store_products _ _ _ _ _ eq_refl eq_refl eq_refl eq_refl eq_refl
           (mk_trend 2024 1 8 (dec 50))).
  left; reflexivity.
Defined.

(** ** The aggregators on an empty [silver_sales] *)

Lemma sort_values_nil {P : PandasLib} (L : PandasLaws P) {A : Type}
    (by_ : A -> Z) ascending kind :
  sort_values by_ ascending kind [] = [].
Proof.
  apply Permutation_nil, (sort_values_perm P L).
Qed.

Lemma with_order_date_nil {P : PandasLib} (L : PandasLaws P) :
  with_order_date [] = Ok [].
Proof.
  unfold with_order_date; simpl.
  destruct (to_datetime_iso P L [] (Forall_nil _)) as (ds & E).
  rewrite E; simpl.
  apply (to_datetime_rows P L) in E; inversion E; reflexivity.
Qed.

(** X6: when no order survives the join, so that [silver_sales] exists but
    has no row, each of the seven aggregators succeeds and replaces its
    table by an empty one. *)
Theorem aggregators_on_empty_silver :
  forall (P : PandasLib), PandasLaws P ->
  forall s,
    silver_sales s = Some [] ->
    (exists s', process_total_sales s = Ok s' /\
                gold_total_sales_by_customer s' = Some []) /\
    (exists s', process_avg_order_quantity s = Ok s' /\
                gold_avg_order_quantity_per_product s' = Some []) /\
    (exists s', process_top_selling_products s = Ok s' /\
                gold_top_selling_products s' = Some []) /\
    (exists s', process_top_selling_customers s = Ok s' /\
                gold_top_selling_customers s' = Some []) /\
    (exists s', process_sales_trends_monthly s = Ok s' /\
                gold_sales_trends_monthly s' = Some []) /\
    (exists s', process_sales_trends_quarterly s = Ok s' /\
                gold_sales_trends_quarterly s' = Some []) /\
    (exists s', process_sales_per_weather_condition s = Ok s' /\
                gold_sales_per_weather_condition s' = Some []).
Proof.
  intros P L s Hs.
  unfold process_total_sales, process_avg_order_quantity,
    process_top_selling_products, process_top_selling_customers,
    process_sales_trends_monthly, process_sales_trends_quarterly,
    process_sales_per_weather_condition.
  rewrite (load_from_db_Some T_silver_sales s [] Hs); simpl.
  rewrite (with_order_date_nil L); simpl.
  unfold groupby_agg, group_keys; simpl.
  rewrite !(sort_values_nil L); simpl.
  repeat split; eexists; split; reflexivity.
Qed.

Lemma aggregators_on_empty_silver_witness :
  exists s',
    process_top_selling_customers (P := stable_pandas) store_no_sales = Ok s' /\
    gold_top_selling_customers s' = Some [].
Proof.
  destruct (aggregators_on_empty_silver stable_pandas stable_pandas_laws
              store_no_sales eq_refl) as (_ & _ & _ & H & _).
  exact H.
Defined.

(** ** More on the weather extractor *)

Lemma mapM_unwrap_weather_Ok ds rows :
  mapM unwrap_weather ds = Ok rows ->
  map w_customer_id rows = map fst ds /\
  Forall (fun d => weather (snd d) <> []) ds.
Proof.
  revert rows; induction ds as [| d ds IH]; simpl; intros rows H.
  - injection H as <-; split; [reflexivity | constructor].
  - apply bind_Ok in H as (w & Hw & H).
    apply bind_Ok in H as (ws & Hws & H); injection H as <-.
    destruct (IH ws Hws) as [E F].
    unfold unwrap_weather in Hw.
    destruct (weather (snd d)) as [| e es] eqn:Ee; [discriminate Hw |].
    injection Hw as <-; simpl; rewrite E.
    split; [reflexivity |].
    constructor; [rewrite Ee; discriminate | exact F].
Qed.

Lemma mapM_unwrap_weather_Err ds e :
  mapM unwrap_weather ds = Err e -> e = IndexError.
Proof.
  induction ds as [| d ds IH]; simpl; intros H; [discriminate H |].
  unfold unwrap_weather at 1 in H.
  destruct (weather (snd d)); simpl in H; [congruence |].
  destruct (mapM unwrap_weather ds); simpl in H; [discriminate H |].
  apply IH; congruence.
Qed.

Lemma NoDup_map_filter {A B : Type} (f : A -> B) (p : A -> bool) l :
  NoDup (map f l) -> NoDup (map f (filter p l)).
Proof.
  induction l as [| a l IH]; simpl; intros H; [constructor |].
  inversion H as [| b l' Hnotin Hnd]; subst.
  destruct (p a); simpl; [constructor |]; auto.
  intros Hin; apply Hnotin.
  apply in_map_iff in Hin as (x & E & Hx); apply filter_In in Hx as [Hx _].
  rewrite <- E; apply in_map; exact Hx.
Qed.

(** X7: whenever [fetch_weather] succeeds, [bronze_weather] is not empty
    and holds, in the order of [bronze_customers], one row for each customer
    row whose lookup answered with status 200 and no other row; every
    weather row carries the id of a customer row, the ids are distinct when
    the customer ids are, and [bronze_customers] is left as it was. *)
Theorem fetch_weather_rows :
  forall src s s',
    fetch_weather src s = Ok s' ->
    exists customers rows,
      bronze_customers s = Some customers /\
      bronze_customers s' = Some customers /\
      bronze_weather s' = Some rows /\
      rows <> [] /\
      map w_customer_id rows = map c_id (filter (lookup_ok src) customers) /\
      (forall w, In w rows -> appears c_id customers (w_customer_id w)) /\
      (NoDup (map c_id customers) -> NoDup (map w_customer_id rows)).
Proof.
  intros src s s' H; unfold fetch_weather in H.
  apply bind_Ok in H as (customers & Hc & H); apply load_from_db_Ok in Hc.
  apply bind_Ok in H as (rows & Hw & H).
  unfold weather_list1 in Hw; rewrite filter_None_get_weather in Hw.
  apply mapM_unwrap_weather_Ok in Hw as [Hids _].
  rewrite map_map in Hids; simpl in Hids.
  destruct rows as [| r rows]; [discriminate H |].
  simpl in H; injection H as <-.
  exists customers, (r :: rows).
  split; [exact Hc |].
  split; [exact Hc |].
  split; [reflexivity |].
  split; [discriminate |].
  split; [exact Hids |].
  split.
  - intros w Hin.
    apply (in_map w_customer_id) in Hin; rewrite Hids in Hin.
    apply in_map_iff in Hin as (c & E & Hin).
    apply filter_In in Hin as [Hin _]; exists c; split; assumption.
  - intros Hnd; rewrite Hids; apply NoDup_map_filter; exact Hnd.
Qed.

Lemma fetch_weather_rows_witness :
  exists s2 rows,
    fetch_transform_write src_ex empty_store = Ok store_ex_customers /\
    fetch_weather src_ex store_ex_customers = Ok s2 /\
    bronze_weather s2 = Some rows /\
    map w_customer_id rows = [1; 3].
Proof.
  eexists.
  destruct (fetch_weather_rows src_ex store_ex_customers _ eq_refl)
    as (customers & rows & H1 & _ & H3 & _ & H5 & _).
  exists rows; split; [reflexivity |].
  split; [reflexivity |].
  split; [exact H3 |].
  injection H1 as <-; exact H5.
Defined.

(** X8: one lookup that answers with status 200 and an empty [weather]
    list makes the whole task fail with [IndexError], whatever the other
    lookups gave: [bronze_weather] is not written. *)
Theorem fetch_weather_empty_weather_entry :
  forall src s customers c,
    bronze_customers s = Some customers ->
    In c customers ->
    lookup_ok src c = true ->
    weather (json (weather_api src (c_address_geo_lat c)
                     (c_address_geo_lng c))) = [] ->
    fetch_weather src s = Err IndexError.
Proof.
  intros src s customers c Hc Hin Hok Hempty; unfold fetch_weather.
  rewrite (load_from_db_Some T_bronze_customers s customers Hc); simpl.
  unfold weather_list1; rewrite filter_None_get_weather.
  destruct (mapM unwrap_weather _) as [rows | e] eqn:E.
  - apply mapM_unwrap_weather_Ok in E as [_ F].
    exfalso.
    apply (proj1 (Forall_forall _ _) F
             (c_id c, json (weather_api src (c_address_geo_lat c)
                              (c_address_geo_lng c)))); [| exact Hempty].
    apply in_map_iff; exists c; split; [reflexivity |].
    apply filter_In; split; assumption.
  - simpl; rewrite (mapM_unwrap_weather_Err _ _ E); reflexivity.
Qed.

Lemma fetch_weather_empty_weather_entry_witness :
  fetch_transform_write src_no_entry empty_store
  = Ok store_no_entry_customers /\
  fetch_weather src_no_entry store_no_entry_customers = Err IndexError.
Proof.
  split; [reflexivity |].
  apply (fetch_weather_empty_weather_entry src_no_entry
           store_no_entry_customers _
           (mk_customer 2 "Ervin Howell" "-43.9509" "-34.4618") eq_refl).
  - right; left; reflexivity.
  - reflexivity.
  - reflexivity.
Defined.

(** ** More on the reconciler *)

Lemma count_le_1 {A : Type} (f : A -> Z) (x : Z) l :
  NoDup (map f l) -> Nat.le (count (fun a => f a =? x) l) 1.
Proof.
  unfold count; induction l as [| a l IH]; simpl; intros H; [lia |].
  inversion H as [| b l' Hnotin Hnd]; subst.
  destruct (Z.eqb_spec (f a) x) as [E | E]; [| apply IH; exact Hnd].
  rewrite filter_none; [simpl; lia |].
  intros b Hb; apply Z.eqb_neq; intros E'.
  apply Hnotin; rewrite E, <- E'; apply in_map; exact Hb.
Qed.

Lemma existsb_count {A : Type} (p : A -> bool) l :
  existsb p l = negb (Nat.eqb (count p l) 0).
Proof.
  unfold count; induction l as [| a l IH]; simpl; [reflexivity |].
  destruct (p a); simpl; [reflexivity | exact IH].
Qed.

Lemma map_constant {A B : Type} (f : A -> B) (b : B) l :
  (forall a, In a l -> f a = b) -> map f l = repeat b (List.length l).
Proof.
  induction l as [| a l IH]; simpl; intros H; [reflexivity |].
  rewrite (H a (or_introl eq_refl)), IH; [reflexivity |].
  intros x Hx; apply H; right; exact Hx.
Qed.

(** With distinct ids an order gives one silver row if it is matched and
    none otherwise. *)
Lemma order_of_order_rows customers weather o :
  NoDup (map c_id customers) ->
  NoDup (map w_customer_id weather) ->
  map order_of (order_rows customers weather o)
  = if matched customers weather o then [o] else [].
Proof.
  intros Hc Hw.
  rewrite (map_constant order_of o).
  - rewrite length_order_rows; unfold matched; rewrite !existsb_count.
    pose proof (count_le_1 c_id (o_customer_id o) customers Hc) as H1.
    pose proof (count_le_1 w_customer_id (o_customer_id o) weather Hw) as H2.
    destruct (count (fun c => c_id c =? o_customer_id o) customers)
      as [| [| n]]; [reflexivity | | lia].
    destruct (count (fun w => w_customer_id w =? o_customer_id o) weather)
      as [| [| m]]; [reflexivity | reflexivity | lia].
  - intros r Hr.
    apply in_etl_sales_query in Hr
      as (o' & c & w & [<- | []] & _ & _ & _ & _ & ->).
    destruct o; reflexivity.
Qed.

Lemma order_of_etl_sales_query orders customers weather :
  NoDup (map c_id customers) ->
  NoDup (map w_customer_id weather) ->
  Permutation (map order_of (etl_sales_query orders customers weather))
    (filter (matched customers weather) orders).
Proof.
  intros Nc Nw.
  induction orders as [| o orders IH]; [constructor |].
  rewrite etl_sales_query_cons, map_app.
  rewrite (order_of_order_rows customers weather o Nc Nw); simpl.
  destruct (matched customers weather o); simpl;
    [constructor; exact IH | exact IH].
Qed.

(** X9: when the customer ids of [bronze_customers] are distinct and those
    of [bronze_weather] are distinct, the join neither repeats nor drops a
    matched order: as a bag, the order columns of [silver_sales] are the
    rows of [bronze_orders] that have a customer row and a weather row, each
    as many times as [bronze_orders] has it. *)
Theorem etl_sales_keeps_matched_orders :
  forall s orders customers weather,
    bronze_orders s = Some orders ->
    bronze_customers s = Some customers ->
    bronze_weather s = Some weather ->
    NoDup (map c_id customers) ->
    NoDup (map w_customer_id weather) ->
    exists silver s',
      etl_sales s = Ok s' /\ silver_sales s' = Some silver /\
      Permutation (map order_of silver)
        (filter (matched customers weather) orders).
Proof.
  intros s orders customers weather Ho Hc Hw Nc Nw.
  exists (etl_sales_query orders customers weather).
  eexists; split; [apply etl_sales_tables; eassumption |].
  split; [reflexivity |].
  apply order_of_etl_sales_query; assumption.
Qed.

Lemma etl_sales_keeps_matched_orders_witness :
  exists silver s',
    etl_sales store_ex1 = Ok s' /\ silver_sales s' = Some silver /\
    Permutation (map order_of silver)
      [mk_order 1 "A" 2 (dec 10) (Some "2024-02-15");
       mk_order 1 "A" 4 (dec 10) (Some "2024-03-01")].
Proof.
  apply (etl_sales_keeps_matched_orders store_ex1 _ _ _
           eq_refl eq_refl eq_refl).
  - repeat constructor; simpl; intuition discriminate.
  - repeat constructor; simpl; intuition discriminate.
Defined.

(** X10: from the customer API to [silver_sales].  When the two extractors,
    the order loader and the reconciler succeed one after the other, a
    customer appears in [silver_sales] exactly when the order file has an
    order of that customer, the customer API returned a user with that id,
    and the weather lookup at that user's location answered with status
    200. *)
Theorem silver_sales_end_to_end :
  forall src s0 s1 s2 s3 s4,
    fetch_transform_write src s0 = Ok s1 ->
    fetch_weather src s1 = Ok s2 ->
    load_csv src s2 = Ok s3 ->
    etl_sales s3 = Ok s4 ->
    exists users orders silver,
      users_api src = Ok users /\
      sales_data_csv src = Ok orders /\
      silver_sales s4 = Some silver /\
      forall C,
        appears customer_id silver C <->
        appears o_customer_id orders C /\
        exists c, In c users /\ c_id c = C /\ lookup_ok src c = true.
Proof.
  intros src s0 s1 s2 s3 s4 H1 H2 H3 H4.
  apply fetch_transform_write_Ok in H1 as (users & Hu & ->).
  destruct (fetch_weather_Ok _ _ _ H2) as (users' & rows & Hc & Hw & ->).
  simpl in Hc; injection Hc as <-.
  unfold weather_list1 in Hw; rewrite filter_None_get_weather in Hw.
  apply mapM_unwrap_weather_Ok in Hw as [Hids _].
  rewrite map_map in Hids; simpl in Hids.
  apply load_csv_Ok in H3 as (orders & Ho & ->).
  apply etl_sales_Ok in H4 as (o & c & w & Eo & Ec & Ew & ->).
  simpl in Eo, Ec, Ew.
  injection Eo as <-; injection Ec as <-; injection Ew as <-.
  exists users, orders, (etl_sales_query orders users rows).
  split; [exact Hu |].
  split; [exact Ho |].
  split; [reflexivity |].
  intros C; rewrite appears_etl_sales_query.
  assert (Hrows : appears w_customer_id rows C <->
                  exists c, In c users /\ c_id c = C /\ lookup_ok src c = true).
  { split.
    - intros (r & Hr & <-).
      apply (in_map w_customer_id) in Hr; rewrite Hids in Hr.
      apply in_map_iff in Hr as (c & E & Hc).
      apply filter_In in Hc as [Hc Hok]; eauto.
    - intros (c & Hc & <- & Hok).
      assert (Hin : In (c_id c) (map w_customer_id rows)).
      { rewrite Hids; apply in_map, filter_In; split; assumption. }
      apply in_map_iff in Hin as (r & E & Hr); exists r; split; assumption. }
  rewrite Hrows; split.
  - intros (H1 & _ & H3); split; assumption.
  - intros (H1 & c & Hc & E & Hok); split; [exact H1 |].
    split; [exists c; split; assumption | eauto].
Qed.

Lemma silver_sales_end_to_end_witness :
  exists s2 s3 s4 silver,
    fetch_transform_write src_ex empty_store = Ok store_ex_customers /\
    fetch_weather src_ex store_ex_customers = Ok s2 /\
    load_csv src_ex s2 = Ok s3 /\
    etl_sales s3 = Ok s4 /\
    silver_sales s4 = Some silver /\
    appears customer_id silver 3 /\ ~ appears customer_id silver 2.
Proof.
  destruct (fetch_weather src_ex store_ex_customers) as [s2 | e] eqn:E2;
    [| vm_compute in E2; discriminate E2].
  assert (E2' := E2); vm_compute in E2'; injection E2' as <-.
  match type of E2 with
  | _ = Ok ?s =>
      destruct (load_csv src_ex s) as [s3 | e] eqn:E3;
        [| vm_compute in E3; discriminate E3]
  end.
  assert (E3' := E3); vm_compute in E3'; injection E3' as <-.
  match type of E3 with
  | _ = Ok ?s =>
      destruct (etl_sales s) as [s4 | e] eqn:E4;
        [| vm_compute in E4; discriminate E4]
  end.
  destruct (silver_sales_end_to_end src_ex empty_store _ _ _ _
              eq_refl E2 E3 E4) as (users & orders & silver & Hu & Ho & Hs & H).
  injection Hu as <-; injection Ho as <-.
  eexists; eexists; exists s4, silver.
  split; [reflexivity |].
  split; [reflexivity |].
  split; [exact E3 |].
  split; [exact E4 |].
  split; [exact Hs |].
  split.
  - apply H; split.
    + eexists; split; [right; right; left; reflexivity | reflexivity].
    + eexists; split; [right; right; left; reflexivity |].
      split; reflexivity.
  - intros Happ; apply H in Happ as (_ & c & Hc & E & Hok).
    destruct Hc as [<- | [<- | [<- | []]]]; discriminate.
Defined.

(** ** Task instances run once *)

Section RunsOnce.
Context {P : PandasLib}.
Variable g : graph.
Variable src : sources.

Lemma fire_all_once es :
  forall r r',
    fire_all g src es r = Some r' ->
    NoDup es /\
    (forall t, ti_state r t <> no_status ->
       ~ In (Start t) es /\ ti_state r' t <> no_status) /\
    (forall t, ti_state r t = success \/ ti_state r t = failed ->
       ~ In (Finish t) es /\ ti_state r' t = ti_state r t) /\
    (forall t, In (Start t) es -> ti_state r' t <> no_status) /\
    (forall t, In (Finish t) es ->
       ti_state r' t = success \/ ti_state r' t = failed).
Proof.
  induction es as [| e es IH]; intros r r' H.
  - injection H as <-.
    split; [constructor |].
    split; [intros t Ht; split; [intros [] | exact Ht] |].
    split; [intros t Ht; split; [intros [] | reflexivity] |].
    split; intros t [].
  - simpl in H; destruct (fire g src e r) as [r1 |] eqn:E; [| discriminate H].
    destruct (IH r1 r' H) as (Hnd & Hstart & Hfin & Hs & Hf).
    destruct e as [t0 | t0].
    + apply fire_Start in E as (H0 & _ & ->); simpl in *.
      assert (Ht0 : ~ In (Start t0) es /\ ti_state r' t0 <> no_status)
        by (apply Hstart; rewrite set_state_same; discriminate).
      split; [constructor; [apply Ht0 | exact Hnd] |].
      split; [| split; [| split]].
      * intros t Ht.
        assert (Hne : t <> t0) by (intros ->; contradiction).
        destruct (Hstart t) as [H1 H2];
          [rewrite set_state_other by exact Hne; exact Ht |].
        split; [| exact H2].
        intros [E | Hin]; [injection E as ->; contradiction | contradiction].
      * intros t Ht.
        assert (Hne : t <> t0)
          by (intros ->; rewrite H0 in Ht; destruct Ht; discriminate).
        destruct (Hfin t) as [H1 H2];
          [rewrite set_state_other by exact Hne; exact Ht |].
        rewrite set_state_other in H2 by exact Hne.
        split; [| exact H2].
        intros [E | Hin]; [discriminate E | contradiction].
      * intros t [E | Hin]; [injection E as <-; apply Ht0 | apply Hs, Hin].
      * intros t [E | Hin]; [discriminate E | apply Hf, Hin].
    + apply fire_Finish in E as (H0 & Hres).
      assert (Hr1 : ti_state r1 t0 = success \/ ti_state r1 t0 = failed)
        by (destruct Hres as [(s' & _ & ->) | (e & _ & ->)]; simpl;
            rewrite set_state_same; auto).
      assert (Hother : forall t, t <> t0 -> ti_state r1 t = ti_state r t)
        by (intros t Hne;
            destruct Hres as [(s' & _ & ->) | (e & _ & ->)]; simpl;
            apply set_state_other; exact Hne).
      destruct (Hfin t0 Hr1) as [Hnot Hsame].
      split; [constructor; assumption |].
      split; [| split; [| split]].
      * intros t Ht.
        destruct (Hstart t) as [H1 H2].
        { destruct (task_eqb t t0) eqn:Et.
          - apply task_eqb_eq in Et; subst t.
            destruct Hr1 as [-> | ->]; discriminate.
          - rewrite Hother; [exact Ht |].
            intros ->; rewrite task_eqb_refl in Et; discriminate Et. }
        split; [| exact H2].
        intros [E | Hin]; [discriminate E | contradiction].
      * intros t Ht.
        assert (Hne : t <> t0)
          by (intros ->; rewrite H0 in Ht; destruct Ht; discriminate).
        destruct (Hfin t) as [H1 H2]; [rewrite Hother by exact Hne; exact Ht |].
        rewrite Hother in H2 by exact Hne.
        split; [| exact H2].
        intros [E | Hin]; [injection E as ->; contradiction | contradiction].
      * intros t [E | Hin]; [discriminate E | apply Hs, Hin].
      * intros t [E | Hin]; [| apply Hf, Hin].
        injection E as <-; rewrite Hsame; exact Hr1.
Qed.
End RunsOnce.

(** X11: in a DAG run, under any dependency graph, no task instance is
    started twice or finished twice; a task that was started never returns
    to having no state, and one that finished holds its outcome, success or
    failure, to the end of the run. *)
Theorem task_instances_run_once :
  forall (P : PandasLib) g src s es r,
    fire_all g src es (new_run s) = Some r ->
    NoDup es /\
    (forall t, In (Start t) es -> ti_state r t <> no_status) /\
    (forall t, In (Finish t) es ->
       ti_state r t = success \/ ti_state r t = failed) /\
    (forall es' r',
       fire_all g src es' r = Some r' ->
       forall t,
         (ti_state r t <> no_status -> ~ In (Start t) es') /\
         (ti_state r t = success -> ti_state r' t = success) /\
         (ti_state r t = failed -> ti_state r' t = failed)).
Proof.
  intros P g src s es r H.
  destruct (fire_all_once g src es _ _ H) as (Hnd & _ & _ & Hs & Hf).
  split; [exact Hnd |].
  split; [exact Hs |].
  split; [exact Hf |].
  intros es' r' H' t.
  destruct (fire_all_once g src es' _ _ H') as (_ & Hstart & Hfin & _ & _).
  split; [intros Ht; apply (Hstart t Ht) |].
  split; intros Ht; destruct (Hfin t) as [_ E]; auto; rewrite E; exact Ht.
Qed.

Lemma task_instances_run_once_witness :
  exists r,
    fire_all (P := stable_pandas) dag src_ex
      [Start op_test_connection; Finish op_test_connection;
       Start fetch_customer_from_api; Finish fetch_customer_from_api]
      (new_run empty_store) = Some r /\
    ti_state r fetch_customer_from_api = success.
Proof.
  eexists; split; [reflexivity |].
  destruct (task_instances_run_once stable_pandas dag src_ex empty_store
              [Start op_test_connection; Finish op_test_connection;
               Start fetch_customer_from_api; Finish fetch_customer_from_api]
              _ eq_refl) as (_ & _ & Hf & _).
  destruct (Hf fetch_customer_from_api) as [E | E];
    [right; right; right; left; reflexivity | exact E | discriminate E].
Defined.

(** ** Each table has one writer *)

(** A task body that succeeds leaves the table of every other task as it
    was. *)
Lemma task_writes_own_table {P : PandasLib} t src s s' :
  python_callable t src s = Ok s' ->
  forall t', t' <> t -> table_of t' s' = table_of t' s.
Proof.
  intros H; destruct t; simpl in H;
    [injection H as <-
    | apply fetch_transform_write_Ok in H as (c & _ & ->)
    | apply fetch_weather_Ok in H as (c & w & _ & _ & ->)
    | apply load_csv_Ok in H as (o & _ & ->)
    | apply etl_sales_Ok in H as (o & c & w & _ & _ & _ & ->)
    | | | | | | | ];
    try (unfold process_total_sales, process_avg_order_quantity,
           process_top_selling_products, process_top_selling_customers,
           process_sales_trends_monthly, process_sales_trends_quarterly,
           process_sales_per_weather_condition in H; gold_inv);
    intros t' Hne; destruct t'; try reflexivity; contradiction Hne; reflexivity.
Qed.

Section Writers.
Context {P : PandasLib}.
Variable g : graph.
Variable src : sources.
Variable s : store.

Lemma written_by_owner r :
  reachable g src s r ->
  forall t, ti_state r t <> success -> table_of t (db r) = table_of t s.
Proof.
  induction 1 as [| r e r' Hr IH Hfire]; intros t Ht; [reflexivity |].
  destruct e as [t0 | t0].
  - apply (fire_Start g src) in Hfire as (H0 & _ & ->); simpl in *.
    apply IH; unfold set_state in Ht.
    destruct (task_eqb t t0) eqn:E; [| exact Ht].
    apply task_eqb_eq in E; subst t; rewrite H0; discriminate.
  - apply (fire_Finish g src) in Hfire
      as (H0 & [(s' & Hok & ->) | (e & _ & ->)]);
      simpl in *; unfold set_state in Ht;
      destruct (task_eqb t t0) eqn:E;
      try (apply task_eqb_eq in E; subst t).
    + contradiction Ht; reflexivity.
    + rewrite (task_writes_own_table t0 src (db r) s' Hok);
        [apply IH; exact Ht |].
      intros ->; rewrite task_eqb_refl in E; discriminate E.
    + apply IH; rewrite H0; discriminate.
    + apply IH; exact Ht.
Qed.
End Writers.

(** X12: at any moment of a DAG run, under any dependency graph and any
    interleaving of the tasks, the table of a task that has not succeeded
    holds what it held before the run: a table is written by its own task
    only, and only when that task succeeds. *)
Theorem tables_written_by_owner_only :
  forall (P : PandasLib) g src s r,
    reachable g src s r ->
    forall t, ti_state r t <> success -> table_of t (db r) = table_of t s.
Proof. intros P g src s r Hr; apply (written_by_owner g src s r Hr). Qed.

Lemma tables_written_by_owner_only_witness :
  table_of po_process_total_sales
    (db (run_schedule (P := stable_pandas) dag src_unauthorized all_tasks
           (new_run store_total_sales)))
  = table_of po_process_total_sales store_total_sales.
Proof.
  apply (tables_written_by_owner_only stable_pandas dag src_unauthorized
           store_total_sales).
  - apply reachable_run_schedule, reachable_new.
  - vm_compute; discriminate.
Defined.

Lemma etl_sales_after_connection_test {P : PandasLib} src s r :
  reachable dag src s r ->
  ti_state r po_etl_sales <> no_status ->
  forall b, In b (op_test_connection :: bronze_tasks) ->
            ti_state r b = success.
Proof.
  intros Hr H b [<- | Hb]; [| apply (etl_sales_after_bronze src s r Hr H b Hb)].
  apply (started_after_upstream dag src s r Hr fetch_customer_from_api);
    [| in_list].
  rewrite (etl_sales_after_bronze src s r Hr H fetch_customer_from_api)
    by in_list.
  discriminate.
Qed.

(** X13: in a run of the declared graph, as long as the connection test or
    one of the three bronze tasks has not succeeded, the reconciler and the
    seven aggregators have not started, and [silver_sales] and the gold
    tables are those of the run before. *)
Theorem unfinished_bronze_leaves_stale_tables :
  forall (P : PandasLib) src s r,
    reachable dag src s r ->
    forall b, In b (op_test_connection :: bronze_tasks) ->
      ti_state r b <> success ->
      ti_state r po_etl_sales = no_status /\
      (forall t, In t gold_tasks -> ti_state r t = no_status) /\
      silver_sales (db r) = silver_sales s /\
      gold_tables (db r) = gold_tables s.
Proof.
  intros P src s r Hr b Hb Hns.
  pose proof (started_after_upstream dag src s r Hr) as Hgate.
  assert (He : ti_state r po_etl_sales = no_status).
  { destruct (ti_state r po_etl_sales) eqn:E; [reflexivity | | |];
      exfalso; apply Hns;
      apply (etl_sales_after_connection_test src s r Hr); try exact Hb;
      rewrite E; discriminate. }
  assert (Hg : forall t, In t gold_tasks -> ti_state r t = no_status).
  { intros t Ht.
    assert (Hs : ti_state r t <> no_status ->
                 ti_state r po_etl_sales = success)
      by (intros H; apply (Hgate t po_etl_sales H);
          rewrite (upstream_gold t Ht); left; reflexivity).
    destruct (ti_state r t); [reflexivity | | |];
      rewrite Hs in He by discriminate; discriminate He. }
  split; [exact He |].
  split; [exact Hg |].
  pose proof (written_by_owner dag src s r Hr) as Hw.
  assert (Hgold : forall t, In t gold_tasks ->
                    table_of t (db r) = table_of t s)
    by (intros t Ht; apply Hw; rewrite (Hg t Ht); discriminate).
  split.
  - assert (E : table_of po_etl_sales (db r) = table_of po_etl_sales s)
      by (apply Hw; rewrite He; discriminate).
    injection E as E; exact E.
  - unfold gold_tables.
    pose proof (Hgold po_process_total_sales ltac:(in_list)) as E1.
    pose proof (Hgold po_process_avg_order_quantity ltac:(in_list)) as E2.
    pose proof (Hgold po_process_top_selling_products ltac:(in_list)) as E3.
    pose proof (Hgold po_process_top_selling_customers ltac:(in_list)) as E4.
    pose proof (Hgold po_process_sales_trends_monthly ltac:(in_list)) as E5.
    pose proof (Hgold po_process_sales_trends_quarterly ltac:(in_list)) as E6.
    pose proof (Hgold po_process_sales_per_weather_condition ltac:(in_list))
      as E7.
    simpl in E1, E2, E3, E4, E5, E6, E7.
    injection E1 as ->; injection E2 as ->; injection E3 as ->;
      injection E4 as ->; injection E5 as ->; injection E6 as ->;
      injection E7 as ->; reflexivity.
Qed.

Lemma unfinished_bronze_leaves_stale_tables_witness :
  silver_sales
    (db (run_schedule (P := stable_pandas) dag src_unauthorized all_tasks
           (new_run store_total_sales)))
  = silver_sales store_total_sales.
Proof.
  apply (unfinished_bronze_leaves_stale_tables stable_pandas
           src_unauthorized store_total_sales _
           (reachable_run_schedule dag src_unauthorized store_total_sales
              all_tasks _ (reachable_new dag src_unauthorized _))
           fetch_weather_from_api).
  - in_list.
  - vm_compute; discriminate.
Defined.

(** ** The order of the aggregators *)

Lemma fold_left_comm_perm {S T : Type} (f : S -> T -> S) l l' :
  Permutation l l' ->
  (forall a b s, In a l -> In b l -> f (f s a) b = f (f s b) a) ->
  forall s, fold_left f l s = fold_left f l' s.
Proof.
  induction 1 as [| x l l' Hp IH | x y l | l l' l'' Hp1 IH1 Hp2 IH2];
    intros Hc s; simpl.
  - reflexivity.
  - apply IH; intros a b s' Ha Hb; apply Hc; right; assumption.
  - rewrite (Hc y x s); [reflexivity | left; reflexivity |].
    right; left; reflexivity.
  - rewrite IH1 by exact Hc; apply IH2.
    intros a b s' Ha Hb; apply Hc;
      apply (Permutation_in _ (Permutation_sym Hp1)); assumption.
Qed.

Section GoldOrder.
Context {P : PandasLib}.
Variable src : sources.

Lemma run_task_other_state g r t t' :
  t' <> t -> ti_state (run_task g src r t) t' = ti_state r t'.
Proof.
  intros Hne; rewrite run_task_eq.
  destruct (state_eqb (ti_state r t) no_status && all_success g r t);
    [| reflexivity].
  destruct (python_callable t src (db r)); simpl;
    rewrite !set_state_other by exact Hne; reflexivity.
Qed.

Lemma run_task_gold r t :
  In t gold_tasks ->
  ti_state r po_etl_sales = success -> ti_state r t = no_status ->
  db (run_task dag src r t) = after_task src (db r) t.
Proof.
  intros Ht He H0; rewrite run_task_eq; unfold all_success, after_task.
  rewrite (upstream_gold t Ht), H0; simpl; rewrite He; simpl.
  destruct (python_callable t src (db r)); reflexivity.
Qed.

Lemma run_task_gold_skipped r t :
  In t gold_tasks -> ti_state r po_etl_sales <> success ->
  run_task dag src r t = r.
Proof.
  intros Ht He; rewrite run_task_eq; unfold all_success.
  rewrite (upstream_gold t Ht); simpl.
  destruct (state_eqb (ti_state r po_etl_sales) success) eqn:E;
    [apply state_eqb_eq in E; contradiction |].
  rewrite andb_false_r; reflexivity.
Qed.

Lemma run_schedule_gold l :
  NoDup l -> incl l gold_tasks ->
  forall r,
    (forall t, In t l -> ti_state r t = no_status) ->
    db (run_schedule dag src l r)
    = if state_eqb (ti_state r po_etl_sales) success
      then fold_left (after_task src) l (db r)
      else db r.
Proof.
  induction 1 as [| a l Ha Hl IH]; intros Hincl r H0.
  - simpl; destruct (state_eqb _ success); reflexivity.
  - assert (Hg : In a gold_tasks) by (apply Hincl; left; reflexivity).
    rewrite run_schedule_cons.
    destruct (state_eqb (ti_state r po_etl_sales) success) eqn:E.
    + apply state_eqb_eq in E.
      rewrite IH.
      * rewrite run_task_other_state
          by (apply not_eq_sym, gold_not_etl, Hg).
        rewrite E; simpl.
        rewrite (run_task_gold r a Hg E (H0 a (or_introl eq_refl)));
          reflexivity.
      * intros t Ht; apply Hincl; right; exact Ht.
      * intros t Ht; rewrite run_task_other_state;
          [apply H0; right; exact Ht | intros ->; contradiction].
    + rewrite run_task_gold_skipped;
        [| exact Hg | intros H; rewrite H in E; discriminate E].
      rewrite IH, E; [reflexivity | |].
      * intros t Ht; apply Hincl; right; exact Ht.
      * intros t Ht; apply H0; right; exact Ht.
Qed.

(** Two aggregators write different tables and read [silver_sales] only:
    they commute. *)
Lemma after_task_gold_comm a b s :
  In a gold_tasks -> In b gold_tasks ->
  after_task src (after_task src s a) b = after_task src (after_task src s b) a.
Proof.
  intros Ha Hb; destruct s as [bc bo bw ss g1 g2 g3 g4 g5 g6 g7].
  repeat (destruct Ha as [<- | Ha]); try contradiction Ha;
    repeat (destruct Hb as [<- | Hb]); try contradiction Hb;
    unfold after_task; simpl python_callable;
    autounfold with callables; cbn [table_get T_silver_sales silver_sales];
    destruct ss as [silver |]; try reflexivity;
    cbn; try reflexivity;
    destruct (with_order_date silver) eqn:E; cbn; rewrite ?E; cbn;
    reflexivity.
Qed.
End GoldOrder.

(** X14: the order in which the seven aggregators run does not matter: a
    worker that takes the tasks in the declared order up to the reconciler
    and then the aggregators in any order leaves the same database as the
    declared order does, whether or not some task fails on the way. *)
Theorem aggregator_order_irrelevant :
  forall (P : PandasLib) src s order,
    Permutation order gold_tasks ->
    db (run_schedule dag src
          (op_test_connection :: bronze_tasks ++ po_etl_sales :: order)
          (new_run s))
    = run_pipeline dag src s.
Proof.
  intros P src s order Hperm.
  unfold run_pipeline, all_tasks, bronze_tasks; cbn [app].
  rewrite !run_schedule_cons.
  set (r5 := run_task dag src _ po_etl_sales).
  assert (H0 : forall t, In t gold_tasks -> ti_state r5 t = no_status).
  { intros t Ht; unfold r5.
    rewrite !run_task_other_state; [reflexivity | | | | |];
      intros ->; repeat (destruct Ht as [Ht | Ht]; try discriminate Ht);
      exact Ht. }
  assert (Hnd : NoDup gold_tasks)
    by (repeat constructor; simpl; intuition discriminate).
  assert (Hincl : incl order gold_tasks)
    by (intros t Ht; apply (Permutation_in _ Hperm), Ht).
  rewrite (run_schedule_gold src order
             (Permutation_NoDup (Permutation_sym Hperm) Hnd) Hincl r5)
    by (intros t Ht; apply H0, Hincl, Ht).
  rewrite (run_schedule_gold src gold_tasks Hnd (incl_refl _) r5 H0).
  destruct (state_eqb (ti_state r5 po_etl_sales) success); [| reflexivity].
  apply fold_left_comm_perm; [exact Hperm |].
  intros a b s' Ha Hb; apply after_task_gold_comm; apply Hincl; assumption.
Qed.

Lemma aggregator_order_irrelevant_witness :
  db (run_schedule (P := stable_pandas) dag src_ex
        (op_test_connection :: bronze_tasks ++ po_etl_sales :: rev gold_tasks)
        (new_run empty_store))
  = run_pipeline (P := stable_pandas) dag src_ex empty_store.
Proof.
  apply (aggregator_order_irrelevant stable_pandas src_ex empty_store
           (rev gold_tasks)).
  symmetry; apply Permutation_rev.
Defined.

(** ** When a full run succeeds *)

Section FullRunOutcome.
Context {P : PandasLib}.
Variable src : sources.

Ltac eval_trigger :=
  match goal with
  | |- context [if ?c then _ else _] =>
      let b := eval lazy in c in change c with b
  end; cbv iota.

Ltac eval_tables :=
  cbn [bind set_index json_normalize normalize_columns to_sql insert_rows
       table_get table_set table_name
       T_bronze_customers T_bronze_orders T_bronze_weather
       T_silver_sales T_gold_total_sales_by_customer
       T_gold_avg_order_quantity_per_product
       T_gold_top_selling_products T_gold_top_selling_customers
       T_gold_sales_trends_monthly T_gold_sales_trends_quarterly
       T_gold_sales_per_weather_condition
       bronze_customers bronze_orders bronze_weather silver_sales
       gold_total_sales_by_customer gold_avg_order_quantity_per_product
       gold_top_selling_products gold_top_selling_customers
       gold_sales_trends_monthly gold_sales_trends_quarterly
       gold_sales_per_weather_condition gold_tables].

Ltac eval_callable :=
  cbn [db new_run ti_state python_callable];
  autounfold with callables;
  repeat (progress eval_tables
          || match goal with
             | E : ?x = Ok _ |- context [?x] => rewrite E
             | E : ?x = Err _ |- context [?x] => rewrite E
             end).

Ltac eval_run :=
  unfold all_tasks, bronze_tasks, gold_tasks; cbn [app];
  do 12 (rewrite run_schedule_cons, run_task_eq; eval_trigger; eval_callable);
  rewrite run_schedule_nil; cbn [ti_state db new_run]; reflexivity.

Lemma run_schedule_succeeds_iff s :
  (forall t, ti_state (run_schedule dag src all_tasks (new_run s)) t = success)
  <->
  exists users weather orders df,
    users_api src = Ok users /\ users <> [] /\
    weather_list1 src users = Ok weather /\ weather <> [] /\
    sales_data_csv src = Ok orders /\
    with_order_date (etl_sales_query orders users weather) = Ok df.
Proof.
  destruct (users_api src) as [[| c cs] | e] eqn:Eu.
  - eassert (E : run_schedule dag src all_tasks (new_run s) = _) by eval_run.
    rewrite E; split.
    + intros H; specialize (H fetch_customer_from_api); lazy in H;
        discriminate H.
    + intros (u & w & o & df & H1 & H2 & _); injection H1 as <-.
      contradiction H2; reflexivity.
  - destruct (weather_list1 src (c :: cs)) as [[| w ws] | e] eqn:Ew.
    + eassert (E : run_schedule dag src all_tasks (new_run s) = _) by eval_run.
      rewrite E; split.
      * intros H; specialize (H fetch_weather_from_api); lazy in H;
          discriminate H.
      * intros (u & w & o & df & H1 & _ & H3 & H4 & _); injection H1 as <-.
        rewrite Ew in H3; injection H3 as <-; contradiction H4; reflexivity.
    + destruct (sales_data_csv src) as [o | e] eqn:Eo.
      * destruct (with_order_date (etl_sales_query o (c :: cs) (w :: ws)))
          as [df | e] eqn:Ed.
        -- eassert (E : run_schedule dag src all_tasks (new_run s) = _)
             by eval_run.
           rewrite E; split.
           ++ intros _; exists (c :: cs), (w :: ws), o, df.
              repeat split; try assumption; discriminate.
           ++ intros _ t; destruct t; reflexivity.
        -- eassert (E : run_schedule dag src all_tasks (new_run s) = _)
             by eval_run.
           rewrite E; split.
           ++ intros H; specialize (H po_process_sales_trends_monthly);
                lazy in H; discriminate H.
           ++ intros (u & w' & o' & df & H1 & _ & H3 & _ & H5 & H6).
              injection H1 as <-; rewrite Ew in H3; injection H3 as <-.
              injection H5 as <-; rewrite Ed in H6; discriminate H6.
      * eassert (E : run_schedule dag src all_tasks (new_run s) = _)
          by eval_run.
        rewrite E; split.
        -- intros H; specialize (H load_order); lazy in H; discriminate H.
        -- intros (u & w' & o' & df & _ & _ & _ & _ & H5 & _).
           discriminate H5.
    + eassert (E : run_schedule dag src all_tasks (new_run s) = _) by eval_run.
      rewrite E; split.
      * intros H; specialize (H fetch_weather_from_api); lazy in H;
          discriminate H.
      * intros (u & w & o & df & H1 & _ & H3 & _); injection H1 as <-.
        rewrite Ew in H3; discriminate H3.
  - eassert (E : run_schedule dag src all_tasks (new_run s) = _) by eval_run.
    rewrite E; split.
    + intros H; specialize (H fetch_customer_from_api); lazy in H;
        discriminate H.
    + intros (u & w & o & df & H1 & _); discriminate H1.
Qed.

(** After one pass over the tasks in the declared order no event can fire
    any more. *)
Lemma run_schedule_terminal s e :
  fire dag src e (run_schedule dag src all_tasks (new_run s)) = None.
Proof.
  destruct (users_api src) as [[| c cs] | e0] eqn:Eu;
    [| destruct (weather_list1 src (c :: cs)) as [[| w ws] | e0] eqn:Ew;
       [| destruct (sales_data_csv src) as [o | e0] eqn:Eo;
          [destruct (with_order_date (etl_sales_query o (c :: cs) (w :: ws)))
             as [df | e0] eqn:Ed |] |] |];
    (eassert (E : run_schedule dag src all_tasks (new_run s) = _) by eval_run);
    rewrite E; destruct e as [t | t]; destruct t; reflexivity.
Qed.

(** A run in which no weather lookup answers with status 200. *)
Lemma run_pipeline_no_weather s users :
  users_api src = Ok users -> users <> [] ->
  (forall c, In c users -> lookup_ok src c = false) ->
  run_schedule dag src all_tasks (new_run s)
  = mk_dagrun
      (set_state fetch_weather_from_api failed
         (set_state fetch_weather_from_api running
            (set_state fetch_customer_from_api success
               (set_state fetch_customer_from_api running
                  (set_state op_test_connection success
                     (set_state op_test_connection running
                        (fun _ => no_status)))))))
      (table_set T_bronze_customers (Some users) s).
Proof.
  intros Eu Hne Hfail.
  assert (Ew : weather_list1 src users = Ok []).
  { unfold weather_list1; rewrite filter_None_get_weather.
    rewrite (filter_none _ _ Hfail); reflexivity. }
  destruct users as [| c cs]; [contradiction Hne; reflexivity |].
  eval_run.
Qed.
End FullRunOutcome.

(** X15: a full run in the declared order ends with all twelve tasks
    succeeded exactly when the customer API returns at least one user, at
    least one weather lookup gives a record and every record has its weather
    entry, the order file can be read, and [pd.to_datetime] accepts the
    [order_date] column of the joined rows. *)
Theorem full_run_succeeds_iff :
  forall (P : PandasLib) src s,
    (forall t,
       ti_state (run_schedule dag src all_tasks (new_run s)) t = success)
    <->
    exists users weather orders df,
      users_api src = Ok users /\ users <> [] /\
      weather_list1 src users = Ok weather /\ weather <> [] /\
      sales_data_csv src = Ok orders /\
      with_order_date (etl_sales_query orders users weather) = Ok df.
Proof. intros P src s; apply run_schedule_succeeds_iff. Qed.

Lemma full_run_succeeds_iff_witness :
  ti_state
    (run_schedule (P := stable_pandas) dag src_ex all_tasks
       (new_run empty_store))
    po_process_sales_per_weather_condition = success.
Proof.
  apply (proj2 (full_run_succeeds_iff stable_pandas src_ex empty_store)).
  eexists; eexists; eexists; eexists.
  split; [reflexivity |].
  split; [discriminate |].
  split; [reflexivity |].
  split; [discriminate |].
  split; reflexivity.
Defined.

(** X16: one pass over the tasks in the declared order is a whole run:
    afterwards no task can be started and none is left running, whatever
    failed on the way. *)
Theorem declared_order_completes_run :
  forall (P : PandasLib) src s,
    (forall t,
       fire dag src (Start t) (run_schedule dag src all_tasks (new_run s))
       = None) /\
    (forall t,
       ti_state (run_schedule dag src all_tasks (new_run s)) t <> running).
Proof.
  intros P src s; split; intros t.
  - apply run_schedule_terminal.
  - pose proof (run_schedule_terminal src s (Finish t)) as H.
    intros E; rewrite (fire_Finish_running src t _ E) in H; discriminate H.
Qed.

(** X17: when the customer API returns users but no weather lookup answers
    with status 200, a full run replaces [bronze_customers] and nothing
    else: the weather extraction fails, the order loader, the reconciler and
    the aggregators are never started, and every other table, the gold
    tables included, stays as the run before left it. *)
Theorem run_without_weather :
  forall (P : PandasLib) src s users,
    users_api src = Ok users -> users <> [] ->
    (forall c, In c users -> lookup_ok src c = false) ->
    run_pipeline dag src s = table_set T_bronze_customers (Some users) s /\
    ti_state (run_schedule dag src all_tasks (new_run s))
      fetch_weather_from_api = failed /\
    (forall t, In t (load_order :: po_etl_sales :: gold_tasks) ->
       ti_state (run_schedule dag src all_tasks (new_run s)) t = no_status) /\
    gold_tables (run_pipeline dag src s) = gold_tables s.
Proof.
  intros P src s users Eu Hne Hfail.
  unfold run_pipeline.
  rewrite (run_pipeline_no_weather src s users Eu Hne Hfail).
  split; [reflexivity |].
  split; [reflexivity |].
  split; [| reflexivity].
  intros t Ht; repeat (destruct Ht as [<- | Ht]); try contradiction Ht;
    reflexivity.
Qed.

Lemma run_without_weather_witness :
  gold_tables (run_pipeline (P := stable_pandas) dag src_unauthorized
                 store_total_sales)
  = gold_tables store_total_sales.
Proof.
  apply (run_without_weather stable_pandas src_unauthorized store_total_sales
           [mk_customer 1 "Leanne Graham" "-37.3159" "81.1496"] eq_refl).
  - discriminate.
  - intros c [<- | []]; reflexivity.
Defined.

(** ** Column names *)

Lemma replace_dot_no_dot c : ~ has_dot (replace_dot c).
Proof.
  unfold has_dot; induction c as [| a c IH]; simpl; [intros [] |].
  intros [E | H]; [| exact (IH H)].
  destruct (Ascii.eqb_spec a "."%char) as [-> | Hne];
    [discriminate E | contradiction].
Qed.

Lemma replace_dot_without_dot c : ~ has_dot c -> replace_dot c = c.
Proof.
  unfold has_dot; induction c as [| a c IH]; simpl; intros H; [reflexivity |].
  destruct (Ascii.eqb_spec a "."%char) as [-> | Hne].
  - contradiction H; left; reflexivity.
  - rewrite IH; [reflexivity | intros Hin; apply H; right; exact Hin].
Qed.

Lemma replace_dot_length c :
  String.length (replace_dot c) = String.length c.
Proof. induction c as [| a c IH]; simpl; [| rewrite IH]; reflexivity. Qed.

(** X18: [normalize_columns] keeps the number of columns and the length of
    every name, leaves no dot in any name, keeps the names that had none,
    and changes nothing when applied again; it can however give two
    different columns the same name. *)
Theorem normalize_column_names_spec :
  forall columns,
    List.length (normalize_column_names columns) = List.length columns /\
    map String.length (normalize_column_names columns)
    = map String.length columns /\
    (forall c, In c (normalize_column_names columns) -> ~ has_dot c) /\
    (forall c, In c columns -> ~ has_dot c ->
       In c (normalize_column_names columns)) /\
    normalize_column_names (normalize_column_names columns)
    = normalize_column_names columns /\
    (exists c1 c2, c1 <> c2 /\
       normalize_column_names [c1; c2] = ["weather_main"; "weather_main"]).
Proof.
  intros columns; unfold normalize_column_names.
  split; [apply length_map |].
  split; [rewrite map_map; apply map_ext; intros c; apply replace_dot_length |].
  split; [| split; [| split]].
  - intros c Hc; apply in_map_iff in Hc as (c0 & <- & _).
    apply replace_dot_no_dot.
  - intros c Hc Hd; apply in_map_iff; exists c.
    split; [apply replace_dot_without_dot; exact Hd | exact Hc].
  - rewrite map_map; apply map_ext; intros c.
    apply replace_dot_without_dot, replace_dot_no_dot.
  - exists "weather.main", "weather_main"; split; [discriminate | reflexivity].
Qed.

(** ** The customer extractor *)

(** X19: [fetch_transform_write] writes the users the customer API
    returned to [bronze_customers], replacing what was there and leaving
    every other table as it was; on an empty list of users it fails with
    [KeyError] on the index column [id] and writes nothing, and it fails
    with the error of the API when the API cannot be reached. *)
Theorem fetch_transform_write_outcome :
  forall src s,
    match users_api src with
    | Ok [] => fetch_transform_write src s = Err (KeyError ["id"])
    | Ok users =>
        exists s',
          fetch_transform_write src s = Ok s' /\
          bronze_customers s' = Some users /\
          (forall t, t <> fetch_customer_from_api ->
             table_of t s' = table_of t s) /\
          fetch_transform_write src s' = Ok s'
    | Err e => fetch_transform_write src s = Err e
    end.
Proof.
  intros src s; unfold fetch_transform_write, fetch_users.
  destruct (users_api src) as [[| c cs] | e]; try reflexivity.
  simpl; eexists; split; [reflexivity |].
  split; [reflexivity |].
  split; [| reflexivity].
  intros t Ht; destruct t; try reflexivity; contradiction Ht; reflexivity.
Qed.
